(** * family-tasks-app: estimation, learning, availability, allocation, rescheduling

    A shallow embedding of the scheduling services of the application
    (learningEngine, scheduler, realtimeScheduler), of the availability check
    of the calendar service, of the task computations of the synchronisation
    hook and of the webhook handler, together with the properties of its
    written specification and further properties read off the code.

    Conventions of the embedding.
    - A [Date] is the integer [Date.getTime()]: milliseconds since the epoch,
      in [Z].  The local time zone is taken to be UTC without daylight saving,
      so that a calendar day is 86 400 000 ms.
    - Minute counts produced by [Math.floor] and the integer settings of the
      user interface are in [Z]; whole numbers are exact in the doubles of
      JavaScript.  The numbers the allocator computes with (the buffer, which
      the relaxed scheduler halves, the minutes left of a slot and of a
      phase) are in [Q], where its sums and differences are exact for
      multiples of half a minute; [new Date] drops the fraction of a number
      of milliseconds.
    - The estimator and the learning store compute with exact rationals in
      [Q] (learning rates, accuracies, phase fractions).  The rounding of
      binary64 is written out, with [Double.round], for the floored products
      of the rescheduler, where it decides the result (90 * 0.7 is below 63
      in doubles), and for the sum of the stored phase fractions.
    - A [Date] that has passed through [JSON.parse] without being revived is
      a string; the rescheduler reads the blocks of stored tasks in this
      form ([DateForm]).
    - The four phase keys of the source objects (準備, 設計, 実装, 改善) are
      spelled [incubation], [design], [implementation], [improvement], the
      names the first version of the scheduler uses for the same keys.
    - [localStorage] is a record with one typed slot per key; apart from
      the form of dates JSON serialisation is elided, and reads and writes
      do not fail.
    - An awaited call whose answer depends on the outside world (the calendar
      provider, the clock) takes that answer from an explicit argument.
    - A [Map] keyed by strings is a finite map when only its contents matter
      (the learning store) and an association list in insertion order when
      the order of iteration matters (the listeners). *)

From Stdlib Require Import ZArith QArith Qround Qminmax Qabs Qpower Lia Lqa String Ascii List
  Bool.
From stdpp Require Import gmap strings pretty.

Open Scope Z_scope.

(** ** Data model *)

Inductive Phase := Incubation | Design | Implementation | Improvement.

(** An object with exactly the four phase keys. *)
Record PerPhase (A : Type) := mkPerPhase {
  incubation : A;
  design : A;
  implementation : A;
  improvement : A
}.
Arguments mkPerPhase {A} _ _ _ _.
Arguments incubation {A} _.
Arguments design {A} _.
Arguments implementation {A} _.
Arguments improvement {A} _.

(** [TaskEstimation]: the four phase keys, [total] and [confidence]. *)
Record TaskEstimation := mkEstimation {
  phases : PerPhase Z;
  total : Z;
  confidence : Q
}.

Record CalendarEvent := mkCalendarEvent {
  ev_id : string;
  ev_taskId : string;
  phase : Phase;
  startTime : Z;
  endTime : Z;
  googleEventId : option string
}.

Inductive Status := Todo | Doing | Done | Wiki.

(** [priority: 1 | 2 | 3]. *)
Inductive Priority := Prio1 | Prio2 | Prio3.

Record TimeOfDay := mkTimeOfDay { hour : Z; minute : Z }.

(** One entry of [WorkingHours]; the strings "HH:MM" are kept parsed. *)
Record DayConfig := mkDayConfig {
  day_start : TimeOfDay;
  day_end : TimeOfDay;
  enabled : bool
}.

Record WorkingHours := mkWorkingHours {
  monday : DayConfig;
  tuesday : DayConfig;
  wednesday : DayConfig;
  thursday : DayConfig;
  friday : DayConfig;
  saturday : DayConfig;
  sunday : DayConfig
}.

Record UserSettings := mkUserSettings {
  settings_workingHours : WorkingHours;
  googleCalendarEnabled : bool;
  defaultTaskDuration : Z;
  settings_bufferTime : Z
}.

Record Window := mkWindow { win_start : Z; win_end : Z }.

Record Change := mkChange {
  ch_taskId : string;
  oldSchedule : Window;
  newSchedule : Window
}.

Inductive Trigger := calendar_change | task_update | manual_adjustment.

Record ReschedulingEvent := mkReschedulingEvent {
  re_id : string;
  triggeredBy : Trigger;
  affectedTasks : list string;
  re_timestamp : Z;
  changes : list Change
}.

(** A task.  [reschedulingHistory] holds references to the (shared, later
    mutated) event objects, rendered as their identifiers. *)
Record Task := mkTask {
  task_id : string;
  title : string;
  description : option string;
  status : Status;
  project : option string;
  keywords : list string;
  priority : Priority;
  dueDate : option Z;
  notificationTime : option Z;
  createdAt : Z;
  updatedAt : Z;
  estimation : option TaskEstimation;
  actualTime : option (PerPhase Z);
  calendarEvents : option (list CalendarEvent);
  scheduledStartDate : option Z;
  scheduledEndDate : option Z;
  lastRescheduled : option Z;
  reschedulingHistory : option (list string);
  workspace : option string
}.

Record TaskHistory := mkTaskHistory {
  h_taskId : string;
  originalEstimation : TaskEstimation;
  h_actualTime : PerPhase Z;
  adjustmentReason : string;
  h_timestamp : Z
}.

Record CommonPatterns := mkCommonPatterns {
  underestimationRate : Q;
  overestimationRate : Q;
  phaseDistribution : PerPhase Q
}.

Record LearningData := mkLearningData {
  userId : string;
  taskType : string;
  estimationAccuracy : Q;
  commonPatterns : CommonPatterns;
  lastUpdated : Z
}.

(** [localStorage], one slot per key used by the services. *)
Record LocalStorage := mkLocalStorage {
  familytasks_task_history : option (list TaskHistory);
  familytasks_learning_data : option (list LearningData);
  familytasks_rescheduling_events : option (list ReschedulingEvent);
  familytasks_tasks : option (list Task);
  familytasks_user_settings : option UserSettings
}.

(** Console output, by level. *)
Inductive LogLevel := LogInfo | LogWarn | LogError.

(** ** Small helpers for the JavaScript idioms of the source *)

(** [Math.floor] of a product or quotient of numbers. *)
Definition floor (q : Q) : Z := Qfloor q.

(** The binary64 numbers of JavaScript, as the rationals they denote.  The
    limits of the exponent are left out: no number of the services comes
    near them. *)
Module Double.

(** The exponent of the last place of the double nearest to [q]: the [e] with
    [2^52 <= |q| / 2^e < 2^53]. *)
Definition exponent (q : Q) : Z :=
  let e := Z.log2 (Z.abs (Qnum q)) - Z.log2 (Z.pos (Qden q)) - 53 in
  if Qle_bool (2 ^ (e + 53)) (Qabs q) then e + 1 else e.

(** The integer nearest to [s], the even one of two that are equally near. *)
Definition nearestEven (s : Q) : Z :=
  let f := Qfloor s in
  match (s - inject_Z f ?= 1 # 2)%Q with
  | Lt => f
  | Gt => f + 1
  | Eq => if Z.even f then f else f + 1
  end.

(** Rounding to nearest, ties to even: the double that a decimal literal
    denotes, and the result of an operation on doubles whose exact result is
    [q]. *)
Definition round (q : Q) : Q :=
  if Qeq_bool q 0 then 0%Q
  else (inject_Z (nearestEven (q / 2 ^ exponent q)) * 2 ^ exponent q)%Q.


End Double.

(** [Math.floor(x * c)] for a whole number [x] and a decimal literal [c]. *)
Definition floorTimes (x : Z) (c : Q) : Z :=
  Qfloor (Double.round (inject_Z x * Double.round c)).

(** [a.slice(-n)] as computed by [a.splice(0, a.length - n)] on a longer
    array: the last [n] entries. *)
Definition keepLast {A : Type} (n : nat) (l : list A) : list A :=
  if (n <? length l)%nat then drop (length l - n)%nat l else l.

(** [String.prototype.toLowerCase] on the ASCII letters; the other bytes
    (the Japanese keywords have no case) are left as they are. *)
Definition lowerAscii (c : ascii) : ascii :=
  let n := nat_of_ascii c in
  if ((65 <=? n) && (n <=? 90))%nat then ascii_of_nat (n + 32) else c.

Fixpoint toLowerCase (s : string) : string :=
  match s with
  | EmptyString => EmptyString
  | String c s' => String (lowerAscii c) (toLowerCase s')
  end.

(** [hay.includes(needle)]. *)
Fixpoint includes (hay needle : string) : bool :=
  String.prefix needle hay ||
  match hay with
  | EmptyString => false
  | String _ hay' => includes hay' needle
  end.

(** A stable sort by an integer key:
    [l.sort((a, b) => key(a) - key(b))]. *)
Fixpoint insertBy {A : Type} (key : A -> Z) (x : A) (l : list A) : list A :=
  match l with
  | [] => [x]
  | y :: l' => if key x <=? key y then x :: y :: l' else y :: insertBy key x l'
  end.

Fixpoint sortBy {A : Type} (key : A -> Z) (l : list A) : list A :=
  match l with
  | [] => []
  | x :: l' => insertBy key x (sortBy key l')
  end.

(** ** learningEngine *)

Module LearningEngine.

(** The engine: its in-memory map and the storage it persists to. *)
Record State := mkState {
  learningData : gmap string LearningData;
  storage : LocalStorage
}.

Definition getDefaultEstimation : TaskEstimation :=
  let baseTime := 60 in
  {| phases := {| incubation := floor (inject_Z baseTime * 0.2);
                  design := floor (inject_Z baseTime * 0.3);
                  implementation := floor (inject_Z baseTime * 0.4);
                  improvement := floor (inject_Z baseTime * 0.1) |};
     total := baseTime;
     confidence := 0.7 |}.

Definition classifyTitle (task : Task) : string :=
  let title := toLowerCase (title task) in
  if includes title "買い物" || includes title "購入" then "買い物"
  else if includes title "掃除" || includes title "片付け" then "家事"
  else if includes title "会議" || includes title "ミーティング" then "仕事"
  else if includes title "勉強" || includes title "学習" then "学習"
  else "その他".

(** [classifyTask]; an undefined or empty [project] is falsy. *)
Definition classifyTask (task : Task) : string :=
  match project task with
  | Some (String c p) => String c p
  | _ =>
      match keywords task with
      | k :: _ => k
      | [] => classifyTitle task
      end
  end.

(** [Object.values(actualTime).reduce((sum, time) => sum + time, 0)]. *)
Definition sumValues (a : PerPhase Z) : Z :=
  0 + incubation a + design a + implementation a + improvement a.

Definition calculateEstimationAccuracy
    (estimation : TaskEstimation) (actualTime : PerPhase Z) : Q :=
  let estimatedTotal := total estimation in
  let actualTotal := sumValues actualTime in
  if (estimatedTotal =? 0) && (actualTotal =? 0) then 1%Q
  else if (estimatedTotal =? 0) || (actualTotal =? 0) then 0%Q
  else
    let relativeError :=
      (inject_Z (Z.abs (estimatedTotal - actualTotal))
       / inject_Z (Z.max estimatedTotal actualTotal))%Q in
    Qmax 0 (1 - relativeError).

Definition createInitialLearningData (userId taskType : string) (now : Z)
    : LearningData :=
  {| userId := userId;
     taskType := taskType;
     estimationAccuracy := 0.7;
     commonPatterns :=
       {| underestimationRate := 0.5;
          overestimationRate := 0.5;
          phaseDistribution :=
            {| incubation := 0.2%Q; design := 0.3%Q;
               implementation := 0.4%Q; improvement := 0.1%Q |} |};
     lastUpdated := now |}.

(** The learning rate of the exponential moving averages. *)
Definition alpha : Q := 0.1.

(** The record the update starts from: the stored one, or a fresh one. *)
Definition recordFor (learning : gmap string LearningData)
    (taskType : string) (now : Z) : LearningData :=
  match learning !! taskType with
  | Some ld => ld
  | None => createInitialLearningData "default" taskType now
  end.

(** The body of [updateLearningData] on the record of the category, in exact
    arithmetic. *)
Definition updateRecord (ld : LearningData) (history : TaskHistory) (now : Z)
    : LearningData :=
  let accuracy :=
    calculateEstimationAccuracy (originalEstimation history) (h_actualTime history) in
  let estimationAccuracy' :=
    (alpha * accuracy + (1 - alpha) * estimationAccuracy ld)%Q in
  let totalEstimated := total (originalEstimation history) in
  let totalActual := sumValues (h_actualTime history) in
  let cp := commonPatterns ld in
  let rates :=
    if totalEstimated <? totalActual then
      ((alpha * 1 + (1 - alpha) * underestimationRate cp)%Q,
       ((1 - alpha) * overestimationRate cp)%Q)
    else if totalActual <? totalEstimated then
      (((1 - alpha) * underestimationRate cp)%Q,
       (alpha * 1 + (1 - alpha) * overestimationRate cp)%Q)
    else (underestimationRate cp, overestimationRate cp) in
  let actualTotal := if totalActual =? 0 then 1 else totalActual in
  let pd := phaseDistribution cp in
  let blend (actual : Z) (old : Q) : Q :=
    (alpha * (inject_Z actual / inject_Z actualTotal) + (1 - alpha) * old)%Q in
  {| userId := userId ld;
     taskType := taskType ld;
     estimationAccuracy := estimationAccuracy';
     commonPatterns :=
       {| underestimationRate := fst rates;
          overestimationRate := snd rates;
          phaseDistribution :=
            {| incubation := blend (incubation (h_actualTime history)) (incubation pd);
               design := blend (design (h_actualTime history)) (design pd);
               implementation :=
                 blend (implementation (h_actualTime history)) (implementation pd);
               improvement := blend (improvement (h_actualTime history)) (improvement pd) |} |};
     lastUpdated := now |}.


(** [saveLearningData]: the values of the map are written out. *)
Definition saveLearningData (st : State) : State :=
  {| learningData := learningData st;
     storage :=
       {| familytasks_task_history := familytasks_task_history (storage st);
          familytasks_learning_data := Some ((map_to_list (learningData st)).*2);
          familytasks_rescheduling_events := familytasks_rescheduling_events (storage st);
          familytasks_tasks := familytasks_tasks (storage st);
          familytasks_user_settings := familytasks_user_settings (storage st) |} |}.

(** [updateLearningData]: the record of the category is created if missing,
    updated in place inside the map, and the map is persisted. *)
Definition updateLearningData (task : Task) (history : TaskHistory) (now : Z)
    (st : State) : State :=
  let taskType := classifyTask task in
  let ld := recordFor (learningData st) taskType now in
  saveLearningData
    {| learningData := <[taskType := updateRecord ld history now]> (learningData st);
       storage := storage st |}.

(** [saveTaskHistory]: append, keep the last 1000 entries. *)
Definition saveTaskHistory (history : TaskHistory) (st : State) : State :=
  let histories := default [] (familytasks_task_history (storage st)) ++ [history] in
  {| learningData := learningData st;
     storage :=
       {| familytasks_task_history := Some (keepLast 1000 histories);
          familytasks_learning_data := familytasks_learning_data (storage st);
          familytasks_rescheduling_events := familytasks_rescheduling_events (storage st);
          familytasks_tasks := familytasks_tasks (storage st);
          familytasks_user_settings := familytasks_user_settings (storage st) |} |}.

Definition setActualTime (task : Task) (a : PerPhase Z) : Task :=
  {| task_id := task_id task; title := title task; description := description task;
     status := status task; project := project task; keywords := keywords task;
     priority := priority task; dueDate := dueDate task;
     notificationTime := notificationTime task; createdAt := createdAt task;
     updatedAt := updatedAt task; estimation := estimation task;
     actualTime := Some a;
     calendarEvents := calendarEvents task;
     scheduledStartDate := scheduledStartDate task;
     scheduledEndDate := scheduledEndDate task;
     lastRescheduled := lastRescheduled task;
     reschedulingHistory := reschedulingHistory task;
     workspace := workspace task |}.

(** The history entry [recordActualTime] builds. *)
Definition historyEntry (task : Task) (actual : PerPhase Z) (reason : string)
    (now : Z) : TaskHistory :=
  {| h_taskId := task_id task;
     originalEstimation := default getDefaultEstimation (estimation task);
     h_actualTime := actual;
     adjustmentReason := reason;
     h_timestamp := now |}.

(** [recordActualTime]: the task object is mutated, so the updated task is
    returned next to the new state of the engine. *)
Definition recordActualTime (task : Task) (actual : PerPhase Z) (reason : string)
    (now : Z) (st : State) : Task * State :=
  let taskHistory := historyEntry task actual reason now in
  let st1 := saveTaskHistory taskHistory st in
  let st2 := updateLearningData task taskHistory now st1 in
  (setActualTime task actual, st2).

Definition priorityMultiplier (p : Priority) : Q :=
  match p with Prio3 => 1.5 | Prio1 => 0.7 | Prio2 => 1.0 end.

Definition withTotal (e : TaskEstimation) (t : Z) : TaskEstimation :=
  {| phases := phases e; total := t; confidence := confidence e |}.

Definition redistributePhases (baseEstimation : TaskEstimation) (newTotal : Z)
    : TaskEstimation :=
  let ratio := (inject_Z newTotal / inject_Z (total baseEstimation))%Q in
  {| phases :=
       {| incubation := floor (inject_Z (incubation (phases baseEstimation)) * ratio);
          design := floor (inject_Z (design (phases baseEstimation)) * ratio);
          implementation := floor (inject_Z (implementation (phases baseEstimation)) * ratio);
          improvement := floor (inject_Z (improvement (phases baseEstimation)) * ratio) |};
     total := newTotal;
     confidence := confidence baseEstimation |}.

(** [getImprovedEstimation].  [baseEstimation.total] is overwritten before
    [redistributePhases] reads it, as in the source. *)
Definition getImprovedEstimation (learning : gmap string LearningData) (task : Task)
    : TaskEstimation :=
  let taskType := classifyTask task in
  let baseEstimation := getDefaultEstimation in
  let baseEstimation :=
    withTotal baseEstimation
      (floor (inject_Z (total baseEstimation) * priorityMultiplier (priority task))) in
  match learning !! taskType with
  | None => redistributePhases baseEstimation (total baseEstimation)
  | Some ld =>
      let adjustedTotal := inject_Z (total baseEstimation) in
      let adjustedTotal :=
        if Qlt_le_dec 0.6 (underestimationRate (commonPatterns ld))
        then (adjustedTotal * 1.2)%Q
        else if Qlt_le_dec 0.6 (overestimationRate (commonPatterns ld))
        then (adjustedTotal * 0.9)%Q
        else adjustedTotal in
      let adjustedTotal := floor adjustedTotal in
      let improved := redistributePhases baseEstimation adjustedTotal in
      let patterns := phaseDistribution (commonPatterns ld) in
      let p1 := floor (inject_Z adjustedTotal * incubation patterns) in
      let p2 := floor (inject_Z adjustedTotal * design patterns) in
      let p3 := floor (inject_Z adjustedTotal * implementation patterns) in
      let p4 := floor (inject_Z adjustedTotal * improvement patterns) in
      let phaseSum := p1 + p2 + p3 + p4 in
      let p3 := if phaseSum =? adjustedTotal then p3 else p3 + (adjustedTotal - phaseSum) in
      {| phases := {| incubation := p1; design := p2; implementation := p3; improvement := p4 |};
         total := total improved;
         confidence := estimationAccuracy ld |}
  end.

(** The sum of the four phase durations of an estimation. *)
Definition phaseSum (e : TaskEstimation) : Z :=
  incubation (phases e) + design (phases e)
  + implementation (phases e) + improvement (phases e).

(** [loadLearningData]: every stored record enters the map under its own
    [taskType]; a later record replaces an earlier one of the same type. *)
Definition loadLearningData (st : State) : State :=
  match familytasks_learning_data (storage st) with
  | Some data =>
      {| learningData :=
           fold_left (fun m item => <[taskType item := item]> m) data (learningData st);
         storage := storage st |}
  | None => st
  end.

(** The constructor: an empty map, filled from the storage. *)
Definition create (s : LocalStorage) : State :=
  loadLearningData {| learningData := ∅; storage := s |}.

(** What [getLearningInsights] returns.  The order in which a [Map] lists
    its keys is not modelled: [taskTypes] is the list of keys in the order of
    the finite map. *)
Record LearningInsights := mkLearningInsights {
  taskTypes : list string;
  accuracyByType : gmap string Q;
  overallAccuracy : Q;
  totalTasksLearned : nat
}.

Definition getLearningInsights (st : State) : LearningInsights :=
  let taskTypes := (map_to_list (learningData st)).*1 in
  let totalAccuracy :=
    fold_left (fun acc data => (acc + estimationAccuracy data)%Q)
      (map_to_list (learningData st)).*2 0%Q in
  {| taskTypes := taskTypes;
     accuracyByType := estimationAccuracy <$> learningData st;
     overallAccuracy :=
       if (0 <? length taskTypes)%nat
       then (totalAccuracy / inject_Z (Z.of_nat (length taskTypes)))%Q
       else 0%Q;
     totalTasksLearned :=
       match familytasks_task_history (storage st) with
       | Some histories => length histories
       | None => 0%nat
       end |}.

(** The task with another priority. *)
Definition setPriority (task : Task) (p : Priority) : Task :=
  {| task_id := task_id task; title := title task; description := description task;
     status := status task; project := project task; keywords := keywords task;
     priority := p; dueDate := dueDate task;
     notificationTime := notificationTime task; createdAt := createdAt task;
     updatedAt := updatedAt task; estimation := estimation task;
     actualTime := actualTime task;
     calendarEvents := calendarEvents task;
     scheduledStartDate := scheduledStartDate task;
     scheduledEndDate := scheduledEndDate task;
     lastRescheduled := lastRescheduled task;
     reschedulingHistory := reschedulingHistory task;
     workspace := workspace task |}.

End LearningEngine.

(** ** scheduler

    The buffer between blocks is a number of minutes: the user settings
    hold a whole number, the relaxed scheduler passes half of it.  Numbers
    of minutes are rationals here; instants stay whole milliseconds. *)

Module Scheduler.

Record TimeSlot := mkTimeSlot {
  slot_start : Z;
  slot_end : Z;
  duration : Z
}.

(** An item of the provider's answer: [start.dateTime] and [end.dateTime]
    are optional (all-day events carry none). *)
Record RawEvent := mkRawEvent {
  raw_start : option Z;
  raw_end : option Z
}.

Record Busy := mkBusy { busy_start : Z; busy_end : Z }.

(** The calendar provider behind [getEvents]: the events of a calendar in a
    window, or [None] when the request fails. *)
Definition Provider := string -> Z -> Z -> option (list RawEvent).

Definition Console := list (LogLevel * string).

Definition msPerMinute : Z := 60 * 1000.
Definition msPerDay : Z := 24 * 60 * 60 * 1000.

(** [new Date(t)] for a number of milliseconds: the fraction is dropped,
    towards zero. *)
Definition newDate (t : Q) : Z :=
  if Qle_bool 0 t then Qfloor t else Qceiling t.

Inductive DayKey :=
  Ksunday | Kmonday | Ktuesday | Kwednesday | Kthursday | Kfriday | Ksaturday.

(** [date.getDay()] indexes the array of day keys; 1 January 1970 was a
    Thursday. *)
Definition getDayOfWeek (date : Z) : DayKey :=
  match (date / msPerDay + 4) mod 7 with
  | 0 => Ksunday
  | 1 => Kmonday
  | 2 => Ktuesday
  | 3 => Kwednesday
  | 4 => Kthursday
  | 5 => Kfriday
  | _ => Ksaturday
  end.

Definition dayConfig (wh : WorkingHours) (k : DayKey) : DayConfig :=
  match k with
  | Ksunday => sunday wh
  | Kmonday => monday wh
  | Ktuesday => tuesday wh
  | Kwednesday => wednesday wh
  | Kthursday => thursday wh
  | Kfriday => friday wh
  | Ksaturday => saturday wh
  end.

(** [d.setHours(h, m, 0, 0)] on a copy of [date]. *)
Definition setHours (date : Z) (t : TimeOfDay) : Z :=
  date - date mod msPerDay + (hour t * 60 + minute t) * msPerMinute.

(** [getEvents]: logs and rethrows when the request fails. *)
Definition getEvents (provider : Provider) (calendarId : string) (timeMin timeMax : Z)
    : option (list RawEvent) * Console :=
  match provider calendarId timeMin timeMax with
  | Some items => (Some items, [])
  | None => (None, [(LogError, "Failed to get events:")])
  end.

(** The [filter] and [map] applied to the provider's items. *)
Definition toBusy (event : RawEvent) : option Busy :=
  match raw_start event, raw_end event with
  | Some s, Some e => Some (mkBusy s e)
  | _, _ => None
  end.

(** One iteration of the loop over the sorted busy intervals; the state is
    [(currentTime, slots)]. *)
Definition gapStep (bufferTime : Q) (st : Z * list TimeSlot) (event : Busy)
    : Z * list TimeSlot :=
  let '(currentTime, slots) := st in
  let slots :=
    if currentTime <? busy_start event then
      let slotEnd :=
        newDate (inject_Z (busy_start event) - bufferTime * 60 * 1000) in
      if currentTime <? slotEnd then
        let duration := (slotEnd - currentTime) / (60 * 1000) in
        if 30 <=? duration
        then slots ++ [mkTimeSlot currentTime slotEnd duration]
        else slots
      else slots
    else slots in
  (newDate (inject_Z (busy_end event) + bufferTime * 60 * 1000), slots).

Definition findDayAvailableSlots (provider : Provider) (date : Z)
    (startTime endTime : TimeOfDay) (bufferTime : Q) (calendarId : string)
    : list TimeSlot * Console :=
  let dayStart := setHours date startTime in
  let dayEnd := setHours date endTime in
  match getEvents provider calendarId dayStart dayEnd with
  | (Some events, log) =>
      let sortedEvents := sortBy busy_start (omap toBusy events) in
      let '(currentTime, slots) :=
        fold_left (gapStep bufferTime) sortedEvents (dayStart, []) in
      let slots :=
        if currentTime <? dayEnd then
          let duration := (dayEnd - currentTime) / (60 * 1000) in
          if 30 <=? duration
          then slots ++ [mkTimeSlot currentTime dayEnd duration]
          else slots
        else slots in
      (slots, log)
  | (None, log) =>
      let duration := (dayEnd - dayStart) / (60 * 1000) in
      ([mkTimeSlot dayStart dayEnd duration],
       log ++ [(LogError, "Failed to find day available slots:")])
  end.

(** The [while (currentDate <= endDate)] loop, one day per iteration. *)
Fixpoint findSlotsFrom (days : nat) (provider : Provider) (currentDate endDate : Z)
    (workingHours : WorkingHours) (bufferTime : Q) (calendarId : string)
    : list TimeSlot * Console :=
  match days with
  | O => ([], [])
  | S days' =>
      if currentDate <=? endDate then
        let dayConfig := dayConfig workingHours (getDayOfWeek currentDate) in
        let '(daySlots, log) :=
          if enabled dayConfig
          then findDayAvailableSlots provider currentDate
                 (day_start dayConfig) (day_end dayConfig) bufferTime calendarId
          else ([], []) in
        let '(rest, log') :=
          findSlotsFrom days' provider (currentDate + msPerDay) endDate
            workingHours bufferTime calendarId in
        (daySlots ++ rest, log ++ log')
      else ([], [])
  end.

(** The number of iterations of the loop from [startDate] to [endDate]. *)
Definition daysInRange (startDate endDate : Z) : nat :=
  Z.to_nat ((endDate - startDate) / msPerDay + 1).

Definition findAvailableTimeSlots (provider : Provider) (startDate endDate : Z)
    (workingHours : WorkingHours) (bufferTime : Q) (calendarId : string)
    : list TimeSlot * Console :=
  findSlotsFrom (daysInRange startDate endDate) provider startDate endDate
    workingHours bufferTime calendarId.

Definition phaseName (p : Phase) : string :=
  match p with
  | Incubation => "準備"
  | Design => "設計"
  | Implementation => "実装"
  | Improvement => "改善"
  end.

(** The work list of [scheduleTask]: phases with their remaining minutes. *)
Definition PhaseWork : Type := Phase * Q.

Definition totalWork (ps : list PhaseWork) : Q :=
  fold_left (fun sum p => sum + snd p)%Q ps 0%Q.

(** The [while (remainingPhases.length > 0 && remainingSlotTime >= 30)] loop
    inside one slot.  Every iteration either finishes a phase or allocates
    at least 30 minutes, so the iterations number at most the phases plus
    the half hours of the remaining work: [fuelFor] of the work list is
    enough fuel (see [fillSlot_fuel]). *)
Definition fuelFor (ps : list PhaseWork) : nat :=
  (length ps + Z.to_nat (Qfloor (totalWork ps / 30)) + 1)%nat.

Fixpoint fillSlot (fuel : nat) (task : Task) (now : Z) (bufferTime : Q)
    (remainingPhases : list PhaseWork) (slotStart : Z) (remainingSlotTime : Q)
    : list CalendarEvent * list PhaseWork :=
  match fuel with
  | O => ([], remainingPhases)
  | S fuel' =>
      match remainingPhases with
      | [] => ([], [])
      | (ph, d) :: rest =>
          if Qle_bool 30 remainingSlotTime then
            let timeToAllocate := Qmin d remainingSlotTime in
            let eventStart := slotStart in
            let eventEnd :=
              newDate (inject_Z slotStart + timeToAllocate * 60 * 1000) in
            let event :=
              {| ev_id := task_id task +:+ "-" +:+ phaseName ph +:+ "-" +:+ pretty now;
                 ev_taskId := task_id task;
                 phase := ph;
                 startTime := eventStart;
                 endTime := eventEnd;
                 googleEventId := None |} in
            let d' := (d - timeToAllocate)%Q in
            let remainingPhases := if Qle_bool d' 0 then rest else (ph, d') :: rest in
            let '(events, remaining) :=
              fillSlot fuel' task now bufferTime remainingPhases
                (newDate (inject_Z eventEnd + bufferTime * 60 * 1000))
                (remainingSlotTime - (timeToAllocate + bufferTime)) in
            (event :: events, remaining)
          else ([], remainingPhases)
      end
  end.

(** The [for (const slot of availableSlots)] loop. *)
Fixpoint fillSlots (task : Task) (now : Z) (bufferTime : Q)
    (availableSlots : list TimeSlot) (remainingPhases : list PhaseWork)
    : list CalendarEvent * list PhaseWork :=
  match availableSlots with
  | [] => ([], remainingPhases)
  | slot :: slots =>
      match remainingPhases with
      | [] => ([], [])
      | _ :: _ =>
          let '(events, remaining) :=
            fillSlot (fuelFor remainingPhases) task now bufferTime
              remainingPhases (slot_start slot) (inject_Z (duration slot)) in
          let '(events', remaining') :=
            fillSlots task now bufferTime slots remaining in
          (events ++ events', remaining')
      end
  end.

Inductive ScheduleError :=
  | MissingDueDate
  | NotEnoughTime (totalRemainingTime : Q) (totalAvailableTime : Z).

Inductive Outcome :=
  | Scheduled (events : list CalendarEvent)
  | Thrown (error : ScheduleError).

Definition phasesOf (estimation : TaskEstimation) : list PhaseWork :=
  List.map (fun p => (fst p, inject_Z (snd p)))
    (filter (fun p : Phase * Z => 0 < snd p)
       [ (Incubation, incubation (phases estimation));
         (Design, design (phases estimation));
         (Implementation, implementation (phases estimation));
         (Improvement, improvement (phases estimation)) ]).

(** [scheduleTask]; [now] is the clock read by [new Date()]. *)
Definition scheduleTask (provider : Provider) (now : Z) (task : Task)
    (estimation : TaskEstimation) (workingHours : WorkingHours)
    (bufferTime : Q) (calendarId : string) : Outcome :=
  match dueDate task with
  | None => Thrown MissingDueDate
  | Some due =>
      let phases := phasesOf estimation in
      let '(availableSlots, _) :=
        findAvailableTimeSlots provider now due workingHours bufferTime calendarId in
      let '(scheduledEvents, remainingPhases) :=
        fillSlots task now bufferTime availableSlots phases in
      match remainingPhases with
      | [] => Scheduled scheduledEvents
      | _ :: _ =>
          Thrown (NotEnoughTime
                    (totalWork remainingPhases)
                    (fold_left (fun sum slot => sum + duration slot) availableSlots 0))
      end
  end.

(** The position of a phase in the fixed sequence. *)
Definition phaseRank (p : Phase) : Z :=
  match p with
  | Incubation => 0
  | Design => 1
  | Implementation => 2
  | Improvement => 3
  end.



(** [getNextAvailableSlot]: the first slot of the coming week that is long
    enough, or [None] for [null]. *)
Definition getNextAvailableSlot (provider : Provider) (now : Z) (minutes : Z)
    (workingHours : WorkingHours) (bufferTime : Q) (calendarId : string)
    : option TimeSlot :=
  let oneWeekLater := now + 7 * 24 * 60 * 60 * 1000 in
  let '(availableSlots, _) :=
    findAvailableTimeSlots provider now oneWeekLater workingHours bufferTime calendarId in
  List.find (fun slot => minutes <=? duration slot) availableSlots.

End Scheduler.

(** ** realtimeScheduler *)

Module RealtimeScheduler.

(** The instants of a task's blocks are [Date] objects when the blocks were
    made in this session, and ISO strings when the task was read back with
    [JSON.parse], which revives no date. *)
Inductive DateForm := DateObjects | IsoStrings.

(** How a call that may throw completes. *)
Inductive Completion (A : Type) :=
  | Returned (a : A)
  | Threw.

Arguments Returned {A} a.
Arguments Threw {A}.

(** The arguments of one awaited [scheduleTask]: the task, with the form of
    its blocks' instants, the estimation, the working hours and the buffer.
    The relaxed scheduler halves the buffer, so the buffer is a rational. *)
Record SchedCall := mkCall {
  call_form : DateForm;
  call_task : Task;
  call_estimation : TaskEstimation;
  call_workingHours : WorkingHours;
  call_bufferTime : Q
}.

(** What an awaited [scheduleTask] answers: the blocks, or [None] when it
    throws.  The answer depends on the calendar and the clock at the time of
    the call, which is rendered by letting it depend on the calls awaited
    before it. *)
Definition Allocator := list SchedCall -> SchedCall -> option (list CalendarEvent).

(** A registered listener: [true] when it returns, [false] when it throws. *)
Definition Listener := ReschedulingEvent -> bool.

(** The scheduler object and the part of the world it acts on.
    [eventListeners] keeps the insertion order of the [Map];
    [calls] are the allocator calls awaited so far, [delivered] the listener
    invocations made so far, [console] the lines written so far, all oldest
    first. *)
Record State := mkState {
  reschedulingInProgress : bool;
  eventListeners : list (string * Listener);
  storage : LocalStorage;
  calls : list SchedCall;
  delivered : list (string * ReschedulingEvent);
  console : list (LogLevel * string)
}.

Definition withCalls (st : State) (w : list SchedCall) : State :=
  {| reschedulingInProgress := reschedulingInProgress st;
     eventListeners := eventListeners st;
     storage := storage st;
     calls := w;
     delivered := delivered st;
     console := console st |}.

Definition withStorage (st : State) (s : LocalStorage) : State :=
  {| reschedulingInProgress := reschedulingInProgress st;
     eventListeners := eventListeners st;
     storage := s;
     calls := calls st;
     delivered := delivered st;
     console := console st |}.

Definition withInProgress (st : State) (b : bool) : State :=
  {| reschedulingInProgress := b;
     eventListeners := eventListeners st;
     storage := storage st;
     calls := calls st;
     delivered := delivered st;
     console := console st |}.

Definition logLine (st : State) (level : LogLevel) (msg : string) : State :=
  {| reschedulingInProgress := reschedulingInProgress st;
     eventListeners := eventListeners st;
     storage := storage st;
     calls := calls st;
     delivered := delivered st;
     console := console st ++ [(level, msg)] |}.

(** A computation of the scheduler: it awaits allocator calls and writes to
    the console. *)
Definition M (A : Type) : Type := State -> A * State.

Definition ret {A : Type} (a : A) : M A := fun st => (a, st).

Definition bind {A B : Type} (m : M A) (k : A -> M B) : M B :=
  fun st => let '(a, st') := m st in k a st'.

Notation "'await' x <- m 'in' k" := (bind m (fun x => k))
  (at level 10, x name, m at level 100, k at level 200).

(** [console.log], [console.warn] and [console.error] with the text of
    their first argument. *)
Definition log (level : LogLevel) (msg : string) : M unit :=
  fun st => (tt, logLine st level msg).

Definition msPerDay : Z := 24 * 60 * 60 * 1000.

Definition hasEvents (task : Task) : bool :=
  match calendarEvents task with
  | Some (_ :: _) => true
  | _ => false
  end.

Definition setCalendarEvents (task : Task) (evs : option (list CalendarEvent)) : Task :=
  {| task_id := task_id task; title := title task; description := description task;
     status := status task; project := project task; keywords := keywords task;
     priority := priority task; dueDate := dueDate task;
     notificationTime := notificationTime task; createdAt := createdAt task;
     updatedAt := updatedAt task; estimation := estimation task;
     actualTime := actualTime task;
     calendarEvents := evs;
     scheduledStartDate := scheduledStartDate task;
     scheduledEndDate := scheduledEndDate task;
     lastRescheduled := lastRescheduled task;
     reschedulingHistory := reschedulingHistory task;
     workspace := workspace task |}.

Definition setDueDate (task : Task) (due : option Z) : Task :=
  {| task_id := task_id task; title := title task; description := description task;
     status := status task; project := project task; keywords := keywords task;
     priority := priority task; dueDate := due;
     notificationTime := notificationTime task; createdAt := createdAt task;
     updatedAt := updatedAt task; estimation := estimation task;
     actualTime := actualTime task;
     calendarEvents := calendarEvents task;
     scheduledStartDate := scheduledStartDate task;
     scheduledEndDate := scheduledEndDate task;
     lastRescheduled := lastRescheduled task;
     reschedulingHistory := reschedulingHistory task;
     workspace := workspace task |}.

(** [getTaskSchedule].  [Array.prototype.sort] sorts the task's own array in
    place, so the task comes back with its events sorted.  The comparator
    calls [getTime] on the two instants it is given: on ISO strings it
    throws, at the first comparison, which a sort of two or more blocks
    makes; a single block is never compared. *)
Definition getTaskSchedule (form : DateForm) (task : Task)
    : Completion (option Window) * Task :=
  match calendarEvents task with
  | None => (Returned None, task)
  | Some [] => (Returned None, task)
  | Some (e :: evs) =>
      match form, evs with
      | IsoStrings, _ :: _ => (Threw, task)
      | _, _ =>
          let sortedEvents := sortBy startTime (e :: evs) in
          (Returned (Some {| win_start := startTime (List.hd e sortedEvents);
                             win_end := endTime (List.last sortedEvents e) |}),
           setCalendarEvents task (Some sortedEvents))
      end
  end.

(** The scheduler's own [estimateTaskTime]. *)
Definition estimateTaskTime (task : Task) : TaskEstimation :=
  match estimation task with
  | Some e => e
  | None =>
      let baseTime := 60 in
      let adjustedTime :=
        floorTimes baseTime (LearningEngine.priorityMultiplier (priority task)) in
      {| phases := {| incubation := floorTimes adjustedTime 0.2;
                      design := floorTimes adjustedTime 0.3;
                      implementation := floorTimes adjustedTime 0.4;
                      improvement := floorTimes adjustedTime 0.1 |};
         total := adjustedTime;
         confidence := 0.7 |}
  end.

Definition getDefaultWorkingHours : WorkingHours :=
  let weekday := mkDayConfig (mkTimeOfDay 9 0) (mkTimeOfDay 18 0) true in
  let weekend := mkDayConfig (mkTimeOfDay 10 0) (mkTimeOfDay 16 0) false in
  {| monday := weekday; tuesday := weekday; wednesday := weekday;
     thursday := weekday; friday := weekday;
     saturday := weekend; sunday := weekend |}.

(** The estimation of the third relaxation: every phase and the total
    multiplied by 0.7 and floored, in the arithmetic of the code (for 90
    minutes the product is 62.99999999999999 and the result 62). *)
Definition reducedEstimation (estimation : TaskEstimation) : TaskEstimation :=
  {| phases :=
       {| incubation := floorTimes (incubation (phases estimation)) 0.7;
          design := floorTimes (design (phases estimation)) 0.7;
          implementation := floorTimes (implementation (phases estimation)) 0.7;
          improvement := floorTimes (improvement (phases estimation)) 0.7 |};
     total := floorTimes (total estimation) 0.7;
     confidence := confidence estimation |}.

(** The buffer of the second relaxation: [Math.max(5, bufferTime / 2)]. *)
Definition reducedBufferTime (bufferTime : Q) : Q := Qmax 5 (bufferTime / 2).

Definition saveReschedulingEvent (event : ReschedulingEvent) (s : LocalStorage)
    : LocalStorage :=
  let events := default [] (familytasks_rescheduling_events s) ++ [event] in
  {| familytasks_task_history := familytasks_task_history s;
     familytasks_learning_data := familytasks_learning_data s;
     familytasks_rescheduling_events := Some (keepLast 100 events);
     familytasks_tasks := familytasks_tasks s;
     familytasks_user_settings := familytasks_user_settings s |}.

(** The filter of [getAffectedTasks]: a task that is not done and owns a
    block mirrored as the changed provider event. *)
Definition isAffected (eventId : string) (task : Task) : bool :=
  match calendarEvents task with
  | Some evs =>
      existsb (fun event =>
                 match googleEventId event with
                 | Some g => String.eqb g eventId
                 | None => false
                 end) evs
      && match status task with Done => false | _ => true end
  | None => false
  end.

(** [getAffectedTasks]: the affected tasks among those [JSON.parse] reads
    from storage, so the instants of their blocks are ISO strings. *)
Definition getAffectedTasks (eventId : string) (s : LocalStorage)
    : DateForm * list Task :=
  match familytasks_tasks s with
  | None => (IsoStrings, [])
  | Some tasks => (IsoStrings, List.filter (isAffected eventId) tasks)
  end.

(** The task as updated after a successful rescheduling. *)
Definition applySchedule (task : Task) (newCalendarEvents : list CalendarEvent)
    (newSchedule : Window) (now : Z) (eventId : string) : Task :=
  {| task_id := task_id task; title := title task; description := description task;
     status := status task; project := project task; keywords := keywords task;
     priority := priority task; dueDate := dueDate task;
     notificationTime := notificationTime task; createdAt := createdAt task;
     updatedAt := updatedAt task; estimation := estimation task;
     actualTime := actualTime task;
     calendarEvents := Some newCalendarEvents;
     scheduledStartDate := Some (win_start newSchedule);
     scheduledEndDate := Some (win_end newSchedule);
     lastRescheduled := Some now;
     reschedulingHistory := Some (default [] (reschedulingHistory task) ++ [eventId]);
     workspace := workspace task |}.

(** Whether two windows differ in their start or end instant. *)
Definition windowsDiffer (a b : Window) : bool :=
  negb (win_start a =? win_start b) || negb (win_end a =? win_end b).

(** [addEventListener] is [Map.prototype.set]: the listener of a key that is
    already present is replaced where it stands, a new key goes to the end. *)
Fixpoint setListener (id : string) (listener : Listener)
    (listeners : list (string * Listener)) : list (string * Listener) :=
  match listeners with
  | [] => [(id, listener)]
  | (k, l) :: listeners' =>
      if String.eqb k id then (id, listener) :: listeners'
      else (k, l) :: setListener id listener listeners'
  end.

(** [removeEventListener] is [Map.prototype.delete]. *)
Fixpoint deleteListener (id : string) (listeners : list (string * Listener))
    : list (string * Listener) :=
  match listeners with
  | [] => []
  | (k, l) :: listeners' =>
      if String.eqb k id then listeners' else (k, l) :: deleteListener id listeners'
  end.

Definition addEventListener (id : string) (listener : Listener) (st : State) : State :=
  {| reschedulingInProgress := reschedulingInProgress st;
     eventListeners := setListener id listener (eventListeners st);
     storage := storage st;
     calls := calls st;
     delivered := delivered st;
     console := console st |}.

Definition removeEventListener (id : string) (st : State) : State :=
  {| reschedulingInProgress := reschedulingInProgress st;
     eventListeners := deleteListener id (eventListeners st);
     storage := storage st;
     calls := calls st;
     delivered := delivered st;
     console := console st |}.

Definition getReschedulingHistory (s : LocalStorage) : list ReschedulingEvent :=
  match familytasks_rescheduling_events s with
  | Some events => events
  | None => []
  end.



Section WithAllocator.

Variable scheduleTask : Allocator.

(** [await scheduleTask(task, estimation, workingHours, bufferTime)]. *)
Definition awaitScheduleTask (form : DateForm) (task : Task)
    (estimation : TaskEstimation) (workingHours : WorkingHours) (bufferTime : Q)
    : M (option (list CalendarEvent)) :=
  fun st =>
    let c := mkCall form task estimation workingHours bufferTime in
    (scheduleTask (calls st) c, withCalls st (calls st ++ [c])).

(** [scheduleTaskWithRelaxedConstraints]; [None] is the final [throw].  The
    lines that report a failed attempt end with the message of the error
    thrown by [scheduleTask], which is left out here. *)
Definition scheduleTaskWithRelaxedConstraints (form : DateForm) (task : Task)
    (estimation : TaskEstimation) (workingHours : WorkingHours) (bufferTime : Q)
    : M (option (list CalendarEvent)) :=
  await _ <- log LogInfo ("Attempting relaxed scheduling for: " +:+ title task) in
  await extended <-
    match dueDate task with
    | Some originalDueDate =>
        let extendedDueDate := originalDueDate + 7 * msPerDay in
        let taskWithExtendedDue := setDueDate task (Some extendedDueDate) in
        await events <-
          awaitScheduleTask form taskWithExtendedDue estimation workingHours
            bufferTime in
        match events with
        | Some events =>
            await _ <-
              log LogInfo
                ("Successfully scheduled with extended due date: " +:+ title task) in
            ret (Some events)
        | None =>
            await _ <- log LogInfo "Extended due date scheduling also failed: " in
            ret None
        end
    | None => ret None
    end in
  match extended with
  | Some events => ret (Some events)
  | None =>
      await reduced <-
        awaitScheduleTask form task estimation workingHours
          (reducedBufferTime bufferTime) in
      match reduced with
      | Some events =>
          await _ <-
            log LogInfo
              ("Successfully scheduled with reduced buffer time: " +:+ title task) in
          ret (Some events)
      | None =>
          await _ <- log LogInfo "Reduced buffer time scheduling also failed: " in
          await shorter <-
            awaitScheduleTask form task (reducedEstimation estimation) workingHours
              bufferTime in
          match shorter with
          | Some events =>
              await _ <-
                log LogInfo
                  ("Successfully scheduled with reduced duration: " +:+ title task) in
              ret (Some events)
          | None =>
              await _ <- log LogInfo "Reduced duration scheduling also failed: " in
              ret None
          end
      end
  end.

(** The allocation step of the loop body: the strict attempt and, for a task
    without blocks, the relaxed attempts.  [None] is a [continue]. *)
Definition allocate (form : DateForm) (task : Task) (estimation : TaskEstimation)
    (workingHours : WorkingHours) (bufferTime : Q)
    : M (option (list CalendarEvent)) :=
  await strict <- awaitScheduleTask form task estimation workingHours bufferTime in
  match strict with
  | Some events => ret (Some events)
  | None =>
      await _ <- log LogWarn ("Cannot reschedule task " +:+ title task +:+ ": ") in
      if hasEvents task
      then
        await _ <-
          log LogInfo ("Keeping original schedule for task: " +:+ title task) in
        ret None
      else
        await _ <-
          log LogInfo ("Attempting relaxed scheduling for task: " +:+ title task) in
        await relaxed <-
          scheduleTaskWithRelaxedConstraints form task estimation workingHours
            bufferTime in
        match relaxed with
        | Some events => ret (Some events)
        | None =>
            await _ <-
              log LogError
                ("Even relaxed scheduling failed for " +:+ title task +:+ ":") in
            ret None
        end
  end.

(** The body of the loop over the affected tasks, on the task and the
    [changes] of the event under construction.  Whatever throws inside the
    body is caught by the body's own [catch], which logs and leaves the task
    as it is: [getTaskSchedule] on two or more blocks with string instants,
    and [oldSchedule.start.getTime()] on a window of string instants once
    the allocator has returned blocks. *)
Definition rescheduleOne (form : DateForm) (eventId : string) (now : Z)
    (workingHours : WorkingHours) (bufferTime : Q) (task : Task)
    (changes : list Change) : M (Task * list Change) :=
  match getTaskSchedule form task with
  | (Threw, task) =>
      await _ <- log LogError ("Failed to reschedule task " +:+ title task +:+ ":") in
      ret (task, changes)
  | (Returned oldSchedule, task) =>
      let estimation := estimateTaskTime task in
      await newCalendarEvents <-
        allocate form task estimation workingHours bufferTime in
      match newCalendarEvents with
      | Some (first :: rest) =>
          let newSchedule :=
            {| win_start := startTime first;
               win_end := endTime (List.last (first :: rest) first) |} in
          match oldSchedule, form with
          | Some _, IsoStrings =>
              await _ <-
                log LogError ("Failed to reschedule task " +:+ title task +:+ ":") in
              ret (task, changes)
          | _, _ =>
              let changes :=
                match oldSchedule with
                | Some old =>
                    if windowsDiffer old newSchedule
                    then changes ++ [mkChange (task_id task) old newSchedule]
                    else changes
                | None => changes
                end in
              await _ <- log LogInfo ("Rescheduled task: " +:+ title task) in
              ret (applySchedule task (first :: rest) newSchedule now eventId, changes)
          end
      | Some [] =>
          await _ <-
            log LogWarn
              ("No schedule found for task: " +:+ title task
               +:+ ", keeping original if exists") in
          ret (task, changes)
      | None => ret (task, changes)
      end
  end.

Fixpoint rescheduleLoop (formOf : Task -> DateForm) (eventId : string) (now : Z)
    (workingHours : WorkingHours) (bufferTime : Q) (tasks : list Task)
    (changes : list Change) : M (list Task * list Change) :=
  match tasks with
  | [] => ret ([], changes)
  | task :: tasks' =>
      await r <-
        rescheduleOne (formOf task) eventId now workingHours bufferTime task changes in
      await r' <-
        rescheduleLoop formOf eventId now workingHours bufferTime tasks' (snd r) in
      ret (fst r :: fst r', snd r')
  end.

(** [rescheduleAffectedTasks]: the event, and the tasks as mutated.
    [formOf] tells of each task in which form its blocks hold their
    instants. *)
Definition rescheduleAffectedTasks (formOf : Task -> DateForm) (tasks : list Task)
    (triggeredBy : Trigger) (workingHours : option WorkingHours) (bufferTime : Q)
    (now : Z) (st : State) : (ReschedulingEvent * list Task) * State :=
  let st :=
    logLine st LogInfo
      ("Rescheduling " +:+ pretty (length tasks) +:+ " affected tasks") in
  let eventId := pretty now in
  let finalWorkingHours :=
    match workingHours with
    | Some wh => wh
    | None =>
        match familytasks_user_settings (storage st) with
        | Some userSettings => settings_workingHours userSettings
        | None => getDefaultWorkingHours
        end
    end in
  let '((tasks', changes), st) :=
    rescheduleLoop formOf eventId now finalWorkingHours bufferTime tasks [] st in
  let reschedulingEvent :=
    {| re_id := eventId;
       triggeredBy := triggeredBy;
       affectedTasks := List.map task_id tasks;
       re_timestamp := now;
       changes := changes |} in
  let st := withStorage st (saveReschedulingEvent reschedulingEvent (storage st)) in
  ((reschedulingEvent, tasks'), st).

(** [notifyListeners]: every listener is called, in registration order; a
    listener that throws is logged and does not stop the others. *)
Definition notifyListeners (event : ReschedulingEvent) (st : State) : State :=
  fold_left
    (fun (st : State) (l : string * Listener) =>
       let st :=
         {| reschedulingInProgress := reschedulingInProgress st;
            eventListeners := eventListeners st;
            storage := storage st;
            calls := calls st;
            delivered := delivered st ++ [(fst l, event)];
            console := console st |} in
       if snd l event then st
       else logLine st LogError "Error in rescheduling event listener:")
    (eventListeners st) st.

Inductive ChangeKind := created | updated | deleted.

Definition kindName (eventType : ChangeKind) : string :=
  match eventType with
  | created => "created"
  | updated => "updated"
  | deleted => "deleted"
  end.

(** The synchronous prefix of [handleCalendarChange], up to its first
    [await]: [None] when the call returns at once because a pass is in
    progress, otherwise the state with the flag set. *)
Definition enterCalendarChange (eventType : ChangeKind) (eventId : string)
    (st : State) : option State :=
  if reschedulingInProgress st then None
  else
    Some (withInProgress
            (logLine st LogInfo
               ("Calendar change detected: " +:+ kindName eventType
                +:+ " - " +:+ eventId))
            true).

(** The rest of [handleCalendarChange], from the first [await] through the
    [finally] block. *)
Definition completeCalendarChange (eventId : string) (now : Z) (st : State) : State :=
  let '(form, affectedTasks) := getAffectedTasks eventId (storage st) in
  let st :=
    match affectedTasks with
    | [] => logLine st LogInfo "No affected tasks found for calendar change"
    | _ :: _ =>
        let '((reschedulingEvent, _), st) :=
          rescheduleAffectedTasks (fun _ => form) affectedTasks calendar_change None 15
            now st in
        notifyListeners reschedulingEvent st
    end in
  withInProgress st false.

(** [handleCalendarChange], run without interruption. *)
Definition handleCalendarChange (eventType : ChangeKind) (eventId calendarId : string)
    (now : Z) (st : State) : State :=
  match enterCalendarChange eventType eventId st with
  | None => logLine st LogInfo "Rescheduling already in progress, skipping..."
  | Some st => completeCalendarChange eventId now st
  end.

(** *** Interleaving of asynchronous passes

    JavaScript runs each asynchronous function without interruption between
    two [await]s.  A process is the scheduler state together with the passes
    that have started and are suspended at an [await].  A pass is started
    either by [handleCalendarChange] or by the manual trigger of the
    synchronisation hook, which calls [rescheduleAffectedTasks] directly.
    The effects of a pass on storage and listeners take place when it
    resumes and runs to its end. *)
Inductive Activation :=
  | CalendarPass (eventId : string)
  | ManualPass (formOf : Task -> DateForm) (tasks : list Task)
      (workingHours : WorkingHours).

Record Process := mkProcess {
  scheduler : State;
  inFlight : list Activation
}.

Inductive Action :=
  | CalendarTrigger (eventType : ChangeKind) (eventId : string)
  | ManualTrigger (formOf : Task -> DateForm) (tasks : list Task)
      (workingHours : WorkingHours)
  | Resume (i : nat) (now : Z).

Definition isCalendarPass (a : Activation) : bool :=
  match a with CalendarPass _ => true | ManualPass _ _ _ => false end.

(** One atomic step of the process; [None] when the action is not enabled.
    A trigger runs the called function up to its first [await]; [Resume i]
    lets the [i]-th suspended pass run to its end. *)
Definition step (a : Action) (p : Process) : option Process :=
  match a with
  | CalendarTrigger eventType eventId =>
      match enterCalendarChange eventType eventId (scheduler p) with
      | None =>
          Some {| scheduler :=
                    logLine (scheduler p) LogInfo
                      "Rescheduling already in progress, skipping...";
                  inFlight := inFlight p |}
      | Some st =>
          Some {| scheduler := st; inFlight := CalendarPass eventId :: inFlight p |}
      end
  | ManualTrigger formOf tasks wh =>
      Some {| scheduler := scheduler p;
              inFlight := ManualPass formOf tasks wh :: inFlight p |}
  | Resume i now =>
      match inFlight p !! i with
      | Some (CalendarPass eventId) =>
          Some {| scheduler := completeCalendarChange eventId now (scheduler p);
                  inFlight := delete i (inFlight p) |}
      | Some (ManualPass formOf tasks wh) =>
          Some {| scheduler :=
                    snd (rescheduleAffectedTasks formOf tasks manual_adjustment
                           (Some wh) 15 now (scheduler p));
                  inFlight := delete i (inFlight p) |}
      | None => None
      end
  end.

Fixpoint run (actions : list Action) (p : Process) : option Process :=
  match actions with
  | [] => Some p
  | a :: actions' =>
      match step a p with
      | Some p' => run actions' p'
      | None => None
      end
  end.

(** The number of passes in flight that [handleCalendarChange] started. *)
Definition calendarPasses (p : Process) : nat :=
  length (List.filter isCalendarPass (inFlight p)).

(** A process that starts idle. *)
Definition idle (st : State) : Process :=
  {| scheduler := withInProgress st false; inFlight := [] |}.

End WithAllocator.

End RealtimeScheduler.

(** ** useRealTimeSync

    The parts of the synchronisation hook that compute on tasks and events;
    the React state around them is not modelled. *)

Module RealTimeSync.

(** The task the hook puts in place of one named by a change. *)
Definition applyChange (task : Task) (change : Change) (event : ReschedulingEvent)
    : Task :=
  {| task_id := task_id task; title := title task; description := description task;
     status := status task; project := project task; keywords := keywords task;
     priority := priority task; dueDate := dueDate task;
     notificationTime := notificationTime task; createdAt := createdAt task;
     updatedAt := updatedAt task; estimation := estimation task;
     actualTime := actualTime task;
     calendarEvents := calendarEvents task;
     scheduledStartDate := Some (win_start (newSchedule change));
     scheduledEndDate := Some (win_end (newSchedule change));
     lastRescheduled := Some (re_timestamp event);
     reschedulingHistory :=
       Some (default [] (reschedulingHistory task) ++ [re_id event]);
     workspace := workspace task |}.

(** The list [applyRescheduling] hands to [onTasksUpdate]. *)
Definition applyRescheduling (tasks : list Task) (event : ReschedulingEvent)
    : list Task :=
  List.map
    (fun task =>
       match List.find (fun c => String.eqb (ch_taskId c) (task_id task))
               (changes event) with
       | Some change => applyChange task change event
       | None => task
       end)
    tasks.

(** The tasks [triggerReschedulingCheck] passes to the rescheduler. *)
Definition tasksNeedingReschedule (tasks : list Task) : list Task :=
  List.filter
    (fun task =>
       match status task with Done => false | _ => true end
       && RealtimeScheduler.hasEvents task)
    tasks.

(** The call of [triggerReschedulingCheck] into the rescheduler, run to its
    end: the event handed on to [handleReschedulingEvent], if any, and the
    state of the scheduler.  The tasks are those of the component, and
    [formOf] tells how each holds the instants of its blocks: the
    application revives the dates of a task it reloads, but not those of its
    blocks, while the blocks made in the session hold [Date] objects. *)
Definition triggerReschedulingCheck (scheduleTask : RealtimeScheduler.Allocator)
    (formOf : Task -> RealtimeScheduler.DateForm) (tasks : list Task)
    (workingHours : WorkingHours) (now : Z) (st : RealtimeScheduler.State)
    : option ReschedulingEvent * RealtimeScheduler.State :=
  match tasksNeedingReschedule tasks with
  | [] => (None, st)
  | t :: ts =>
      let '((event, _), st) :=
        RealtimeScheduler.rescheduleAffectedTasks scheduleTask formOf (t :: ts)
          manual_adjustment (Some workingHours) 15 now st in
      match changes event with
      | [] => (None, st)
      | _ :: _ => (Some event, st)
      end
  end.

End RealTimeSync.

(** ** webhookHandler *)

Module WebhookHandler.

(** A webhook event as it arrives at run time: four strings, the empty
    string being falsy. *)
Record WebhookEvent := mkWebhookEvent {
  eventType : string;
  eventId : string;
  calendarId : string;
  timestamp : string
}.

(** A payload whose fields, if present, are strings. *)
Record Payload := mkPayload {
  payload_eventType : option string;
  payload_eventId : option string;
  payload_calendarId : option string;
  payload_timestamp : option string
}.

(** [x || d] on an optional string. *)
Definition orElse (x : option string) (d : string) : string :=
  match x with
  | Some (String c s) => String c s
  | _ => d
  end.

Definition truthy (s : string) : bool :=
  match s with EmptyString => false | String _ _ => true end.

Definition validateWebhookEvent (event : WebhookEvent) : bool :=
  truthy (eventType event) && truthy (eventId event)
  && truthy (calendarId event) && truthy (timestamp event).

(** [parseWebhookPayload]; [nowISO] is [new Date().toISOString()]. *)
Definition parseWebhookPayload (payload : Payload) (nowISO : string) : WebhookEvent :=
  {| eventType := orElse (payload_eventType payload) "updated";
     eventId := orElse (payload_eventId payload) "unknown";
     calendarId := orElse (payload_calendarId payload) "primary";
     timestamp := orElse (payload_timestamp payload) nowISO |}.

(** The [switch] on the event type. *)
Definition changeKind (eventType : string) : option RealtimeScheduler.ChangeKind :=
  if String.eqb eventType "created" then Some RealtimeScheduler.created
  else if String.eqb eventType "updated" then Some RealtimeScheduler.updated
  else if String.eqb eventType "deleted" then Some RealtimeScheduler.deleted
  else None.

(** [handleWebhookEvent], acting on the scheduler; the handler's own console
    lines are left out. *)
Definition handleWebhookEvent (scheduleTask : RealtimeScheduler.Allocator)
    (event : WebhookEvent) (now : Z) (st : RealtimeScheduler.State)
    : RealtimeScheduler.State :=
  if validateWebhookEvent event then
    match changeKind (eventType event) with
    | Some kind =>
        RealtimeScheduler.handleCalendarChange scheduleTask kind
          (eventId event) (calendarId event) now st
    | None => st
    end
  else st.

Definition processWebhookPayload (scheduleTask : RealtimeScheduler.Allocator)
    (payload : Payload) (nowISO : string) (now : Z) (st : RealtimeScheduler.State)
    : RealtimeScheduler.State :=
  handleWebhookEvent scheduleTask (parseWebhookPayload payload nowISO) now st.

End WebhookHandler.

(** ** Predicates of the specification *)






(** The window of freshly allocated blocks: the start of the first and the
    end of the last one. *)
Definition newWindow (blocks : list CalendarEvent) : option Window :=
  match blocks with
  | [] => None
  | first :: rest =>
      Some {| win_start := startTime first;
              win_end := endTime (List.last (first :: rest) first) |}
  end.

(** The task after an allocation that returned [blocks]. *)
Definition rescheduled (task : Task) (blocks : list CalendarEvent) (now : Z)
    (eventId : string) : Task :=
  match newWindow blocks with
  | Some w => RealtimeScheduler.applySchedule task blocks w now eventId
  | None => task
  end.

(** The two windows of a change entry differ in their start or their end. *)
Definition differs (c : Change) : Prop :=
  win_start (oldSchedule c) <> win_start (newSchedule c)
  \/ win_end (oldSchedule c) <> win_end (newSchedule c).

(** A list is in non-decreasing order of its keys. *)
Fixpoint ascending {A : Type} (key : A -> Z) (l : list A) : Prop :=
  match l with
  | [] => True
  | x :: l' => Forall (fun y => key x <= key y) l' /\ ascending key l'
  end.

(** A time of day lies within its day. *)
Definition validTime (t : TimeOfDay) : Prop :=
  0 <= hour t * 60 + minute t <= 24 * 60.

Definition validWorkingHours (wh : WorkingHours) : Prop :=
  forall k,
    validTime (day_start (Scheduler.dayConfig wh k))
    /\ validTime (day_end (Scheduler.dayConfig wh k)).

(** The provider answers a query for a window with events that meet the
    window and do not end before they start. *)
Definition meetsWindow (provider : Scheduler.Provider) : Prop :=
  forall calendarId a b items ev s e,
    provider calendarId a b = Some items ->
    In ev items ->
    Scheduler.raw_start ev = Some s -> Scheduler.raw_end ev = Some e ->
    s <= e /\ a <= e /\ s <= b.

(** The part of a slot the allocator can use ends here. *)
Definition usableEnd (s : Scheduler.TimeSlot) : Z :=
  Scheduler.slot_start s + Z.max 0 (Scheduler.duration s) * Scheduler.msPerMinute.

(** Slots follow one another between [lo] and [hi]: each starts no earlier
    than the usable end of the one before. *)
Fixpoint slotsChain (lo : Z) (slots : list Scheduler.TimeSlot) (hi : Z) : Prop :=
  match slots with
  | [] => lo <= hi
  | s :: slots' => lo <= Scheduler.slot_start s /\ slotsChain (usableEnd s) slots' hi
  end.

(** Blocks of positive duration follow one another between [lo] and [hi]. *)
Fixpoint blocksChain (lo : Z) (evs : list CalendarEvent) (hi : Z) : Prop :=
  match evs with
  | [] => lo <= hi
  | e :: evs' =>
      lo <= startTime e /\ startTime e < endTime e /\ blocksChain (endTime e) evs' hi
  end.

(** A number of minutes that is a whole number of half minutes.  The
    buffers the application passes are of this kind: the whole minutes of
    the user settings, and half of them in the relaxed scheduler.  On such
    numbers the arithmetic of the allocator is exact in doubles as well. *)
Definition halfMinutes (q : Q) : Prop := exists n : Z, (q == inject_Z n / 2)%Q.

(** Every entry of a work list has minutes left. *)
Definition allPositive (ps : list Scheduler.PhaseWork) : Prop :=
  Forall (fun p => (0 < snd p)%Q) ps.

(** Every entry of a work list is a whole number of half minutes. *)
Definition allHalves (ps : list Scheduler.PhaseWork) : Prop :=
  Forall (fun p => halfMinutes (snd p)) ps.

(** The bound on the iterations of the loop inside a slot: the phases of the
    work list plus the half hours of its minutes. *)
Definition iterations (ps : list Scheduler.PhaseWork) : nat :=
  (length ps + Z.to_nat (Qfloor (Scheduler.totalWork ps / 30)))%nat.

(** Blocks in the order of a list follow one another: a later block starts
    no earlier than an earlier one ends, and after it started, its phase
    comes no earlier in the fixed sequence, and every block ends after it
    starts. *)
Definition inSequence (blocks : list CalendarEvent) : Prop :=
  (forall (i j : nat) bi bj,
      (i < j)%nat -> blocks !! i = Some bi -> blocks !! j = Some bj ->
      endTime bi <= startTime bj
      /\ startTime bi < startTime bj
      /\ Scheduler.phaseRank (phase bi) <= Scheduler.phaseRank (phase bj))
  /\ (forall b, In b blocks -> startTime b < endTime b).

(** The ranks of the phases of blocks followed by those of a work list. *)
Definition ranks (evs : list CalendarEvent) (ps : list Scheduler.PhaseWork) : list Z :=
  List.map (fun e => Scheduler.phaseRank (phase e)) evs
  ++ List.map (fun p => Scheduler.phaseRank (fst p)) ps.

(** The state of the loop over the busy intervals: the slots found so far
    end before [m], which is no later than the cursor, than the end of any
    interval still to come (plus the buffer), and than the end of the day. *)
Definition gapInv (bufferTime : Q) (dayStart dayEnd : Z)
    (remaining : list Scheduler.Busy) (st : Z * list Scheduler.TimeSlot) : Prop :=
  exists m,
    slotsChain dayStart (snd st) m
    /\ m <= fst st
    /\ Forall (fun e =>
                 m <= Scheduler.newDate
                        (inject_Z (Scheduler.busy_end e) + bufferTime * 60 * 1000))
         remaining
    /\ m <= Z.max dayStart dayEnd.

(** The work list after one iteration of the loop inside a slot. *)
Definition afterAllocation (ph : Phase) (d t : Q) (rest : list Scheduler.PhaseWork)
    : list Scheduler.PhaseWork :=
  if Qle_bool (d - t) 0 then rest else (ph, (d - t)%Q) :: rest.

(** The guard is set exactly while a pass of [handleCalendarChange] is in
    flight. *)
Definition guarded (p : RealtimeScheduler.Process) : Prop :=
  (RealtimeScheduler.reschedulingInProgress (RealtimeScheduler.scheduler p) = true
   /\ RealtimeScheduler.calendarPasses p = 1%nat)
  \/ (RealtimeScheduler.reschedulingInProgress (RealtimeScheduler.scheduler p) = false
      /\ RealtimeScheduler.calendarPasses p = 0%nat).

(** ** Sample inputs *)

(** A task of the test-suite, with a chosen priority and no project, keyword
    or title match: its category is the generic one. *)
Definition plainTask (p : Priority) : Task :=
  {| task_id := "task-1"; title := "Test Task"; description := None;
     status := Todo; project := None; keywords := []; priority := p;
     dueDate := None; notificationTime := None; createdAt := 0; updatedAt := 0;
     estimation := None; actualTime := None; calendarEvents := None;
     scheduledStartDate := None; scheduledEndDate := None;
     lastRescheduled := None; reschedulingHistory := None; workspace := None |}.

(** The learning engine before anything was recorded. *)
Definition emptyEngine : LearningEngine.State :=
  {| LearningEngine.learningData := ∅;
     LearningEngine.storage := mkLocalStorage None None None None None |}.

(** A block for the examples: only its phase and instants matter. *)
Definition block (p : Phase) (s e : Z) : CalendarEvent :=
  {| ev_id := "b"; ev_taskId := "task-1"; phase := p;
     startTime := s; endTime := e; googleEventId := None |}.

(** A task with a deadline, and the same task holding one mirrored block. *)
Definition dueTask (due : Z) : Task :=
  RealtimeScheduler.setDueDate (plainTask Prio2) (Some due).

Definition scheduledTask (due : Z) : Task :=
  RealtimeScheduler.setCalendarEvents (dueTask due)
    (Some [ {| ev_id := "event-1"; ev_taskId := "task-1"; phase := Implementation;
               startTime := 36000000; endTime := 39600000;
               googleEventId := Some "google-event-1" |} ]).

(** An allocator that never finds room. *)
Definition noRoom : RealtimeScheduler.Allocator := fun _ _ => None.

(** An allocator that always returns the same single block. *)
Definition roomLater : RealtimeScheduler.Allocator :=
  fun _ _ => Some [block Implementation 90000000 93600000].

(** A scheduler with no listener and nothing stored. *)
Definition freshScheduler : RealtimeScheduler.State :=
  {| RealtimeScheduler.reschedulingInProgress := false;
     RealtimeScheduler.eventListeners := [];
     RealtimeScheduler.storage := mkLocalStorage None None None None None;
     RealtimeScheduler.calls := [];
     RealtimeScheduler.delivered := [];
     RealtimeScheduler.console := [] |}.

(** Monday 1 January 2024, 00:00 UTC, and an instant of that day. *)
Definition monday0 : Z := 1704067200000.
Definition at_ (h m : Z) : Z := monday0 + (h * 60 + m) * Scheduler.msPerMinute.

(** A provider with an empty calendar, one that is unreachable, and one with
    a single meeting on that Monday from 10:00 to 11:00. *)
Definition freeCalendar : Scheduler.Provider := fun _ _ _ => Some [].
Definition unreachable : Scheduler.Provider := fun _ _ _ => None.
Definition oneMeeting : Scheduler.Provider :=
  fun _ a b =>
    if (a <=? at_ 11 0) && (at_ 10 0 <=? b)
    then Some [ Scheduler.mkRawEvent (Some (at_ 10 0)) (Some (at_ 11 0)) ]
    else Some [].

(** A provider that answers every window with a meeting of that Monday from
    8:00 to 9:00, working hours whose Monday runs to 40:00 (16:00 on
    Tuesday), and an estimation of two phases of 270 minutes. *)
Definition staleAnswer : Scheduler.Provider :=
  fun _ _ _ => Some [ Scheduler.mkRawEvent (Some (at_ 8 0)) (Some (at_ 9 0)) ].

Definition longMonday : WorkingHours :=
  let weekday := mkDayConfig (mkTimeOfDay 9 0) (mkTimeOfDay 18 0) true in
  let weekend := mkDayConfig (mkTimeOfDay 10 0) (mkTimeOfDay 16 0) false in
  {| monday := mkDayConfig (mkTimeOfDay 9 0) (mkTimeOfDay 40 0) true;
     tuesday := weekday; wednesday := weekday;
     thursday := weekday; friday := weekday;
     saturday := weekend; sunday := weekend |}.

Definition twoLongPhases : TaskEstimation :=
  {| phases := mkPerPhase 270 270 0 0; total := 540; confidence := 0.7 |}.

(** An estimation whose first phase takes 1850 minutes. *)
Definition longWork : TaskEstimation :=
  {| phases := mkPerPhase 1850 60 0 0; total := 1910; confidence := 0.7 |}.

(** Saturday 6 January 2024 at noon, and the Sunday after it. *)
Definition saturdayNoon : Z := at_ (5 * 24 + 12) 0.
Definition sundayNoon : Z := at_ (6 * 24 + 12) 0.

(** The allocator of the scheduler module on a free calendar, with the clock
    at Saturday noon. *)
Definition weekendAllocator : RealtimeScheduler.Allocator :=
  fun _ c =>
    match Scheduler.scheduleTask freeCalendar saturdayNoon
            (RealtimeScheduler.call_task c) (RealtimeScheduler.call_estimation c)
            (RealtimeScheduler.call_workingHours c)
            (RealtimeScheduler.call_bufferTime c) "primary" with
    | Scheduler.Scheduled events => Some events
    | Scheduler.Thrown _ => None
    end.

(** ** Invariants of the learning store *)

(** The four entries of a record of minutes are non-negative. *)
Definition nonNegative (a : PerPhase Z) : Prop :=
  0 <= incubation a /\ 0 <= design a /\ 0 <= implementation a /\ 0 <= improvement a.




(** The numbers of a learning record lie in the unit interval: its accuracy,
    its two rates and each of its phase fractions. *)
Definition inUnitRange (ld : LearningData) : Prop :=
  let cp := commonPatterns ld in
  let pd := phaseDistribution cp in
  (0 <= estimationAccuracy ld <= 1
   /\ 0 <= underestimationRate cp <= 1 /\ 0 <= overestimationRate cp <= 1
   /\ 0 <= incubation pd <= 1 /\ 0 <= design pd <= 1
   /\ 0 <= implementation pd <= 1 /\ 0 <= improvement pd <= 1)%Q.

(** Every record of the map is stored under its own [taskType]. *)
Definition keyed (learning : gmap string LearningData) : Prop :=
  forall k ld, learning !! k = Some ld -> taskType ld = k.

(** ** Measures of the allocator *)

Definition samePhase (p q : Phase) : bool :=
  Scheduler.phaseRank p =? Scheduler.phaseRank q.

(** The minutes a block lasts. *)
Definition blockMinutes (b : CalendarEvent) : Q :=
  inject_Z (endTime b - startTime b) / inject_Z Scheduler.msPerMinute.

(** The minutes the blocks of a list give to a phase. *)
Definition minutesOf (p : Phase) (blocks : list CalendarEvent) : Q :=
  fold_right
    (fun b sum => if samePhase (phase b) p then (blockMinutes b + sum)%Q else sum)
    0%Q blocks.

(** The minutes a work list still holds for a phase. *)
Definition workOf (p : Phase) (ps : list Scheduler.PhaseWork) : Q :=
  fold_right (fun w sum => if samePhase (fst w) p then (snd w + sum)%Q else sum)
    0%Q ps.

(** The minutes an estimation gives to a phase. *)
Definition estimated (e : TaskEstimation) (p : Phase) : Z :=
  match p with
  | Incubation => incubation (phases e)
  | Design => design (phases e)
  | Implementation => implementation (phases e)
  | Improvement => improvement (phases e)
  end.

(** A block made by the allocator for a task: it carries the task's id and
    lasts a positive whole number of half minutes. *)
Definition blockOf (task : Task) (b : CalendarEvent) : Prop :=
  ev_taskId b = task_id task
  /\ startTime b < endTime b
  /\ halfMinutes (blockMinutes b).

(** A slot keeps clear of a busy interval, the buffer included. *)
Definition clearOf (bufferTime : Q) (slot : Scheduler.TimeSlot) (s e : Z) : Prop :=
  (inject_Z (Scheduler.slot_end slot) + bufferTime * 60 * 1000 <= inject_Z s
   \/ inject_Z e + bufferTime * 60 * 1000 <= inject_Z (Scheduler.slot_start slot))%Q.

(** Among the timed events of an answer, one that starts no later than
    another also ends no later.  Events that do not overlap are of this
    kind; an event nested inside another is not. *)
Definition endsFollowStarts (items : list Scheduler.RawEvent) : Prop :=
  forall a b sa ea sb eb,
    In a items -> In b items ->
    Scheduler.raw_start a = Some sa -> Scheduler.raw_end a = Some ea ->
    Scheduler.raw_start b = Some sb -> Scheduler.raw_end b = Some eb ->
    sa <= sb -> ea <= eb.

(** A slot cut out of a day by the loop over the busy intervals: at least
    30 whole minutes between its two instants. *)
Definition wellCut (slot : Scheduler.TimeSlot) : Prop :=
  30 <= Scheduler.duration slot
  /\ Scheduler.duration slot
     = (Scheduler.slot_end slot - Scheduler.slot_start slot) / (60 * 1000)
  /\ Scheduler.slot_start slot < Scheduler.slot_end slot.

(** ** Measures of a rescheduling pass *)

(** The strict allocator call of the loop body for a task: the task as
    [getTaskSchedule] left it, its estimation, and the hours and buffer of
    the pass. *)
Definition strictCall (form : RealtimeScheduler.DateForm) (wh : WorkingHours)
    (buf : Q) (task : Task) : RealtimeScheduler.SchedCall :=
  let t := snd (RealtimeScheduler.getTaskSchedule form task) in
  RealtimeScheduler.mkCall form t (RealtimeScheduler.estimateTaskTime t) wh buf.

(** The working hours a pass uses when it is given none. *)
Definition hoursOf (s : LocalStorage) : WorkingHours :=
  match familytasks_user_settings s with
  | Some userSettings => settings_workingHours userSettings
  | None => RealtimeScheduler.getDefaultWorkingHours
  end.

(** The state in which the loop of a pass over [tasks] starts: the pass has
    written its first line. *)
Definition passStart (tasks : list Task) (st : RealtimeScheduler.State)
    : RealtimeScheduler.State :=
  RealtimeScheduler.logLine st LogInfo
    ("Rescheduling " +:+ pretty (length tasks) +:+ " affected tasks").



(** The entries the loop body appends for a task with the given old window
    and answer of the allocation step. *)
Definition entryOf (form : RealtimeScheduler.DateForm) (id : string)
    (old : option Window) (answer : option (list CalendarEvent)) : list Change :=
  match form, old, answer ≫= newWindow with
  | RealtimeScheduler.DateObjects, Some o, Some n =>
      if RealtimeScheduler.windowsDiffer o n then [mkChange id o n] else []
  | _, _, _ => []
  end.

(** Whether the loop body gets as far as the allocator for a task: it does
    unless [getTaskSchedule] throws. *)
Definition reachesAllocator (form : RealtimeScheduler.DateForm) (task : Task) : bool :=
  match fst (RealtimeScheduler.getTaskSchedule form task) with
  | RealtimeScheduler.Returned _ => true
  | RealtimeScheduler.Threw => false
  end.

(** A step of the scheduler leaves the flag, the listeners, the storage and
    the deliveries as they were, and adds to the awaited calls and to the
    console. *)
Definition extends (st st' : RealtimeScheduler.State) : Prop :=
  RealtimeScheduler.reschedulingInProgress st' = RealtimeScheduler.reschedulingInProgress st
  /\ RealtimeScheduler.eventListeners st' = RealtimeScheduler.eventListeners st
  /\ RealtimeScheduler.storage st' = RealtimeScheduler.storage st
  /\ RealtimeScheduler.delivered st' = RealtimeScheduler.delivered st
  /\ (exists cs, RealtimeScheduler.calls st' = RealtimeScheduler.calls st ++ cs)
  /\ (exists lines, RealtimeScheduler.console st' = RealtimeScheduler.console st ++ lines).

(** The deliveries of an event to a list of listeners, in order. *)
Definition deliveries (event : ReschedulingEvent)
    (listeners : list (string * RealtimeScheduler.Listener))
    : list (string * ReschedulingEvent) :=
  List.map (fun l => (fst l, event)) listeners.

(** The listeners registered under another key than [id]. *)
Definition others (id : string) (listeners : list (string * RealtimeScheduler.Listener))
    : list (string * RealtimeScheduler.Listener) :=
  List.filter (fun l => negb (String.eqb (fst l) id)) listeners.

(** Two states of the scheduler agree on everything but the console. *)
Definition sameButConsole (a b : RealtimeScheduler.State) : Prop :=
  RealtimeScheduler.reschedulingInProgress a = RealtimeScheduler.reschedulingInProgress b
  /\ RealtimeScheduler.eventListeners a = RealtimeScheduler.eventListeners b
  /\ RealtimeScheduler.storage a = RealtimeScheduler.storage b
  /\ RealtimeScheduler.calls a = RealtimeScheduler.calls b
  /\ RealtimeScheduler.delivered a = RealtimeScheduler.delivered b.

(** A task after a pass that found no room for it: its schedule fields are
    untouched and its blocks are the same, sorted by their start when they
    hold [Date] objects and as they were when they hold strings. *)
Definition keptSchedule (form : RealtimeScheduler.DateForm) (t t' : Task) : Prop :=
  task_id t' = task_id t
  /\ status t' = status t
  /\ dueDate t' = dueDate t
  /\ estimation t' = estimation t
  /\ scheduledStartDate t' = scheduledStartDate t
  /\ scheduledEndDate t' = scheduledEndDate t
  /\ lastRescheduled t' = lastRescheduled t
  /\ reschedulingHistory t' = reschedulingHistory t
  /\ match calendarEvents t, calendarEvents t' with
     | Some blocks, Some blocks' =>
         match form with
         | RealtimeScheduler.DateObjects =>
             Permutation blocks blocks' /\ ascending startTime blocks'
         | RealtimeScheduler.IsoStrings => blocks' = blocks
         end
     | None, None => True
     | _, _ => False
     end.

(** The console lines of the listeners that threw on an event. *)
Definition listenerErrors (event : ReschedulingEvent)
    (listeners : list (string * RealtimeScheduler.Listener))
    : list (LogLevel * string) :=
  List.map (fun _ => (LogError, "Error in rescheduling event listener:"))
    (List.filter (fun l => negb (snd l event)) listeners).

(** ** Further sample inputs *)

(** A learning store holding the initial record of the generic category,
    and the engine after one recording on the empty engine. *)
Definition oneRecord : gmap string LearningData :=
  {[ "その他" := LearningEngine.createInitialLearningData "default" "その他" 0 ]}.

Definition learnedOnce : LearningEngine.State :=
  snd (LearningEngine.recordActualTime (plainTask Prio2) (mkPerPhase 30 30 30 30)
         "user_manual" 0 emptyEngine).

(** An estimation of ten hours, more than one working day holds. *)
Definition tenHours : TaskEstimation :=
  {| phases := mkPerPhase 150 150 150 150; total := 600; confidence := 0.7 |}.

(** A listener that returns and one that throws. *)
Definition quiet : RealtimeScheduler.Listener := fun _ => true.
Definition faulty : RealtimeScheduler.Listener := fun _ => false.

(** A scheduler with two listeners whose storage holds one task with a block
    mirrored as "google-event-1", and the same scheduler during a pass. *)
Definition watchedScheduler : RealtimeScheduler.State :=
  {| RealtimeScheduler.reschedulingInProgress := false;
     RealtimeScheduler.eventListeners := [("sync", quiet); ("audit", faulty)];
     RealtimeScheduler.storage :=
       mkLocalStorage None None None (Some [scheduledTask (at_ 13 0)]) None;
     RealtimeScheduler.calls := [];
     RealtimeScheduler.delivered := [];
     RealtimeScheduler.console := [] |}.

Definition busyScheduler : RealtimeScheduler.State :=
  RealtimeScheduler.withInProgress watchedScheduler true.

(** A second task, holding two blocks of which the first is mirrored as
    "google-event-1", and a scheduler whose storage holds both tasks. *)
Definition twoBlockTask : Task :=
  {| task_id := "task-2"; title := "Second Task"; description := None;
     status := Todo; project := None; keywords := []; priority := Prio2;
     dueDate := Some (at_ 13 0); notificationTime := None; createdAt := 0;
     updatedAt := 0; estimation := None; actualTime := None;
     calendarEvents :=
       Some [ {| ev_id := "event-2"; ev_taskId := "task-2"; phase := Design;
                 startTime := 36000000; endTime := 39600000;
                 googleEventId := Some "google-event-1" |};
              {| ev_id := "event-3"; ev_taskId := "task-2"; phase := Implementation;
                 startTime := 43200000; endTime := 46800000;
                 googleEventId := None |} ];
     scheduledStartDate := None; scheduledEndDate := None;
     lastRescheduled := None; reschedulingHistory := None; workspace := None |}.

Definition crowdedScheduler : RealtimeScheduler.State :=
  RealtimeScheduler.withStorage watchedScheduler
    (mkLocalStorage None None None
       (Some [scheduledTask (at_ 13 0); twoBlockTask]) None).

(** A payload that names only the changed event. *)
Definition barePayload : WebhookHandler.Payload :=
  WebhookHandler.mkPayload None (Some "google-event-1") None None.

(** An engine whose map holds the initial record of the generic category. *)
Definition seededEngine : LearningEngine.State :=
  {| LearningEngine.learningData := oneRecord;
     LearningEngine.storage := mkLocalStorage None None None None None |}.

(** An event without changes, for the examples on listeners. *)
Definition quietEvent : ReschedulingEvent :=
  {| re_id := "0"; triggeredBy := calendar_change; affectedTasks := ["task-1"];
     re_timestamp := 0; changes := [] |}.

(** * Properties *)

(** ** Sorting *)

Section SortFacts.

Context {A : Type} (key : A -> Z).

Lemma insertBy_perm (x : A) (l : list A) : Permutation (x :: l) (insertBy key x l).
Proof.
  induction l as [| y l IH]; cbn.
  - reflexivity.
  - destruct (key x <=? key y).
    + reflexivity.
    + rewrite perm_swap. apply perm_skip. exact IH.
Qed.

Lemma sortBy_perm (l : list A) : Permutation l (sortBy key l).
Proof.
  induction l as [| x l IH]; cbn.
  - reflexivity.
  - rewrite <- insertBy_perm. apply perm_skip. exact IH.
Qed.

Lemma insertBy_ascending (x : A) (l : list A) :
  ascending key l -> ascending key (insertBy key x l).
Proof.
  induction l as [| y l IH]; cbn; intros Hl.
  - split; [constructor | exact I].
  - destruct Hl as [Hy Hl]. destruct (Z.leb_spec (key x) (key y)) as [Hxy | Hxy].
    + cbn. repeat split; auto.
      constructor; [exact Hxy |].
      eapply Forall_impl; [exact Hy |]. cbn. intros; lia.
    + cbn. split; [| apply IH; exact Hl].
      eapply Permutation_Forall; [apply insertBy_perm |].
      constructor; [lia | exact Hy].
Qed.

Lemma sortBy_ascending (l : list A) : ascending key (sortBy key l).
Proof.
  induction l as [| x l IH]; cbn.
  - exact I.
  - apply insertBy_ascending. exact IH.
Qed.


Lemma ascending_last_ge (l : list A) (x : A) :
  ascending key (l ++ [x]) -> forall y, In y (l ++ [x]) -> key y <= key x.
Proof.
  induction l as [| z l IH]; cbn; intros Hl y Hy.
  - destruct Hy as [<- | []]. lia.
  - destruct Hl as [Hz Hl]. destruct Hy as [<- | Hy].
    + rewrite Forall_forall in Hz. apply Hz.
      apply list_elem_of_In, in_or_app. right. left. reflexivity.
    + apply IH; assumption.
Qed.




End SortFacts.

(** ** Instants and numbers of minutes *)

Section NumberFacts.

Import Scheduler.

Lemma newDate_exact (q : Q) (n : Z) : (q == inject_Z n)%Q -> newDate q = n.
Proof.
  intros H. unfold newDate.
  destruct (Qle_bool 0 q).
  - rewrite (Qfloor_comp _ _ H). apply Qfloor_Z.
  - rewrite (Qceiling_comp _ _ H). apply Qceiling_Z.
Qed.

Lemma newDate_inject (n : Z) : newDate (inject_Z n) = n.
Proof. apply newDate_exact. reflexivity. Qed.

(** Dropping the fraction keeps an instant on its side of a whole one. *)
Lemma newDate_ge (n : Z) (q : Q) : (inject_Z n <= q)%Q -> n <= newDate q.
Proof.
  intros H. unfold newDate. destruct (Qle_bool 0 q).
  - rewrite <- (Qfloor_Z n). apply Qfloor_resp_le. exact H.
  - rewrite <- (Qceiling_Z n). apply Qceiling_resp_le. exact H.
Qed.

Lemma newDate_le (n : Z) (q : Q) : (q <= inject_Z n)%Q -> newDate q <= n.
Proof.
  intros H. unfold newDate. destruct (Qle_bool 0 q).
  - rewrite <- (Qfloor_Z n). apply Qfloor_resp_le. exact H.
  - rewrite <- (Qceiling_Z n). apply Qceiling_resp_le. exact H.
Qed.

Lemma halfMinutes_inject (n : Z) : halfMinutes (inject_Z n).
Proof.
  exists (2 * n). rewrite inject_Z_mult. field.
Qed.

Lemma halfMinutes_eq (p q : Q) : (p == q)%Q -> halfMinutes p -> halfMinutes q.
Proof. intros H [n Hn]. exists n. rewrite <- H. exact Hn. Qed.

Lemma halfMinutes_plus (p q : Q) :
  halfMinutes p -> halfMinutes q -> halfMinutes (p + q).
Proof.
  intros [n Hn] [m Hm]. exists (n + m). rewrite inject_Z_plus, Hn, Hm. field.
Qed.

Lemma halfMinutes_minus (p q : Q) :
  halfMinutes p -> halfMinutes q -> halfMinutes (p - q).
Proof.
  intros [n Hn] [m Hm]. exists (n - m).
  unfold Z.sub. rewrite inject_Z_plus, inject_Z_opp, Hn, Hm. field.
Qed.

Lemma halfMinutes_min (p q : Q) :
  halfMinutes p -> halfMinutes q -> halfMinutes (Qmin p q).
Proof.
  intros Hp Hq. destruct (Q.min_spec p q) as [[_ H] | [_ H]];
    eapply halfMinutes_eq; try (symmetry; exact H); assumption.
Qed.

(** A whole number of half minutes is a whole number of milliseconds. *)
Lemma halfMinutes_ms (q : Q) :
  halfMinutes q -> exists n : Z, (q * 60 * 1000 == inject_Z n)%Q.
Proof.
  intros [n Hn]. exists (n * 30000). rewrite inject_Z_mult, Hn. field.
Qed.

(** Moving an instant by a whole number of half minutes is exact. *)
Lemma newDate_plus (s : Z) (q : Q) :
  halfMinutes q ->
  (inject_Z (newDate (inject_Z s + q * 60 * 1000)) == inject_Z s + q * 60 * 1000)%Q.
Proof.
  intros H. destruct (halfMinutes_ms q H) as [n Hn].
  rewrite (newDate_exact _ (s + n)).
  - rewrite inject_Z_plus, Hn. reflexivity.
  - rewrite inject_Z_plus, Hn. reflexivity.
Qed.

Lemma newDate_minus (s : Z) (q : Q) :
  halfMinutes q ->
  (inject_Z (newDate (inject_Z s - q * 60 * 1000)) == inject_Z s - q * 60 * 1000)%Q.
Proof.
  intros H. destruct (halfMinutes_ms q H) as [n Hn].
  rewrite (newDate_exact _ (s - n)).
  - unfold Z.sub. rewrite inject_Z_plus, inject_Z_opp, Hn. reflexivity.
  - unfold Z.sub. rewrite inject_Z_plus, inject_Z_opp, Hn. reflexivity.
Qed.

End NumberFacts.

(** ** Rounding to doubles *)

Section DoubleFacts.






End DoubleFacts.


(** ** Estimator and learning store *)

Section LearningEngineFacts.

Import LearningEngine.


(** Without a record, the phases are those of the 60 minute default
    whatever the priority, while the total follows the priority. *)
Lemma getImprovedEstimation_unlearned (learning : gmap string LearningData)
    (task : Task) :
  learning !! classifyTask task = None ->
  phaseSum (getImprovedEstimation learning task) = 60
  /\ total (getImprovedEstimation learning task)
     = match priority task with Prio3 => 90 | Prio1 => 42 | Prio2 => 60 end.
Proof.
  intros Hld. unfold getImprovedEstimation. rewrite Hld.
  destruct (priority task); vm_compute; auto.
Qed.

(** C1, at the failing input: a task of priority 3 whose category has no
    learning record gets phases 12, 18, 24 and 6, which add up to 60, under
    a total of 90.  The sum of the phases is not the total. *)
Theorem getImprovedEstimation_priority3_sum_mismatch :
  let e := getImprovedEstimation ∅ (plainTask Prio3) in
  phases e = mkPerPhase 12 18 24 6 /\ phaseSum e = 60 /\ total e = 90
  /\ phaseSum e <> total e.
Proof. vm_compute. repeat split; congruence. Qed.

Lemma updateLearningData_lookup (task : Task) (history : TaskHistory) (now : Z)
    (st : State) :
  learningData (updateLearningData task history now st) !! classifyTask task
  = Some (updateRecord (recordFor (learningData st) (classifyTask task) now) history now).
Proof. unfold updateLearningData. cbn. apply lookup_insert_eq. Qed.









Lemma fraction_nonneg (a total : Z) :
  0 <= a -> 0 < total -> (0 <= inject_Z a / inject_Z total)%Q.
Proof.
  intros Ha Ht. apply Qle_shift_div_l.
  - rewrite <- (Zlt_Qlt 0). exact Ht.
  - rewrite Qmult_0_l. rewrite <- (Zle_Qle 0). exact Ha.
Qed.





Lemma keepLast_length {A : Type} (n : nat) (l : list A) :
  length (keepLast n l) = Nat.min n (length l).
Proof.
  unfold keepLast. destruct (Nat.ltb_spec n (length l)).
  - rewrite length_drop. lia.
  - lia.
Qed.

Lemma keepLast_suffix {A : Type} (n : nat) (l : list A) :
  exists dropped, l = dropped ++ keepLast n l.
Proof.
  unfold keepLast. destruct (n <? length l)%nat.
  - exists (take (length l - n) l). symmetry. apply take_drop.
  - exists []. reflexivity.
Qed.

Lemma keepLast_last {A : Type} (n : nat) (l : list A) (x : A) :
  (0 < n)%nat -> last (keepLast n (l ++ [x])) = Some x.
Proof.
  intros Hn. unfold keepLast. destruct (Nat.ltb_spec n (length (l ++ [x]))).
  - rewrite length_app in *. cbn [length] in *.
    rewrite drop_app_le by lia. apply last_snoc.
  - apply last_snoc.
Qed.

(** C10: [recordActualTime] sets [actualTime] to the given record and
    changes no other field of the task, the estimation included; the history
    entry carries the given record, and the persisted history is the old one
    with the entry appended, cut down to its last 1000 entries. *)
Theorem recordActualTime_frame_and_history (task : Task) (actual : PerPhase Z)
    (reason : string) (now : Z) (st : State) :
  let task' := fst (recordActualTime task actual reason now st) in
  let st' := snd (recordActualTime task actual reason now st) in
  let entry := historyEntry task actual reason now in
  let old := default [] (familytasks_task_history (storage st)) in
  (actualTime task' = Some actual
   /\ estimation task' = estimation task
   /\ task_id task' = task_id task /\ title task' = title task
   /\ description task' = description task /\ status task' = status task
   /\ project task' = project task /\ keywords task' = keywords task
   /\ priority task' = priority task /\ dueDate task' = dueDate task
   /\ notificationTime task' = notificationTime task
   /\ createdAt task' = createdAt task /\ updatedAt task' = updatedAt task
   /\ calendarEvents task' = calendarEvents task
   /\ scheduledStartDate task' = scheduledStartDate task
   /\ scheduledEndDate task' = scheduledEndDate task
   /\ lastRescheduled task' = lastRescheduled task
   /\ reschedulingHistory task' = reschedulingHistory task
   /\ workspace task' = workspace task)
  /\ h_actualTime entry = actual
  /\ originalEstimation entry = default getDefaultEstimation (estimation task)
  /\ exists histories,
       familytasks_task_history (storage st') = Some histories
       /\ last histories = Some entry
       /\ (exists dropped, old ++ [entry] = dropped ++ histories)
       /\ length histories = Nat.min 1000 (length old + 1).
Proof.
  intros task' st' entry old. split; [| split; [| split]].
  - unfold task', recordActualTime. cbn. repeat split; reflexivity.
  - reflexivity.
  - reflexivity.
  - exists (keepLast 1000 (old ++ [entry])). split; [| split; [| split]].
    + reflexivity.
    + apply keepLast_last. lia.
    + apply keepLast_suffix.
    + rewrite keepLast_length, length_app. cbn [length]. reflexivity.
Qed.

End LearningEngineFacts.

(** ** Availability finder and allocator *)

Section SchedulerFacts.

Import Scheduler.

Lemma slotsChain_le (slots : list TimeSlot) :
  forall lo hi, slotsChain lo slots hi -> lo <= hi.
Proof.
  induction slots as [| s slots IH]; cbn; intros lo hi H; [exact H |].
  destruct H as [Hlo H]. apply IH in H. unfold usableEnd, msPerMinute in H. lia.
Qed.

Lemma slotsChain_weaken (slots : list TimeSlot) :
  forall lo lo' hi hi',
    lo' <= lo -> hi <= hi' -> slotsChain lo slots hi -> slotsChain lo' slots hi'.
Proof.
  induction slots as [| s slots IH]; cbn; intros lo lo' hi hi' Hlo Hhi H.
  - lia.
  - destruct H as [H1 H2]. split; [lia |]. eapply IH; [| exact Hhi | exact H2]. lia.
Qed.

Lemma slotsChain_app (l1 l2 : list TimeSlot) :
  forall lo mid hi,
    slotsChain lo l1 mid -> slotsChain mid l2 hi -> slotsChain lo (l1 ++ l2) hi.
Proof.
  induction l1 as [| s l1 IH]; cbn; intros lo mid hi H1 H2.
  - eapply slotsChain_weaken; [exact H1 | | exact H2]. lia.
  - destruct H1 as [Hlo H1]. split; [exact Hlo |]. eapply IH; eassumption.
Qed.

Lemma slotsChain_snoc (l : list TimeSlot) (s : TimeSlot) (lo mid hi : Z) :
  slotsChain lo l mid -> mid <= slot_start s -> usableEnd s <= hi ->
  slotsChain lo (l ++ [s]) hi.
Proof.
  intros H1 H2 H3. eapply slotsChain_app; [exact H1 |]. cbn. split; assumption.
Qed.

Lemma floor_minutes (x : Z) : (x / (60 * 1000)) * msPerMinute <= x.
Proof.
  unfold msPerMinute. pose proof (Z.mul_div_le x (60 * 1000)). lia.
Qed.

(** A slot cut from [cur] to [stop] with its floored length stays within
    its bounds. *)
Lemma cut_usableEnd (cur stop : Z) :
  cur <= stop ->
  usableEnd (mkTimeSlot cur stop ((stop - cur) / (60 * 1000))) <= stop.
Proof.
  intros H. unfold usableEnd. cbn [slot_start duration].
  pose proof (floor_minutes (stop - cur)).
  assert (0 <= (stop - cur) / (60 * 1000)) by (apply Z.div_pos; lia).
  lia.
Qed.

Lemma gapStep_inv (bufferTime : Q) (dayStart dayEnd : Z) (e : Busy)
    (remaining : list Busy) (st : Z * list TimeSlot) :
  (0 <= bufferTime)%Q ->
  busy_start e <= busy_end e -> busy_start e <= dayEnd ->
  Forall (fun e' => busy_start e <= busy_start e' /\ busy_start e' <= busy_end e') remaining ->
  gapInv bufferTime dayStart dayEnd (e :: remaining) st ->
  gapInv bufferTime dayStart dayEnd remaining (gapStep bufferTime st e).
Proof.
  intros Hbuf Hse Hday Hrem [m [Hchain [Hcur [Hends Hm]]]].
  destruct st as [cur slots]. cbn [fst snd] in *.
  inversion Hends as [| ? ? He Hends']; subst.
  unfold gapStep.
  assert (Hkeep : gapInv bufferTime dayStart dayEnd remaining
                    (newDate (inject_Z (busy_end e) + bufferTime * 60 * 1000), slots)).
  { exists m. cbn [fst snd]. repeat split; assumption. }
  destruct (Z.ltb_spec cur (busy_start e)) as [Hlt |]; [| exact Hkeep].
  assert (Hstop : newDate (inject_Z (busy_start e) - bufferTime * 60 * 1000)
                  <= busy_start e) by (apply newDate_le; lra).
  assert (Hnext : forall e' : Busy,
             busy_end e' <= newDate (inject_Z (busy_end e') + bufferTime * 60 * 1000))
    by (intros e'; apply newDate_ge; lra).
  set (stop := newDate (inject_Z (busy_start e) - bufferTime * 60 * 1000)) in *.
  destruct (Z.ltb_spec cur stop) as [Hlt' |]; [| exact Hkeep].
  destruct (Z.leb_spec 30 ((stop - cur) / (60 * 1000))); [| exact Hkeep].
  exists stop. cbn [fst snd]. repeat split.
  - eapply slotsChain_snoc; [exact Hchain | exact Hcur |].
    apply cut_usableEnd. lia.
  - pose proof (Hnext e). lia.
  - rewrite Forall_forall in Hrem |- *. intros e' He'.
    destruct (Hrem e' He'). pose proof (Hnext e'). lia.
  - lia.
Qed.

Lemma gapLoop_inv (bufferTime : Q) (dayStart dayEnd : Z) (events : list Busy) :
  forall st,
    (0 <= bufferTime)%Q ->
    ascending busy_start events ->
    Forall (fun e => busy_start e <= busy_end e /\ busy_start e <= dayEnd) events ->
    gapInv bufferTime dayStart dayEnd events st ->
    gapInv bufferTime dayStart dayEnd []
      (fold_left (gapStep bufferTime) events st).
Proof.
  induction events as [| e events IH]; cbn [fold_left]; intros st Hbuf Hasc Hev Hinv.
  - exact Hinv.
  - destruct Hasc as [Hle Hasc]. inversion Hev as [| ? ? [Hse Hd] Hev']; subst.
    apply IH; try assumption.
    apply gapStep_inv; try assumption.
    rewrite Forall_forall in Hle, Hev' |- *. intros e' He'.
    split; [apply Hle; exact He' | apply (Hev' e' He')].
Qed.

Lemma toBusy_meets (provider : Provider) (calendarId : string) (a b : Z)
    (items : list RawEvent) (e : Busy) :
  meetsWindow provider ->
  provider calendarId a b = Some items ->
  In e (sortBy busy_start (omap toBusy items)) ->
  busy_start e <= busy_end e /\ a <= busy_end e /\ busy_start e <= b.
Proof.
  intros Hmeets Hq He.
  eapply Permutation_in in He; [| symmetry; apply sortBy_perm].
  apply list_elem_of_In, list_elem_of_omap in He. destruct He as [raw [Hraw Hb]].
  unfold toBusy in Hb.
  destruct (raw_start raw) as [s |] eqn:Hs; [| discriminate].
  destruct (raw_end raw) as [t |] eqn:Ht; [| discriminate].
  inversion Hb; subst. cbn.
  eapply Hmeets; [exact Hq | apply list_elem_of_In; exact Hraw | exact Hs | exact Ht].
Qed.

(** The slots of one day follow one another inside the working window. *)
Lemma findDayAvailableSlots_chain (provider : Provider) (date : Z)
    (startTime endTime : TimeOfDay) (bufferTime : Q) (calendarId : string) :
  (0 <= bufferTime)%Q -> meetsWindow provider ->
  slotsChain (setHours date startTime)
    (fst (findDayAvailableSlots provider date startTime endTime bufferTime calendarId))
    (Z.max (setHours date startTime) (setHours date endTime)).
Proof.
  intros Hbuf Hmeets. unfold findDayAvailableSlots, getEvents.
  set (dayStart := setHours date startTime). set (dayEnd := setHours date endTime).
  destruct (provider calendarId dayStart dayEnd) as [items |] eqn:Hq.
  - set (sorted := sortBy busy_start (omap toBusy items)).
    assert (Hall : forall e, In e sorted ->
              busy_start e <= busy_end e /\ dayStart <= busy_end e /\ busy_start e <= dayEnd).
    { intros e He. eapply toBusy_meets; eassumption. }
    pose proof (gapLoop_inv bufferTime dayStart dayEnd sorted (dayStart, []) Hbuf
                  (sortBy_ascending busy_start _)) as Hloop.
    destruct (fold_left (gapStep bufferTime) sorted (dayStart, [])) as [cur slots].
    destruct Hloop as [m [Hchain [Hcur [_ Hm]]]].
    + rewrite Forall_forall. intros e He. apply list_elem_of_In in He.
      destruct (Hall e He). tauto.
    + exists dayStart. cbn [fst snd slotsChain]. repeat split; try lia.
      rewrite Forall_forall. intros e He. apply list_elem_of_In in He.
      destruct (Hall e He).
      assert (busy_end e <= newDate (inject_Z (busy_end e) + bufferTime * 60 * 1000))
        by (apply newDate_ge; lra).
      lia.
    + cbn [fst snd] in *.
      destruct (Z.ltb_spec cur dayEnd) as [Hlt |];
        [destruct (Z.leb_spec 30 ((dayEnd - cur) / (60 * 1000))) |].
      * eapply slotsChain_snoc; [exact Hchain | exact Hcur |].
        pose proof (cut_usableEnd cur dayEnd). lia.
      * eapply slotsChain_weaken; [| | exact Hchain]; lia.
      * eapply slotsChain_weaken; [| | exact Hchain]; lia.
  - cbn [fst slotsChain]. unfold usableEnd. cbn [slot_start duration].
    pose proof (floor_minutes (dayEnd - dayStart)).
    unfold msPerMinute in *. split; lia.
Qed.

Lemma setHours_bounds (date : Z) (t : TimeOfDay) :
  validTime t ->
  date - date mod msPerDay <= setHours date t <= date - date mod msPerDay + msPerDay.
Proof. unfold validTime, setHours, msPerDay, msPerMinute. lia. Qed.

Lemma startOfDay_next (date : Z) :
  (date + msPerDay) - (date + msPerDay) mod msPerDay
  = date - date mod msPerDay + msPerDay.
Proof.
  replace (date + msPerDay) with (date + 1 * msPerDay) by lia.
  rewrite Z.mod_add by (unfold msPerDay; lia). lia.
Qed.

(** The slots of the whole range follow one another, day after day. *)
Lemma findSlotsFrom_chain (provider : Provider) (endDate : Z) (wh : WorkingHours)
    (bufferTime : Q) (calendarId : string) (days : nat) :
  (0 <= bufferTime)%Q -> validWorkingHours wh -> meetsWindow provider ->
  forall currentDate,
    slotsChain (currentDate - currentDate mod msPerDay)
      (fst (findSlotsFrom days provider currentDate endDate wh bufferTime calendarId))
      (currentDate - currentDate mod msPerDay + Z.of_nat days * msPerDay).
Proof.
  intros Hbuf Hwh Hmeets. induction days as [| days IH]; intros cur.
  - cbn. lia.
  - cbn [findSlotsFrom].
    assert (Hday : 0 < msPerDay) by (unfold msPerDay; lia).
    destruct (cur <=? endDate); [| cbn; lia].
    specialize (IH (cur + msPerDay)). rewrite startOfDay_next in IH.
    destruct (findSlotsFrom days provider (cur + msPerDay) endDate wh bufferTime calendarId)
      as [rest log'].
    cbn [fst] in IH.
    destruct (Hwh (getDayOfWeek cur)) as [Hs He].
    pose proof (setHours_bounds cur _ Hs) as Hbs.
    pose proof (setHours_bounds cur _ He) as Hbe.
    destruct (enabled (dayConfig wh (getDayOfWeek cur))).
    + pose proof (findDayAvailableSlots_chain provider cur
                    (day_start (dayConfig wh (getDayOfWeek cur)))
                    (day_end (dayConfig wh (getDayOfWeek cur)))
                    bufferTime calendarId Hbuf Hmeets) as Hd.
      destruct (findDayAvailableSlots provider cur _ _ bufferTime calendarId)
        as [daySlots log].
      cbn [fst] in *.
      eapply slotsChain_app; [| eapply slotsChain_weaken; [| | exact IH]].
      * eapply slotsChain_weaken; [| | exact Hd]; [lia | reflexivity].
      * lia.
      * lia.
    + cbn [fst app]. eapply slotsChain_weaken; [| | exact IH]; lia.
Qed.

Lemma blocksChain_weaken (evs : list CalendarEvent) (lo lo' hi hi' : Z) :
  lo' <= lo -> hi <= hi' -> blocksChain lo evs hi -> blocksChain lo' evs hi'.
Proof.
  destruct evs as [| e evs]; cbn; [lia |]. intros Hlo Hhi [H1 [H2 H3]].
  repeat split; try lia. revert H3. generalize (endTime e). clear - Hhi.
  induction evs as [| e' evs IH]; cbn; intros lo H; [lia |].
  destruct H as [H1 [H2 H3]]. repeat split; auto.
Qed.

Lemma blocksChain_le (evs : list CalendarEvent) :
  forall lo hi, blocksChain lo evs hi -> lo <= hi.
Proof.
  induction evs as [| e evs IH]; cbn; intros lo hi H; [exact H |].
  destruct H as [H1 [H2 H3]]. apply IH in H3. lia.
Qed.

Lemma blocksChain_app (l1 l2 : list CalendarEvent) :
  forall lo mid hi,
    blocksChain lo l1 mid -> blocksChain mid l2 hi -> blocksChain lo (l1 ++ l2) hi.
Proof.
  induction l1 as [| e l1 IH]; cbn; intros lo mid hi H1 H2.
  - eapply blocksChain_weaken; [exact H1 | | exact H2]. lia.
  - destruct H1 as [Ha [Hb Hc]]. repeat split; auto. eapply IH; eassumption.
Qed.

Lemma blocksChain_In (evs : list CalendarEvent) :
  forall lo hi b,
    blocksChain lo evs hi -> In b evs ->
    lo <= startTime b /\ startTime b < endTime b /\ endTime b <= hi.
Proof.
  induction evs as [| e evs IH]; cbn; intros lo hi b H Hb; [destruct Hb |].
  destruct H as [H1 [H2 H3]]. destruct Hb as [<- | Hb].
  - apply blocksChain_le in H3. lia.
  - destruct (IH _ _ _ H3 Hb) as [Ha [Hc Hd]]. lia.
Qed.

Lemma blocksChain_lookup (evs : list CalendarEvent) :
  forall lo hi (i j : nat) bi bj,
    blocksChain lo evs hi -> (i < j)%nat ->
    evs !! i = Some bi -> evs !! j = Some bj ->
    endTime bi <= startTime bj.
Proof.
  induction evs as [| e evs IH]; intros lo hi i j bi bj H Hij Hi Hj; [discriminate |].
  destruct H as [H1 [H2 H3]]. destruct j as [| j]; [lia |]. cbn in Hj.
  destruct i as [| i]; cbn in Hi.
  - inversion Hi; subst.
    apply list_elem_of_lookup_2, list_elem_of_In in Hj.
    destruct (blocksChain_In _ _ _ _ H3 Hj). lia.
  - eapply IH; [exact H3 | | exact Hi | exact Hj]. lia.
Qed.

Lemma ascending_lookup {A : Type} (key : A -> Z) (l : list A) :
  forall (i j : nat) a b,
    ascending key l -> (i < j)%nat -> l !! i = Some a -> l !! j = Some b ->
    key a <= key b.
Proof.
  induction l as [| x l IH]; intros i j a b H Hij Hi Hj; [discriminate |].
  destruct H as [Hx H]. destruct j as [| j]; [lia |]. cbn in Hj.
  destruct i as [| i]; cbn in Hi.
  - inversion Hi; subst. rewrite Forall_forall in Hx. apply Hx.
    eapply list_elem_of_lookup_2. exact Hj.
  - eapply IH; [exact H | | exact Hi | exact Hj]. lia.
Qed.

Lemma ascending_app {A : Type} (key : A -> Z) (l1 l2 : list A) :
  ascending key (l1 ++ l2)
  <-> ascending key l1 /\ ascending key l2
      /\ forall x y, In x l1 -> In y l2 -> key x <= key y.
Proof.
  induction l1 as [| a l1 IH]; cbn.
  - split; [intros H; repeat split; auto; intros x y [] | tauto].
  - rewrite IH, Forall_app, !Forall_forall. split.
    + intros [[H1 H2] [H3 [H4 H5]]]. repeat split; auto.
      intros x y [<- | Hx] Hy; [apply H2, list_elem_of_In; exact Hy | auto].
    + intros [[H1 H2] [H3 H4]]. repeat split; auto.
      intros y Hy. apply H4; [left; reflexivity | apply list_elem_of_In; exact Hy].
Qed.

Lemma totalWork_from (ps : list PhaseWork) (a : Q) :
  (fold_left (fun sum p => sum + snd p) ps a == a + totalWork ps)%Q.
Proof.
  unfold totalWork. revert a. induction ps as [| p ps IH]; cbn; intros a; [lra |].
  rewrite IH, (IH (0 + snd p)%Q). lra.
Qed.

Lemma totalWork_cons (p : PhaseWork) (ps : list PhaseWork) :
  (totalWork (p :: ps) == snd p + totalWork ps)%Q.
Proof. unfold totalWork at 1. cbn. rewrite totalWork_from. lra. Qed.

Lemma totalWork_nonneg (ps : list PhaseWork) : allPositive ps -> (0 <= totalWork ps)%Q.
Proof.
  induction 1 as [| p ps Hp _ IH]; [unfold totalWork; cbn; lra |].
  rewrite totalWork_cons. lra.
Qed.

(** The two outcomes of a comparison of numbers. *)
Lemma Qle_bool_cases (x y : Q) :
  (Qle_bool x y = true /\ (x <= y)%Q) \/ (Qle_bool x y = false /\ (y < x)%Q).
Proof.
  destruct (Qle_bool x y) eqn:H.
  - left. split; [reflexivity | apply Qle_bool_iff; exact H].
  - right. split; [reflexivity |]. apply Qnot_le_lt. intros Hle.
    apply Qle_bool_iff in Hle. congruence.
Qed.

(** A slot with less than 30 minutes left gets no block. *)
Lemma fillSlot_short (fuel : nat) (task : Task) (now : Z) (bufferTime : Q)
    (ps : list PhaseWork) (s : Z) (r : Q) :
  (r < 30)%Q -> fillSlot fuel task now bufferTime ps s r = ([], ps).
Proof.
  intros Hr. destruct fuel as [| fuel]; [reflexivity |]. cbn [fillSlot].
  destruct ps as [| [ph d] ps]; [reflexivity |].
  destruct (Qle_bool_cases 30 r) as [[-> H] | [-> H]]; [lra | reflexivity].
Qed.

Lemma afterAllocation_positive (ph : Phase) (d t : Q) (rest : list PhaseWork) :
  allPositive rest -> allPositive (afterAllocation ph d t rest).
Proof.
  intros H. unfold afterAllocation.
  destruct (Qle_bool_cases (d - t) 0) as [[-> Hc] | [-> Hc]]; [exact H |].
  constructor; [exact Hc | exact H].
Qed.

Lemma afterAllocation_halves (ph : Phase) (d t : Q) (rest : list PhaseWork) :
  halfMinutes d -> halfMinutes t -> allHalves rest ->
  allHalves (afterAllocation ph d t rest).
Proof.
  intros Hd Ht H. unfold afterAllocation.
  destruct (Qle_bool (d - t) 0); [exact H |].
  constructor; [apply halfMinutes_minus; assumption | exact H].
Qed.

(** The minutes given to the first phase of the work list in a slot with at
    least 30 minutes left: a positive whole number of half minutes, within
    what is left of the slot. *)
Lemma allocation_facts (d r : Q) :
  (0 < d)%Q -> (30 <= r)%Q -> halfMinutes d -> halfMinutes r ->
  (0 < Qmin d r)%Q /\ (Qmin d r <= r)%Q /\ (Qmin d r <= d)%Q
  /\ halfMinutes (Qmin d r).
Proof.
  intros Hd Hr Hhd Hhr. repeat split.
  - destruct (Q.min_spec d r) as [[_ H] | [_ H]]; rewrite H; lra.
  - apply Q.le_min_r.
  - apply Q.le_min_l.
  - apply halfMinutes_min; assumption.
Qed.

(** The blocks placed in a slot follow one another inside the slot. *)
Lemma fillSlot_chain (task : Task) (now : Z) (bufferTime : Q) (fuel : nat) :
  (0 <= bufferTime)%Q -> halfMinutes bufferTime ->
  forall ps s r hi,
    allPositive ps -> allHalves ps -> halfMinutes r ->
    s <= hi -> (inject_Z s + r * 60 * 1000 <= inject_Z hi)%Q ->
    blocksChain s (fst (fillSlot fuel task now bufferTime ps s r)) hi.
Proof.
  intros Hbuf Hhb. induction fuel as [| fuel IH]; intros ps s r hi Hpos Hhalf Hhr Hs Hhi.
  - exact Hs.
  - cbn [fillSlot]. destruct ps as [| [ph d] rest]; [exact Hs |].
    destruct (Qle_bool_cases 30 r) as [[-> Hr] | [-> Hr]]; [| exact Hs].
    inversion Hpos as [| ? ? Hd Hrest]; subst. cbn [snd] in Hd.
    inversion Hhalf as [| ? ? Hhd Hhrest]; subst. cbn [snd] in Hhd.
    fold (afterAllocation ph d (Qmin d r) rest).
    destruct (allocation_facts d r Hd Hr Hhd Hhr) as (Ht0 & Htr & Htd & Hht).
    set (t := Qmin d r) in *.
    pose proof (newDate_plus s t Hht) as He.
    set (e := newDate (inject_Z s + t * 60 * 1000)) in *.
    pose proof (newDate_plus e bufferTime Hhb) as Hs'.
    set (s' := newDate (inject_Z e + bufferTime * 60 * 1000)) in *.
    set (r' := (r - (t + bufferTime))%Q).
    assert (Hse : s < e) by (rewrite Zlt_Qlt; lra).
    assert (Hehi : e <= hi) by (rewrite Zle_Qle; lra).
    assert (Hes' : e <= s') by (rewrite Zle_Qle; lra).
    pose proof (afterAllocation_positive ph d t rest Hrest) as Hpos'.
    pose proof (afterAllocation_halves ph d t rest Hhd Hht Hhrest) as Hhalf'.
    destruct (Qlt_le_dec r' 30) as [Hsmall | Hbig].
    + rewrite (fillSlot_short fuel task now bufferTime _ s' r' Hsmall).
      cbn [fst blocksChain startTime endTime]. lia.
    + specialize (IH (afterAllocation ph d t rest) s' r' hi Hpos' Hhalf').
      destruct (fillSlot fuel task now bufferTime (afterAllocation ph d t rest) s' r')
        as [events remaining].
      cbn [fst blocksChain startTime endTime] in *.
      repeat split; try lia.
      eapply blocksChain_weaken; [exact Hes' | | apply IH].
      * lia.
      * unfold r'. apply halfMinutes_minus; [exact Hhr |].
        apply halfMinutes_plus; assumption.
      * rewrite Zle_Qle. unfold r' in Hbig. lra.
      * unfold r'. lra.
Qed.

Lemma fillSlot_positive (task : Task) (now : Z) (bufferTime : Q) (fuel : nat) :
  forall ps s r,
    allPositive ps -> allPositive (snd (fillSlot fuel task now bufferTime ps s r)).
Proof.
  induction fuel as [| fuel IH]; intros ps s r Hpos; [exact Hpos |].
  cbn [fillSlot]. destruct ps as [| [ph d] rest]; [constructor |].
  destruct (Qle_bool 30 r); [| exact Hpos].
  inversion Hpos as [| ? ? Hd Hrest]; subst.
  fold (afterAllocation ph d (Qmin d r) rest).
  specialize (IH (afterAllocation ph d (Qmin d r) rest)
                (newDate (inject_Z (newDate (inject_Z s + Qmin d r * 60 * 1000))
                          + bufferTime * 60 * 1000))
                (r - (Qmin d r + bufferTime))%Q
                (afterAllocation_positive ph d _ rest Hrest)).
  destruct (fillSlot fuel task now bufferTime _ _ _) as [events remaining].
  exact IH.
Qed.

(** The work left after a slot is in whole half minutes, when the buffer,
    the work and the length of the slot are. *)
Lemma fillSlot_halves (task : Task) (now : Z) (bufferTime : Q) (fuel : nat) :
  halfMinutes bufferTime ->
  forall ps s r,
    allHalves ps -> halfMinutes r ->
    allHalves (snd (fillSlot fuel task now bufferTime ps s r)).
Proof.
  intros Hhb. induction fuel as [| fuel IH]; intros ps s r Hhalf Hhr; [exact Hhalf |].
  cbn [fillSlot]. destruct ps as [| [ph d] rest]; [constructor |].
  destruct (Qle_bool 30 r); [| exact Hhalf].
  inversion Hhalf as [| ? ? Hhd Hhrest]; subst. cbn [snd] in Hhd.
  fold (afterAllocation ph d (Qmin d r) rest).
  assert (Hht : halfMinutes (Qmin d r)) by (apply halfMinutes_min; assumption).
  specialize (IH (afterAllocation ph d (Qmin d r) rest)
                (newDate (inject_Z (newDate (inject_Z s + Qmin d r * 60 * 1000))
                          + bufferTime * 60 * 1000))
                (r - (Qmin d r + bufferTime))%Q
                (afterAllocation_halves ph d _ rest Hhd Hht Hhrest)).
  destruct (fillSlot fuel task now bufferTime _ _ _) as [events remaining].
  apply IH. apply halfMinutes_minus; [exact Hhr |].
  apply halfMinutes_plus; assumption.
Qed.

Lemma afterAllocation_ranks (ph : Phase) (d t : Q) (rest : list PhaseWork) :
  ascending (fun x : Z => x) (ranks [] ((ph, d) :: rest)) ->
  ascending (fun x : Z => x) (ranks [] (afterAllocation ph d t rest))
  /\ incl (ranks [] (afterAllocation ph d t rest)) (ranks [] ((ph, d) :: rest)).
Proof.
  unfold afterAllocation, ranks. cbn. intros [H1 H2].
  destruct (Qle_bool (d - t) 0); cbn.
  - split; [exact H2 | apply incl_tl, incl_refl].
  - split; [split; assumption | apply incl_refl].
Qed.

(** The phases of the blocks placed in a slot, followed by those of the work
    left, are in the fixed order and come from the work list. *)
Lemma fillSlot_ranks (task : Task) (now : Z) (bufferTime : Q) (fuel : nat) :
  forall ps s r,
    ascending (fun x : Z => x) (ranks [] ps) ->
    let res := fillSlot fuel task now bufferTime ps s r in
    ascending (fun x : Z => x) (ranks (fst res) (snd res))
    /\ incl (ranks (fst res) (snd res)) (ranks [] ps).
Proof.
  induction fuel as [| fuel IH]; intros ps s r Hasc; cbv zeta.
  - cbn. split; [exact Hasc | apply incl_refl].
  - cbn [fillSlot]. destruct ps as [| [ph d] rest]; [cbn; split; [exact I | apply incl_refl] |].
    destruct (Qle_bool 30 r); [| split; [exact Hasc | apply incl_refl]].
    fold (afterAllocation ph d (Qmin d r) rest).
    destruct (afterAllocation_ranks ph d (Qmin d r) rest Hasc) as [Hasc' Hincl'].
    specialize (IH (afterAllocation ph d (Qmin d r) rest)
                  (newDate (inject_Z (newDate (inject_Z s + Qmin d r * 60 * 1000))
                            + bufferTime * 60 * 1000))
                  (r - (Qmin d r + bufferTime))%Q Hasc').
    cbv zeta in IH.
    destruct (fillSlot fuel task now bufferTime _ _ _) as [events remaining].
    cbn [fst snd] in *. destruct IH as [IHa IHi].
    unfold ranks in *. cbn [List.map app phase fst] in *.
    assert (Hall : incl (List.map (fun e => phaseRank (phase e)) events
                         ++ List.map (fun p : PhaseWork => phaseRank (fst p)) remaining)
                     (phaseRank ph :: List.map (fun p : PhaseWork => phaseRank (fst p)) rest)).
    { eapply incl_tran; [exact IHi | exact Hincl']. }
    split.
    + cbn. split; [| exact IHa]. rewrite Forall_forall. intros x Hx.
      apply list_elem_of_In, Hall in Hx. destruct Hasc as [Hhd _].
      destruct Hx as [<- | Hx]; [lia |].
      rewrite Forall_forall in Hhd. apply Hhd, list_elem_of_In. exact Hx.
    + apply incl_cons; [left; reflexivity | exact Hall].
Qed.

Lemma usableEnd_bounds (slot : TimeSlot) :
  slot_start slot <= usableEnd slot
  /\ (inject_Z (slot_start slot) + inject_Z (duration slot) * 60 * 1000
      <= inject_Z (usableEnd slot))%Q.
Proof.
  unfold usableEnd, msPerMinute. split; [lia |].
  rewrite inject_Z_plus, inject_Z_mult.
  assert (H : (inject_Z (duration slot) <= inject_Z (Z.max 0 (duration slot)))%Q)
    by (rewrite <- Zle_Qle; lia).
  change (inject_Z (60 * 1000)) with (60 * 1000)%Q. lra.
Qed.

(** The blocks placed in a chain of slots follow one another. *)
Lemma fillSlots_chain (task : Task) (now : Z) (bufferTime : Q) (slots : list TimeSlot) :
  (0 <= bufferTime)%Q -> halfMinutes bufferTime ->
  forall ps lo hi,
    allPositive ps -> allHalves ps -> slotsChain lo slots hi ->
    blocksChain lo (fst (fillSlots task now bufferTime slots ps)) hi.
Proof.
  intros Hbuf Hhb.
  induction slots as [| slot slots IH]; intros ps lo hi Hpos Hhalf Hchain.
  - exact Hchain.
  - cbn [fillSlots]. destruct ps as [| p ps'].
    + cbn. apply (slotsChain_le _ _ _ Hchain).
    + destruct Hchain as [Hlo Hchain].
      destruct (usableEnd_bounds slot) as [Hu1 Hu2].
      pose proof (fillSlot_chain task now bufferTime (fuelFor (p :: ps')) Hbuf Hhb
                    (p :: ps') (slot_start slot) (inject_Z (duration slot))
                    (usableEnd slot) Hpos Hhalf (halfMinutes_inject _) Hu1 Hu2) as H1.
      pose proof (fillSlot_positive task now bufferTime (fuelFor (p :: ps')) (p :: ps')
                    (slot_start slot) (inject_Z (duration slot)) Hpos) as H2.
      pose proof (fillSlot_halves task now bufferTime (fuelFor (p :: ps')) Hhb (p :: ps')
                    (slot_start slot) (inject_Z (duration slot)) Hhalf
                    (halfMinutes_inject _)) as H3.
      destruct (fillSlot _ task now bufferTime (p :: ps') _ _) as [events remaining].
      cbn [fst snd] in *.
      specialize (IH remaining (usableEnd slot) hi H2 H3 Hchain).
      destruct (fillSlots task now bufferTime slots remaining) as [events' remaining'].
      cbn [fst] in *.
      eapply blocksChain_app; [| exact IH].
      eapply blocksChain_weaken; [exact Hlo | | exact H1]. lia.
Qed.

Lemma fillSlots_ranks (task : Task) (now : Z) (bufferTime : Q) (slots : list TimeSlot) :
  forall ps,
    ascending (fun x : Z => x) (ranks [] ps) ->
    let res := fillSlots task now bufferTime slots ps in
    ascending (fun x : Z => x) (ranks (fst res) (snd res))
    /\ incl (ranks (fst res) (snd res)) (ranks [] ps).
Proof.
  induction slots as [| slot slots IH]; intros ps Hasc; cbv zeta.
  - cbn. split; [exact Hasc | apply incl_refl].
  - cbn [fillSlots]. destruct ps as [| p ps'].
    + cbn. split; [exact I | apply incl_refl].
    + pose proof (fillSlot_ranks task now bufferTime (fuelFor (p :: ps')) (p :: ps')
                    (slot_start slot) (inject_Z (duration slot)) Hasc) as H1.
      cbv zeta in H1.
      destruct (fillSlot _ task now bufferTime (p :: ps') _ _) as [events remaining].
      cbn [fst snd] in H1. destruct H1 as [H1a H1i].
      unfold ranks in H1a. apply ascending_app in H1a. destruct H1a as [Ha1 [Ha2 Ha3]].
      specialize (IH remaining Ha2). cbv zeta in IH.
      destruct (fillSlots task now bufferTime slots remaining) as [events' remaining'].
      cbn [fst snd] in *. destruct IH as [IHa IHi].
      unfold ranks in *. rewrite List.map_app, <- app_assoc. split.
      * apply ascending_app. repeat split; [exact Ha1 | exact IHa |].
        intros x y Hx Hy. apply Ha3; [exact Hx |]. apply IHi in Hy. exact Hy.
      * apply incl_app.
        -- eapply incl_tran; [| exact H1i]. apply incl_appl, incl_refl.
        -- eapply incl_tran; [exact IHi |]. eapply incl_tran; [| exact H1i].
           apply incl_appr, incl_refl.
Qed.

Lemma phasesOf_positive (estimation : TaskEstimation) : allPositive (phasesOf estimation).
Proof.
  unfold allPositive, phasesOf. apply Forall_forall. intros p Hp.
  apply list_elem_of_In, in_map_iff in Hp. destruct Hp as [[ph d] [<- Hin]].
  apply list_elem_of_In, list_elem_of_filter in Hin. destruct Hin as [Hd _].
  cbn [snd] in *. change 0%Q with (inject_Z 0). rewrite <- Zlt_Qlt. exact Hd.
Qed.

Lemma phasesOf_halves (estimation : TaskEstimation) : allHalves (phasesOf estimation).
Proof.
  unfold allHalves, phasesOf. apply Forall_forall. intros p Hp.
  apply list_elem_of_In, in_map_iff in Hp. destruct Hp as [[ph d] [<- Hin]].
  apply halfMinutes_inject.
Qed.

Lemma phasesOf_ranks (estimation : TaskEstimation) :
  ascending (fun x : Z => x) (ranks [] (phasesOf estimation)).
Proof.
  unfold phasesOf, ranks. cbn [List.map app].
  repeat (rewrite filter_cons; cbn [snd]).
  rewrite filter_nil.
  repeat case_decide; cbn; repeat constructor; cbn; lia.
Qed.

Lemma ascending_map {A : Type} (f : A -> Z) (l : list A) :
  ascending (fun x : Z => x) (List.map f l) -> ascending f l.
Proof.
  induction l as [| a l IH]; cbn [ascending List.map]; [auto |].
  intros [H1 H2]. split; [| auto].
  rewrite Forall_forall in H1. rewrite Forall_forall. intros y Hy. apply H1.
  apply list_elem_of_In, in_map, list_elem_of_In. exact Hy.
Qed.

Lemma iterations_step (ph : Phase) (d r : Q) (rest : list PhaseWork) :
  (0 < d)%Q -> (30 <= r)%Q -> allPositive rest ->
  (iterations (afterAllocation ph d (Qmin d r) rest) < iterations ((ph, d) :: rest))%nat.
Proof.
  intros Hd Hr Hrest. unfold iterations, afterAllocation.
  unfold Qdiv. change (/ 30)%Q with (1 # 30)%Q.
  pose proof (totalWork_nonneg rest Hrest) as Hnn.
  pose proof (totalWork_cons (ph, d) rest) as Hcons. cbn [snd] in Hcons.
  assert (Hfl : forall x y : Q, (x + 1 <= y)%Q -> Qfloor x < Qfloor y).
  { intros x y Hxy. rewrite Zlt_Qlt.
    pose proof (Qfloor_le x). pose proof (Qlt_floor y) as Hy.
    rewrite inject_Z_plus in Hy. change (inject_Z 1) with 1%Q in Hy. lra. }
  assert (Hf0 : forall x : Q, (0 <= x)%Q -> 0 <= Qfloor x).
  { intros x Hx. change 0 with (Qfloor 0). apply Qfloor_resp_le. exact Hx. }
  destruct (Qle_bool_cases (d - Qmin d r) 0) as [[-> Hc] | [-> Hc]].
  - assert (Hle : Qfloor (totalWork rest * (1 # 30))
                  <= Qfloor (totalWork ((ph, d) :: rest) * (1 # 30))).
    { apply Qfloor_resp_le. rewrite Hcons. lra. }
    pose proof (Hf0 (totalWork rest * (1 # 30))%Q ltac:(lra)). cbn [length]. lia.
  - assert (Ht : (Qmin d r == r)%Q).
    { destruct (Q.min_spec d r) as [[_ H] | [_ H]]; [rewrite H in Hc; lra | exact H]. }
    pose proof (totalWork_cons (ph, (d - Qmin d r)%Q) rest) as Hcons'. cbn [snd] in Hcons'.
    assert (Hlt : Qfloor (totalWork ((ph, (d - Qmin d r)%Q) :: rest) * (1 # 30))
                  < Qfloor (totalWork ((ph, d) :: rest) * (1 # 30))).
    { apply Hfl. rewrite Hcons, Hcons', Ht. lra. }
    pose proof (Hf0 (totalWork ((ph, (d - Qmin d r)%Q) :: rest) * (1 # 30))%Q
                  ltac:(rewrite Hcons'; lra)).
    cbn [length]. lia.
Qed.

(** The fuel of the loop inside a slot is enough: every iteration finishes
    a phase or takes at least 30 minutes off the work list, so more fuel
    changes nothing. *)
Lemma fillSlot_fuel (task : Task) (now : Z) (bufferTime : Q) (n : nat) :
  forall (m : nat) ps s r,
    allPositive ps -> (iterations ps < n)%nat -> (n <= m)%nat ->
    fillSlot m task now bufferTime ps s r = fillSlot n task now bufferTime ps s r.
Proof.
  induction n as [| n IH]; intros m ps s r Hpos Hwork Hnm; [lia |].
  destruct m as [| m]; [lia |]. cbn [fillSlot].
  destruct ps as [| [ph d] rest]; [reflexivity |].
  destruct (Qle_bool_cases 30 r) as [[-> Hr] | [-> Hr]]; [| reflexivity].
  inversion Hpos as [| ? ? Hd Hrest]; subst. cbn [snd] in Hd.
  fold (afterAllocation ph d (Qmin d r) rest).
  pose proof (iterations_step ph d r rest Hd Hr Hrest) as Hstep.
  unfold PhaseWork in *.
  rewrite (IH m (afterAllocation ph d (Qmin d r) rest)); [reflexivity | | lia | lia].
  apply afterAllocation_positive. exact Hrest.
Qed.

(** The fuel [fillSlots] hands to the loop inside a slot is enough. *)
Lemma fillSlot_enough (task : Task) (now : Z) (bufferTime : Q) (ps : list PhaseWork)
    (s : Z) (r : Q) (m : nat) :
  allPositive ps -> (fuelFor ps <= m)%nat ->
  fillSlot m task now bufferTime ps s r
  = fillSlot (fuelFor ps) task now bufferTime ps s r.
Proof.
  intros Hpos Hm. apply fillSlot_fuel; [exact Hpos | | exact Hm].
  unfold fuelFor, iterations. lia.
Qed.

Lemma daysInRange_next (startDate endDate : Z) :
  startDate <= endDate ->
  daysInRange startDate endDate = S (daysInRange (startDate + msPerDay) endDate).
Proof.
  intros H. unfold daysInRange.
  replace (endDate - (startDate + msPerDay)) with (endDate - startDate + (-1) * msPerDay)
    by lia.
  rewrite Z.div_add by (unfold msPerDay; lia).
  assert (0 <= (endDate - startDate) / msPerDay)
    by (apply Z.div_pos; unfold msPerDay; lia).
  lia.
Qed.

(** The number of iterations of the loop over the days is exactly
    [daysInRange]: more fuel changes nothing. *)
Lemma findSlotsFrom_fuel (provider : Provider) (endDate : Z) (wh : WorkingHours)
    (bufferTime : Q) (calendarId : string) (n : nat) :
  forall (m : nat) currentDate,
    (daysInRange currentDate endDate <= n)%nat -> (n <= m)%nat ->
    findSlotsFrom m provider currentDate endDate wh bufferTime calendarId
    = findSlotsFrom n provider currentDate endDate wh bufferTime calendarId.
Proof.
  induction n as [| n IH]; intros m cur Hdays Hnm.
  - destruct m as [| m]; [reflexivity |]. cbn [findSlotsFrom].
    destruct (Z.leb_spec cur endDate) as [Hle |]; [| reflexivity].
    rewrite (daysInRange_next _ _ Hle) in Hdays. lia.
  - destruct m as [| m]; [lia |]. cbn [findSlotsFrom].
    destruct (Z.leb_spec cur endDate) as [Hle |]; [| reflexivity].
    rewrite (daysInRange_next _ _ Hle) in Hdays.
    rewrite (IH m (cur + msPerDay)) by lia. reflexivity.
Qed.

(** C2, as amended: for a buffer that is a non-negative whole number of
    half minutes, the blocks of a successful allocation follow one another
    in the order returned: each block ends after it starts, a later block
    starts no earlier than an earlier one ends (so the blocks are pairwise
    non-overlapping and in chronological order), and the phases are in the
    fixed order incubation, design, implementation, improvement.  This holds
    of the allocation loop on every list of free slots that follow one
    another, and of [scheduleTask] whenever the working hours are times of
    day and the provider answers each window with events that meet it. *)
Theorem scheduleTask_blocks_ordered (provider : Provider) (now : Z) (task : Task)
    (estimation : TaskEstimation) (wh : WorkingHours) (bufferTime : Q)
    (calendarId : string) :
  (0 <= bufferTime)%Q -> halfMinutes bufferTime ->
  (forall slots lo hi blocks,
      slotsChain lo slots hi ->
      fillSlots task now bufferTime slots (phasesOf estimation) = (blocks, []) ->
      inSequence blocks)
  /\ (validWorkingHours wh -> meetsWindow provider ->
      forall blocks,
        scheduleTask provider now task estimation wh bufferTime calendarId
        = Scheduled blocks ->
        inSequence blocks).
Proof.
  intros Hbuf Hhb.
  assert (Hloop : forall slots lo hi blocks,
             slotsChain lo slots hi ->
             fillSlots task now bufferTime slots (phasesOf estimation) = (blocks, []) ->
             inSequence blocks).
  { intros slots lo hi blocks Hslots Hres.
    pose proof (fillSlots_chain task now bufferTime slots Hbuf Hhb (phasesOf estimation)
                  _ _ (phasesOf_positive estimation) (phasesOf_halves estimation)
                  Hslots) as Hchain.
    pose proof (fillSlots_ranks task now bufferTime slots (phasesOf estimation)
                  (phasesOf_ranks estimation)) as Hranks.
    cbv zeta in Hranks. rewrite Hres in Hchain, Hranks. cbn [fst snd] in *.
    destruct Hranks as [Hasc _].
    unfold ranks in Hasc. cbn [List.map] in Hasc. rewrite app_nil_r in Hasc.
    apply ascending_map in Hasc. split.
    - intros i j bi bj Hij Hi Hj.
      pose proof (blocksChain_lookup _ _ _ _ _ _ _ Hchain Hij Hi Hj) as Hord.
      pose proof (ascending_lookup _ _ _ _ _ _ Hasc Hij Hi Hj) as Hph.
      apply list_elem_of_lookup_2, list_elem_of_In in Hi.
      destruct (blocksChain_In _ _ _ _ Hchain Hi) as [_ [Hpos _]].
      cbn beta in Hph. lia.
    - intros b Hb. destruct (blocksChain_In _ _ _ _ Hchain Hb) as [_ [Hpos _]].
      exact Hpos. }
  split; [exact Hloop |].
  intros Hwh Hmeets blocks Hres. unfold scheduleTask in Hres.
  destruct (dueDate task) as [due |]; [| discriminate].
  unfold findAvailableTimeSlots in Hres.
  pose proof (findSlotsFrom_chain provider due wh bufferTime calendarId
                (daysInRange now due) Hbuf Hwh Hmeets now) as Hslots.
  destruct (findSlotsFrom (daysInRange now due) provider now due wh bufferTime calendarId)
    as [slots log].
  cbn [fst] in Hslots.
  destruct (fillSlots task now bufferTime slots (phasesOf estimation))
    as [events remaining] eqn:Hfill.
  destruct remaining as [| p remaining]; [| discriminate].
  inversion Hres; subst. eapply Hloop; eassumption.
Qed.

End SchedulerFacts.

Lemma defaultWorkingHours_valid : validWorkingHours RealtimeScheduler.getDefaultWorkingHours.
Proof. intros k. destruct k; cbn; unfold validTime; cbn; lia. Qed.

Lemma oneMeeting_meetsWindow : meetsWindow oneMeeting.
Proof.
  intros cal a b items ev s e Hq Hin Hs He. unfold oneMeeting in Hq.
  destruct ((a <=? at_ 11 0) && (at_ 10 0 <=? b)) eqn:Hc;
    inversion Hq; subst; [| destruct Hin].
  destruct Hin as [<- | []]. cbn in Hs, He. inversion Hs; inversion He; subst.
  apply andb_true_iff in Hc. destruct Hc as [H1 H2].
  apply Z.leb_le in H1, H2.
  unfold at_, monday0, Scheduler.msPerMinute in *. lia.
Qed.

Lemma halfMinutes_15 : halfMinutes 15.
Proof. exists 30. reflexivity. Qed.

(** C2 on a Monday with one meeting from 10:00 to 11:00: the default
    estimation is placed in four blocks, one before the meeting and three
    after it. *)
Lemma scheduleTask_blocks_ordered_witness :
  (0 <= 15)%Q
  /\ halfMinutes 15
  /\ validWorkingHours RealtimeScheduler.getDefaultWorkingHours
  /\ meetsWindow oneMeeting
  /\ exists blocks,
       Scheduler.scheduleTask oneMeeting (at_ 9 30) (dueTask (at_ 13 0))
         LearningEngine.getDefaultEstimation
         RealtimeScheduler.getDefaultWorkingHours 15 "primary"
       = Scheduler.Scheduled blocks
       /\ List.map (fun b => (phase b, startTime b, endTime b)) blocks
          = [ (Incubation, at_ 9 0, at_ 9 12);
              (Design, at_ 11 15, at_ 11 33);
              (Implementation, at_ 11 48, at_ 12 12);
              (Improvement, at_ 12 27, at_ 12 33) ]
       /\ inSequence blocks.
Proof.
  split; [lra |]. split; [exact halfMinutes_15 |].
  split; [exact defaultWorkingHours_valid |].
  split; [exact oneMeeting_meetsWindow |].
  eexists. split; [vm_compute; reflexivity |]. split; [vm_compute; reflexivity |].
  apply (proj2 (scheduleTask_blocks_ordered oneMeeting (at_ 9 30) (dueTask (at_ 13 0))
                  LearningEngine.getDefaultEstimation
                  RealtimeScheduler.getDefaultWorkingHours 15 "primary"
                  ltac:(lra) halfMinutes_15)).
  - exact defaultWorkingHours_valid.
  - exact oneMeeting_meetsWindow.
  - vm_compute. reflexivity.
Defined.

(** C2, as stated, fails without these conditions.  With a buffer of -5
    minutes, which the settings accept, the second block starts before the
    first one ends.  With a buffer of 1/131072 of a minute the last block of
    two phases of 270 minutes has no length.  With a provider that answers
    every window with a meeting of Monday morning, and with working hours
    that run to 40:00, a later block starts before an earlier one ends. *)
Lemma scheduleTask_unordered_blocks :
  (exists blocks,
      Scheduler.scheduleTask freeCalendar (at_ 9 30) (dueTask (at_ 13 0))
        LearningEngine.getDefaultEstimation
        RealtimeScheduler.getDefaultWorkingHours (-5) "primary"
      = Scheduler.Scheduled blocks
      /\ List.map (fun b => (phase b, startTime b, endTime b)) blocks
         = [ (Incubation, at_ 9 0, at_ 9 12);
             (Design, at_ 9 7, at_ 9 25);
             (Implementation, at_ 9 20, at_ 9 44);
             (Improvement, at_ 9 39, at_ 9 45) ])
  /\ (exists blocks,
        Scheduler.scheduleTask freeCalendar (at_ 9 30) (dueTask (at_ (24 + 13) 0))
          twoLongPhases RealtimeScheduler.getDefaultWorkingHours (1 # 131072) "primary"
        = Scheduler.Scheduled blocks
        /\ List.map (fun b => (phase b, startTime b, endTime b)) blocks
           = [ (Incubation, at_ 9 0, at_ 13 30);
               (Design, at_ 13 30, at_ 17 59 + 59999);
               (Design, at_ (24 + 9) 0, at_ (24 + 9) 0) ])
  /\ (exists blocks,
        Scheduler.scheduleTask staleAnswer (at_ 9 30) (dueTask (at_ (24 + 13) 0))
          twoLongPhases RealtimeScheduler.getDefaultWorkingHours 15 "primary"
        = Scheduler.Scheduled blocks
        /\ List.map (fun b => (phase b, startTime b, endTime b)) blocks
           = [ (Incubation, at_ 9 15, at_ 13 45);
               (Design, at_ 14 0, at_ 18 0);
               (Design, at_ 9 15, at_ 9 45) ])
  /\ (exists blocks,
        Scheduler.scheduleTask freeCalendar (at_ 9 30) (dueTask (at_ (24 + 13) 0))
          longWork longMonday 15 "primary"
        = Scheduler.Scheduled blocks
        /\ List.map (fun b => (phase b, startTime b, endTime b)) blocks
           = [ (Incubation, at_ 9 0, at_ (24 + 15) 50);
               (Design, at_ (24 + 9) 0, at_ (24 + 10) 0) ]).
Proof. repeat split; eexists; split; vm_compute; reflexivity. Qed.

Section FinderFacts.

Import Scheduler.

Lemma findDayAvailableSlots_failure (provider : Provider) (date : Z)
    (startTime endTime : TimeOfDay) (bufferTime : Q) (calendarId : string) :
  provider calendarId (setHours date startTime) (setHours date endTime) = None ->
  findDayAvailableSlots provider date startTime endTime bufferTime calendarId
  = ([ mkTimeSlot (setHours date startTime) (setHours date endTime)
         ((setHours date endTime - setHours date startTime) / (60 * 1000)) ],
     [ (LogError, "Failed to get events:");
       (LogError, "Failed to find day available slots:") ]).
Proof.
  intros Hq. unfold findDayAvailableSlots, getEvents. rewrite Hq. reflexivity.
Qed.

Lemma findDayAvailableSlots_console (provider : Provider) (date : Z)
    (startTime endTime : TimeOfDay) (bufferTime : Q) (calendarId : string) :
  Forall (fun entry => fst entry = LogError)
    (snd (findDayAvailableSlots provider date startTime endTime bufferTime calendarId)).
Proof.
  unfold findDayAvailableSlots, getEvents.
  destruct (provider calendarId _ _) as [items |].
  - destruct (fold_left _ _ _) as [cur slots]. cbn. constructor.
  - cbn. repeat constructor.
Qed.

Lemma findSlotsFrom_console (provider : Provider) (endDate : Z) (wh : WorkingHours)
    (bufferTime : Q) (calendarId : string) (days : nat) :
  forall currentDate,
    Forall (fun entry => fst entry = LogError)
      (snd (findSlotsFrom days provider currentDate endDate wh bufferTime calendarId)).
Proof.
  induction days as [| days IH]; intros cur; [constructor |].
  cbn [findSlotsFrom]. destruct (cur <=? endDate); [| constructor].
  specialize (IH (cur + msPerDay)).
  destruct (findSlotsFrom days provider (cur + msPerDay) endDate wh bufferTime calendarId)
    as [rest log'].
  destruct (enabled (dayConfig wh (getDayOfWeek cur))).
  - pose proof (findDayAvailableSlots_console provider cur
                  (day_start (dayConfig wh (getDayOfWeek cur)))
                  (day_end (dayConfig wh (getDayOfWeek cur))) bufferTime calendarId) as Hd.
    destruct (findDayAvailableSlots provider cur _ _ bufferTime calendarId) as [daySlots log].
    cbn [snd] in *. apply Forall_app. split; assumption.
  - exact IH.
Qed.

(** The slots of the [k]-th day of the loop are part of its result. *)
Lemma findSlotsFrom_day (provider : Provider) (endDate : Z) (wh : WorkingHours)
    (bufferTime : Q) (calendarId : string) (slot : TimeSlot) (k : nat) :
  forall (days : nat) currentDate,
    (k < days)%nat ->
    currentDate + Z.of_nat k * msPerDay <= endDate ->
    let date := currentDate + Z.of_nat k * msPerDay in
    let config := dayConfig wh (getDayOfWeek date) in
    enabled config = true ->
    In slot (fst (findDayAvailableSlots provider date (day_start config)
                    (day_end config) bufferTime calendarId)) ->
    In slot (fst (findSlotsFrom days provider currentDate endDate wh bufferTime calendarId)).
Proof.
  induction k as [| k IH]; intros days cur Hk Hle; cbv zeta; intros Hen Hin.
  - destruct days as [| days]; [lia |]. cbn [findSlotsFrom].
    replace (cur + Z.of_nat 0 * msPerDay) with cur in * by lia.
    destruct (Z.leb_spec cur endDate); [| lia].
    rewrite Hen.
    destruct (findDayAvailableSlots provider cur _ _ bufferTime calendarId) as [daySlots log].
    destruct (findSlotsFrom days provider (cur + msPerDay) endDate wh bufferTime calendarId)
      as [rest log'].
    cbn [fst] in *. apply in_or_app. left. exact Hin.
  - destruct days as [| days]; [lia |]. cbn [findSlotsFrom].
    assert (Hday : 0 < msPerDay) by (unfold msPerDay; lia).
    destruct (Z.leb_spec cur endDate); [| lia].
    replace (cur + Z.of_nat (S k) * msPerDay)
      with (cur + msPerDay + Z.of_nat k * msPerDay) in * by lia.
    specialize (IH days (cur + msPerDay) ltac:(lia) Hle). cbv zeta in IH.
    specialize (IH Hen Hin).
    destruct (findSlotsFrom days provider (cur + msPerDay) endDate wh bufferTime calendarId)
      as [rest log'].
    destruct (if enabled (dayConfig wh (getDayOfWeek cur)) then _ else _) as [daySlots log].
    cbn [fst] in *. apply in_or_app. right. exact IH.
Qed.

Lemma daysInRange_within (startDate endDate : Z) (k : nat) :
  (k < daysInRange startDate endDate)%nat ->
  startDate + Z.of_nat k * msPerDay <= endDate.
Proof.
  unfold daysInRange. intros Hk.
  assert (Hday : 0 < msPerDay) by (unfold msPerDay; lia).
  pose proof (Z.mul_div_le (endDate - startDate) msPerDay Hday).
  assert (Z.of_nat k <= (endDate - startDate) / msPerDay) by lia.
  nia.
Qed.

(** C4, as amended: for every day of the queried range whose working hours
    are enabled and whose provider query fails, the day's slots are the
    single slot from the start to the end of the working window, and that
    slot is part of the finder's result.  The failure is written to the
    console at error level, twice ([getEvents] and the finder); the finder
    never logs at warning level, and what it returns is the plain list of
    slots. *)
Theorem provider_failure_whole_window (provider : Provider) (startDate endDate : Z)
    (wh : WorkingHours) (bufferTime : Q) (calendarId : string) (k : nat) :
  let date := startDate + Z.of_nat k * msPerDay in
  let config := dayConfig wh (getDayOfWeek date) in
  let dayStart := setHours date (day_start config) in
  let dayEnd := setHours date (day_end config) in
  let whole := mkTimeSlot dayStart dayEnd ((dayEnd - dayStart) / (60 * 1000)) in
  (k < daysInRange startDate endDate)%nat ->
  enabled config = true ->
  provider calendarId dayStart dayEnd = None ->
  findDayAvailableSlots provider date (day_start config) (day_end config)
    bufferTime calendarId
  = ([whole],
     [ (LogError, "Failed to get events:");
       (LogError, "Failed to find day available slots:") ])
  /\ In whole
       (fst (findAvailableTimeSlots provider startDate endDate wh bufferTime calendarId))
  /\ Forall (fun entry => fst entry = LogError)
       (snd (findAvailableTimeSlots provider startDate endDate wh bufferTime calendarId)).
Proof.
  intros date config dayStart dayEnd whole Hk Hen Hq.
  pose proof (findDayAvailableSlots_failure provider date (day_start config)
                (day_end config) bufferTime calendarId Hq) as Hday.
  split; [exact Hday |]. split.
  - unfold findAvailableTimeSlots.
    apply (findSlotsFrom_day provider endDate wh bufferTime calendarId whole k
             (daysInRange startDate endDate) startDate Hk
             (daysInRange_within _ _ _ Hk) Hen).
    fold date config. rewrite Hday. left. reflexivity.
  - apply findSlotsFrom_console.
Qed.

End FinderFacts.

(** C4 for the Monday of the examples with an unreachable provider. *)
Lemma provider_failure_whole_window_witness :
  (0 < Scheduler.daysInRange (at_ 9 30) (at_ 13 0))%nat
  /\ Scheduler.findAvailableTimeSlots unreachable (at_ 9 30) (at_ 13 0)
       RealtimeScheduler.getDefaultWorkingHours 15 "primary"
     = ([Scheduler.mkTimeSlot (at_ 9 0) (at_ 18 0) 540],
        [ (LogError, "Failed to get events:");
          (LogError, "Failed to find day available slots:") ])
  /\ In (Scheduler.mkTimeSlot (at_ 9 0) (at_ 18 0) 540)
       (fst (Scheduler.findAvailableTimeSlots unreachable (at_ 9 30) (at_ 13 0)
               RealtimeScheduler.getDefaultWorkingHours 15 "primary")).
Proof.
  split; [vm_compute; lia |]. split; [vm_compute; reflexivity |].
  exact (proj1 (proj2 (provider_failure_whole_window unreachable (at_ 9 30) (at_ 13 0)
                         RealtimeScheduler.getDefaultWorkingHours 15 "primary" 0
                         ltac:(vm_compute; lia) eq_refl eq_refl))).
Defined.

(** C4, as stated, fails in its last part: with an unreachable provider the
    finder hands its caller exactly the slots of a day that is really free,
    the console receives error lines and no warning, and the allocator's
    outcome is the same as on the free day. *)
Lemma provider_failure_not_surfaced :
  let failing :=
    Scheduler.findAvailableTimeSlots unreachable (at_ 9 30) (at_ 13 0)
      RealtimeScheduler.getDefaultWorkingHours 15 "primary" in
  let free :=
    Scheduler.findAvailableTimeSlots freeCalendar (at_ 9 30) (at_ 13 0)
      RealtimeScheduler.getDefaultWorkingHours 15 "primary" in
  fst failing = fst free
  /\ snd failing
     = [ (LogError, "Failed to get events:");
         (LogError, "Failed to find day available slots:") ]
  /\ existsb (fun entry => match fst entry with LogWarn => true | _ => false end)
       (snd failing) = false
  /\ Scheduler.scheduleTask unreachable (at_ 9 30) (dueTask (at_ 13 0))
       LearningEngine.getDefaultEstimation
       RealtimeScheduler.getDefaultWorkingHours 15 "primary"
     = Scheduler.scheduleTask freeCalendar (at_ 9 30) (dueTask (at_ 13 0))
         LearningEngine.getDefaultEstimation
         RealtimeScheduler.getDefaultWorkingHours 15 "primary".
Proof. repeat split; vm_compute; reflexivity. Qed.

(** ** Rescheduler *)


Section WindowFacts.

Import RealtimeScheduler.









End WindowFacts.

Section ReschedulerFacts.

Import RealtimeScheduler.

Variable scheduleTask : Allocator.

Lemma getTaskSchedule_no_events (form : DateForm) (task : Task) :
  hasEvents task = false -> getTaskSchedule form task = (Returned None, task).
Proof.
  unfold hasEvents, getTaskSchedule.
  destruct (calendarEvents task) as [[| e evs] |]; intros H; congruence.
Qed.

Lemma getTaskSchedule_hasEvents (form : DateForm) (task : Task) :
  hasEvents (snd (getTaskSchedule form task)) = hasEvents task.
Proof.
  unfold hasEvents, getTaskSchedule.
  destruct (calendarEvents task) as [[| e evs] |] eqn:He;
    [cbn; rewrite He; reflexivity | | cbn; rewrite He; reflexivity].
  pose proof (sortBy_perm startTime (e :: evs)) as Hp.
  remember (sortBy startTime (e :: evs)) as sorted eqn:Hs.
  assert (Hne : exists h t, sorted = h :: t).
  { destruct sorted; [apply Permutation_nil_r in Hp; discriminate | eauto]. }
  destruct Hne as (h & t & ->).
  destruct form, evs; cbn [snd setCalendarEvents calendarEvents]; rewrite ?He;
    reflexivity.
Qed.

Lemma getTaskSchedule_task_id (form : DateForm) (task : Task) :
  task_id (snd (getTaskSchedule form task)) = task_id task.
Proof.
  unfold getTaskSchedule.
  destruct (calendarEvents task) as [[| e [| e' evs]] |], form; reflexivity.
Qed.

Lemma getTaskSchedule_threw (form : DateForm) (task t : Task) :
  getTaskSchedule form task = (Threw, t) ->
  t = task /\ hasEvents task = true /\ form = IsoStrings.
Proof.
  unfold getTaskSchedule, hasEvents.
  destruct (calendarEvents task) as [[| e [| e' evs]] |], form; intros H;
    inversion H; auto.
Qed.

Lemma windowsDiffer_true (a b : Window) :
  windowsDiffer a b = true <-> win_start a <> win_start b \/ win_end a <> win_end b.
Proof.
  unfold windowsDiffer. rewrite orb_true_iff, !negb_true_iff, !Z.eqb_neq. tauto.
Qed.

Lemma extends_refl (st : State) : extends st st.
Proof. repeat split; exists []; rewrite app_nil_r; reflexivity. Qed.

Lemma extends_trans (a b c : State) : extends a b -> extends b c -> extends a c.
Proof.
  intros (H1 & H2 & H3 & H4 & [cs Hcs] & [ls Hls])
         (K1 & K2 & K3 & K4 & [cs' Hcs'] & [ls' Hls']).
  repeat split; try congruence.
  - exists (cs ++ cs'). rewrite Hcs', Hcs, app_assoc. reflexivity.
  - exists (ls ++ ls'). rewrite Hls', Hls, app_assoc. reflexivity.
Qed.

Lemma logLine_extends (st : State) (level : LogLevel) (msg : string) :
  extends st (logLine st level msg).
Proof.
  repeat split; [exists []; cbn; rewrite app_nil_r; reflexivity |].
  eexists. reflexivity.
Qed.

Lemma withCalls_extends (st : State) (cs : list SchedCall) :
  extends st (withCalls st (calls st ++ cs)).
Proof.
  repeat split; [eexists; reflexivity |].
  exists []. cbn. rewrite app_nil_r. reflexivity.
Qed.

(** Takes the cases of every answer of the allocator in a computation of the
    scheduler. *)
Ltac take_cases :=
  unfold allocate, scheduleTaskWithRelaxedConstraints, bind, ret, log,
    awaitScheduleTask;
  cbv beta iota zeta;
  repeat (match goal with
          | |- context [match dueDate ?t with _ => _ end] => destruct (dueDate t)
          | |- context [if hasEvents ?t then _ else _] => destruct (hasEvents t)
          | |- context [scheduleTask ?w ?c] => destruct (scheduleTask w c)
          end; cbv beta iota zeta);
  cbn [fst snd].

(** Follows the lines and calls a state was built with. *)
Ltac follow :=
  lazymatch goal with
  | |- extends ?st ?st => apply extends_refl
  | |- extends ?st (logLine ?st1 _ _) =>
      apply (extends_trans st st1); [follow | apply logLine_extends]
  | |- extends ?st (withCalls ?st1 _) =>
      apply (extends_trans st st1); [follow | apply withCalls_extends]
  end.

(** The allocation step awaits the strict call first and at most three
    relaxed calls after it, none when the task holds blocks. *)
Lemma allocate_calls (form : DateForm) (task : Task) (estimation : TaskEstimation)
    (wh : WorkingHours) (buf : Q) (st : State) :
  extends st (snd (allocate scheduleTask form task estimation wh buf st))
  /\ exists cs,
       calls (snd (allocate scheduleTask form task estimation wh buf st))
       = calls st ++ mkCall form task estimation wh buf :: cs
       /\ (length cs <= 3)%nat
       /\ (hasEvents task = true -> cs = []).
Proof.
  split.
  - take_cases; follow.
  - unfold allocate, bind, awaitScheduleTask, ret, log.
    destruct (scheduleTask (calls st) _) as [events |];
      cbn [fst snd calls logLine withCalls].
    { exists []. repeat split; cbn; lia. }
    destruct (hasEvents task); cbn [fst snd calls logLine withCalls].
    { exists []. repeat split; cbn; lia. }
    take_cases; cbn [calls logLine withCalls]; rewrite <- ?app_assoc; cbn [app];
      eexists; (split; [reflexivity |]); cbn [length]; split; (lia || discriminate).
Qed.

(** The loop body on a task whose window was captured. *)
Lemma rescheduleOne_returned (form : DateForm) (eventId : string) (now : Z)
    (wh : WorkingHours) (buf : Q) (task : Task) (entries : list Change) (st : State)
    (old : option Window) (t : Task) :
  getTaskSchedule form task = (Returned old, t) ->
  let a := allocate scheduleTask form t (estimateTaskTime t) wh buf st in
  let r := rescheduleOne scheduleTask form eventId now wh buf task entries st in
  snd (fst r) = entries ++ entryOf form (task_id t) old (fst a)
  /\ fst (fst r)
     = match fst a ≫= newWindow with
       | Some n =>
           match old, form with
           | Some _, IsoStrings => t
           | _, _ => applySchedule t (default [] (fst a)) n now eventId
           end
       | None => t
       end
  /\ calls (snd r) = calls (snd a)
  /\ extends (snd a) (snd r).
Proof.
  intros Hget. cbv zeta. unfold rescheduleOne. rewrite Hget. cbv beta iota zeta.
  unfold bind, log, ret. cbv beta.
  destruct (allocate scheduleTask form t (estimateTaskTime t) wh buf st)
    as [[[| first rest] |] st1]; cbn [fst snd];
    unfold entryOf, bind, log, ret;
    destruct old as [o |], form;
    cbn [fst snd mbind option_bind newWindow default calls logLine];
    try (destruct (windowsDiffer o _));
    (split; [rewrite ?app_nil_r; reflexivity |
     split; [reflexivity |
     split; [reflexivity | first [apply extends_refl | apply logLine_extends]]]]).
Qed.

(** The loop body on a task for which [getTaskSchedule] throws. *)
Lemma rescheduleOne_threw (form : DateForm) (eventId : string) (now : Z)
    (wh : WorkingHours) (buf : Q) (task : Task) (entries : list Change) (st : State)
    (t : Task) :
  getTaskSchedule form task = (Threw, t) ->
  rescheduleOne scheduleTask form eventId now wh buf task entries st
  = ((task, entries),
     logLine st LogError ("Failed to reschedule task " +:+ title task +:+ ":")).
Proof.
  intros Hget. destruct (getTaskSchedule_threw _ _ _ Hget) as (-> & _ & _).
  unfold rescheduleOne. rewrite Hget. reflexivity.
Qed.

Lemma rescheduleOne_extends (form : DateForm) (eventId : string) (now : Z)
    (wh : WorkingHours) (buf : Q) (task : Task) (entries : list Change) (st : State) :
  extends st (snd (rescheduleOne scheduleTask form eventId now wh buf task entries st)).
Proof.
  destruct (getTaskSchedule form task) as [[old |] t] eqn:Hget.
  - destruct (rescheduleOne_returned form eventId now wh buf task entries st old t Hget)
      as (_ & _ & _ & Hext).
    eapply extends_trans; [| exact Hext]. apply allocate_calls.
  - rewrite (rescheduleOne_threw form eventId now wh buf task entries st t Hget).
    apply logLine_extends.
Qed.

Lemma rescheduleLoop_extends (formOf : Task -> DateForm) (eventId : string) (now : Z)
    (wh : WorkingHours) (buf : Q) (tasks : list Task) :
  forall (entries : list Change) (st : State),
    extends st (snd (rescheduleLoop scheduleTask formOf eventId now wh buf tasks entries st)).
Proof.
  induction tasks as [| task tasks IH]; intros entries st; [apply extends_refl |].
  cbn [rescheduleLoop]. unfold bind, ret.
  pose proof (rescheduleOne_extends (formOf task) eventId now wh buf task entries st) as H1.
  destruct (rescheduleOne scheduleTask (formOf task) eventId now wh buf task entries st)
    as [r1 st1].
  specialize (IH (snd r1) st1).
  destruct (rescheduleLoop scheduleTask formOf eventId now wh buf tasks (snd r1) st1)
    as [r2 st2].
  cbn [snd] in *. eapply extends_trans; eassumption.
Qed.




(** The entries of the loop body, spelled out. *)
Lemma entryOf_In (form : DateForm) (id : string) (old : option Window)
    (answer : option (list CalendarEvent)) (c : Change) :
  In c (entryOf form id old answer) <->
  form = DateObjects
  /\ exists o n blocks,
       old = Some o /\ answer = Some blocks /\ newWindow blocks = Some n
       /\ (win_start o <> win_start n \/ win_end o <> win_end n)
       /\ c = mkChange id o n.
Proof.
  unfold entryOf. split.
  - destruct form; [| intros []]. destruct old as [o |]; [| intros []].
    destruct answer as [blocks |]; [| intros []]. cbn [mbind option_bind].
    destruct (newWindow blocks) as [n |] eqn:Hn; [| intros []].
    destruct (windowsDiffer o n) eqn:Hd; [| intros []].
    intros [<- | []]. split; [reflexivity |]. exists o, n, blocks.
    apply windowsDiffer_true in Hd. auto.
  - intros (-> & o & n & blocks & -> & -> & Hn & Hd & ->).
    cbn [mbind option_bind]. rewrite Hn. apply windowsDiffer_true in Hd.
    rewrite Hd. left. reflexivity.
Qed.

Lemma entryOf_length (form : DateForm) (id : string) (old : option Window)
    (answer : option (list CalendarEvent)) :
  (length (entryOf form id old answer) <= 1)%nat.
Proof.
  unfold entryOf. destruct form, old, (answer ≫= newWindow); cbn; try lia.
  destruct (windowsDiffer _ _); cbn; lia.
Qed.


Lemma pass_hours (workingHours : option WorkingHours) (st : State) :
  match workingHours with
  | Some wh => wh
  | None =>
      match familytasks_user_settings (storage st) with
      | Some userSettings => settings_workingHours userSettings
      | None => getDefaultWorkingHours
      end
  end = default (hoursOf (storage st)) workingHours.
Proof. destruct workingHours; reflexivity. Qed.


End ReschedulerFacts.

Section LadderFacts.

Import RealtimeScheduler.

Variable scheduleTask : Allocator.

Lemma entryOf_no_answer (form : DateForm) (id : string) (old : option Window) :
  entryOf form id old None = [].
Proof. unfold entryOf. destruct form, old; reflexivity. Qed.

Lemma entryOf_no_window (form : DateForm) (id : string)
    (answer : option (list CalendarEvent)) :
  entryOf form id None answer = [].
Proof. unfold entryOf. destruct form; reflexivity. Qed.

(** The task and the entries the loop body gives back for an answer of the
    allocation step to a task without a window. *)
Lemma rescheduleOne_no_window (form : DateForm) (eventId : string) (now : Z)
    (wh : WorkingHours) (buf : Q) (task : Task) (entries : list Change) (st : State)
    (answer : option (list CalendarEvent)) (awaited : list SchedCall) :
  hasEvents task = false ->
  fst (allocate scheduleTask form task (estimateTaskTime task) wh buf st) = answer ->
  calls (snd (allocate scheduleTask form task (estimateTaskTime task) wh buf st))
  = awaited ->
  let r := rescheduleOne scheduleTask form eventId now wh buf task entries st in
  fst r = (match answer with
           | Some blocks => rescheduled task blocks now eventId
           | None => task
           end, entries)
  /\ calls (snd r) = awaited.
Proof.
  intros Hev Hans Hcalls.
  destruct (rescheduleOne_returned scheduleTask form eventId now wh buf task entries st
              None task (getTaskSchedule_no_events form task Hev))
    as (He & Ht & Hc & _).
  cbv zeta. rewrite Hans in He, Ht. rewrite Hcalls in Hc. split; [| exact Hc].
  destruct (rescheduleOne scheduleTask form eventId now wh buf task entries st)
    as [[t1 c1] st1].
  cbn [fst snd] in *. subst t1 c1. rewrite entryOf_no_window, app_nil_r. f_equal.
  destruct answer as [blocks |]; [| reflexivity]. unfold rescheduled.
  cbn [mbind option_bind default]. destruct (newWindow blocks), form; reflexivity.
Qed.

(** C3, as amended: when the strict allocation of a task fails, a task that
    already has blocks keeps them and no relaxation is tried; for a task
    without blocks (and with a deadline) the allocator is called again, in
    this order, (a) with the deadline moved 7 days later, (b) with the
    original task and the buffer [max(5, buffer / 2)], (c) with every phase
    duration multiplied by 0.7 and floored, stopping at the first call that
    succeeds; when all three fail the task and the recorded changes are left
    as they were.  In each case the loop goes on with the remaining tasks. *)
Theorem relaxation_ladder (form : DateForm) (eventId : string) (now : Z)
    (wh : WorkingHours) (buf : Q) (task : Task) (entries : list Change) (st : State)
    (old : option Window) :
  let t := snd (getTaskSchedule form task) in
  let est := estimateTaskTime t in
  let strict := mkCall form t est wh buf in
  let r := rescheduleOne scheduleTask form eventId now wh buf task entries st in
  fst (getTaskSchedule form task) = Returned old ->
  scheduleTask (calls st) strict = None ->
  (hasEvents task = true ->
   fst r = (t, entries) /\ calls (snd r) = calls st ++ [strict])
  /\ (hasEvents task = false ->
      forall due, dueDate task = Some due ->
        let a := mkCall form (setDueDate task (Some (due + 7 * msPerDay))) est wh buf in
        let b := mkCall form task est wh (Qmax 5 (buf / 2)) in
        let c := mkCall form task (reducedEstimation est) wh buf in
        t = task
        /\ (forall blocks, scheduleTask (calls st ++ [strict]) a = Some blocks ->
            fst r = (rescheduled task blocks now eventId, entries)
            /\ calls (snd r) = calls st ++ [strict; a])
        /\ (scheduleTask (calls st ++ [strict]) a = None ->
            (forall blocks, scheduleTask (calls st ++ [strict; a]) b = Some blocks ->
               fst r = (rescheduled task blocks now eventId, entries)
               /\ calls (snd r) = calls st ++ [strict; a; b])
            /\ (scheduleTask (calls st ++ [strict; a]) b = None ->
                (forall blocks,
                    scheduleTask (calls st ++ [strict; a; b]) c = Some blocks ->
                    fst r = (rescheduled task blocks now eventId, entries)
                    /\ calls (snd r) = calls st ++ [strict; a; b; c])
                /\ (scheduleTask (calls st ++ [strict; a; b]) c = None ->
                    fst r = (task, entries)
                    /\ calls (snd r) = calls st ++ [strict; a; b; c]))))
  /\ (forall formOf tasks,
        formOf task = form ->
        rescheduleLoop scheduleTask formOf eventId now wh buf (task :: tasks) entries st
        = let rest :=
            rescheduleLoop scheduleTask formOf eventId now wh buf tasks
              (snd (fst r)) (snd r) in
          ((fst (fst r) :: fst (fst rest), snd (fst rest)), snd rest)).
Proof.
  intros t est strict r Hold Hstrict. split; [| split].
  - intros Hev.
    assert (Hget : getTaskSchedule form task = (Returned old, t)).
    { unfold t. destruct (getTaskSchedule form task). cbn in *. congruence. }
    destruct (rescheduleOne_returned scheduleTask form eventId now wh buf task entries
                st old t Hget) as (He & Ht & Hc & _).
    fold est in He, Ht, Hc. fold r in He, Ht, Hc.
    assert (Hev' : hasEvents t = true)
      by (unfold t; rewrite getTaskSchedule_hasEvents; exact Hev).
    assert (Hal : allocate scheduleTask form t est wh buf st
                  = (None,
                     logLine
                       (logLine (withCalls st (calls st ++ [strict])) LogWarn
                          ("Cannot reschedule task " +:+ title t +:+ ": "))
                       LogInfo ("Keeping original schedule for task: " +:+ title t))).
    { unfold allocate, bind, awaitScheduleTask, log, ret. fold strict.
      rewrite Hstrict, Hev'. reflexivity. }
    rewrite Hal in He, Ht, Hc. cbn [fst snd mbind option_bind calls logLine withCalls]
      in He, Ht, Hc.
    split; [| exact Hc].
    destruct r as [[t1 c1] st1]. cbn [fst snd] in *. subst t1 c1.
    rewrite entryOf_no_answer, app_nil_r. reflexivity.
  - intros Hev due Hdue a b c.
    assert (Ht : t = task) by (unfold t; rewrite getTaskSchedule_no_events; auto).
    split; [exact Ht |].
    assert (Hest : est = estimateTaskTime task) by (unfold est; rewrite Ht; reflexivity).
    unfold r. clear r.
    assert (Hstrict' : scheduleTask (calls st) (mkCall form task est wh buf) = None)
      by (rewrite <- Ht; exact Hstrict).
    assert (Hs : strict = mkCall form task est wh buf) by (unfold strict; congruence).
    split; [| intros Ha; split; [| intros Hb; split]].
    + intros blocks Ha.
      apply (rescheduleOne_no_window form eventId now wh buf task entries st
               (Some blocks) _ Hev); rewrite <- Hest;
        unfold allocate, scheduleTaskWithRelaxedConstraints, bind, awaitScheduleTask,
          log, ret;
        rewrite Hstrict', Hev, Hdue; cbn [fst snd calls logLine withCalls];
        fold a; rewrite <- Hs, Ha; cbn [fst snd calls logLine withCalls];
        rewrite <- ?app_assoc; reflexivity.
    + intros blocks Hb.
      apply (rescheduleOne_no_window form eventId now wh buf task entries st
               (Some blocks) _ Hev); rewrite <- Hest;
        unfold allocate, scheduleTaskWithRelaxedConstraints, bind, awaitScheduleTask,
          log, ret, reducedBufferTime;
        rewrite Hstrict', Hev, Hdue; cbn [fst snd calls logLine withCalls];
        fold a; rewrite <- Hs, Ha; cbn [fst snd calls logLine withCalls];
        fold b; rewrite <- ?app_assoc; cbn [app]; rewrite Hb;
        cbn [fst snd calls logLine withCalls]; rewrite <- ?app_assoc; reflexivity.
    + intros blocks Hc.
      apply (rescheduleOne_no_window form eventId now wh buf task entries st
               (Some blocks) _ Hev); rewrite <- Hest;
        unfold allocate, scheduleTaskWithRelaxedConstraints, bind, awaitScheduleTask,
          log, ret, reducedBufferTime;
        rewrite Hstrict', Hev, Hdue; cbn [fst snd calls logLine withCalls];
        fold a; rewrite <- Hs, Ha; cbn [fst snd calls logLine withCalls];
        fold b; rewrite <- ?app_assoc; cbn [app]; rewrite Hb;
        cbn [fst snd calls logLine withCalls];
        fold c; rewrite <- ?app_assoc; cbn [app]; rewrite Hc;
        cbn [fst snd calls logLine withCalls]; rewrite <- ?app_assoc; reflexivity.
    + intros Hc.
      apply (rescheduleOne_no_window form eventId now wh buf task entries st
               None _ Hev); rewrite <- Hest;
        unfold allocate, scheduleTaskWithRelaxedConstraints, bind, awaitScheduleTask,
          log, ret, reducedBufferTime;
        rewrite Hstrict', Hev, Hdue; cbn [fst snd calls logLine withCalls];
        fold a; rewrite <- Hs, Ha; cbn [fst snd calls logLine withCalls];
        fold b; rewrite <- ?app_assoc; cbn [app]; rewrite Hb;
        cbn [fst snd calls logLine withCalls];
        fold c; rewrite <- ?app_assoc; cbn [app]; rewrite Hc;
        cbn [fst snd calls logLine withCalls]; rewrite <- ?app_assoc; reflexivity.
  - intros formOf tasks Hform. cbn [rescheduleLoop]. rewrite Hform.
    unfold bind, ret. fold r.
    destruct r as [[t1 c1] st1]. cbn [fst snd].
    destruct (rescheduleLoop scheduleTask formOf eventId now wh buf tasks c1 st1)
      as [[ts cs] st2].
    reflexivity.
Qed.

End LadderFacts.

(** C3 for a task of priority 3 without blocks whose every allocation
    fails: the four calls of the ladder, in order, the last one with the 90
    minutes of the estimation cut to 62, and the task left as it was. *)
Lemma relaxation_ladder_witness :
  let task := RealtimeScheduler.setDueDate (plainTask Prio3) (Some 0) in
  let est := RealtimeScheduler.estimateTaskTime task in
  let wh := RealtimeScheduler.getDefaultWorkingHours in
  let r :=
    RealtimeScheduler.rescheduleOne noRoom RealtimeScheduler.DateObjects "1" 1 wh 15
      task [] freshScheduler in
  fst (RealtimeScheduler.getTaskSchedule RealtimeScheduler.DateObjects task)
  = RealtimeScheduler.Returned None
  /\ noRoom [] (RealtimeScheduler.mkCall RealtimeScheduler.DateObjects task est wh 15)
     = None
  /\ RealtimeScheduler.hasEvents task = false
  /\ dueDate task = Some 0
  /\ (phases est, total est) = (mkPerPhase 18 27 36 9, 90)
  /\ (phases (RealtimeScheduler.reducedEstimation est),
      total (RealtimeScheduler.reducedEstimation est))
     = (mkPerPhase 12 18 25 6, 62)
  /\ fst r = (task, [])
  /\ RealtimeScheduler.calls (snd r)
     = [ RealtimeScheduler.mkCall RealtimeScheduler.DateObjects task est wh 15;
         RealtimeScheduler.mkCall RealtimeScheduler.DateObjects
           (RealtimeScheduler.setDueDate task
              (Some (0 + 7 * RealtimeScheduler.msPerDay)))
           est wh 15;
         RealtimeScheduler.mkCall RealtimeScheduler.DateObjects task est wh
           (Qmax 5 (15 / 2));
         RealtimeScheduler.mkCall RealtimeScheduler.DateObjects task
           (RealtimeScheduler.reducedEstimation est) wh 15 ].
Proof.
  intros task est wh r.
  split; [reflexivity |]. split; [reflexivity |]. split; [reflexivity |].
  split; [reflexivity |]. split; [vm_compute; reflexivity |].
  split; [vm_compute; reflexivity |].
  pose proof (relaxation_ladder noRoom RealtimeScheduler.DateObjects "1" 1 wh 15 task []
                freshScheduler None eq_refl eq_refl) as H.
  destruct H as [_ [H _]].
  destruct (H eq_refl 0 eq_refl) as [_ [_ H1]].
  destruct (H1 eq_refl) as [_ H2].
  destruct (H2 eq_refl) as [_ H3].
  exact (H3 eq_refl).
Defined.

(** C3, as stated, fails for a task that already has blocks.  On a
    Saturday, a task due on Sunday cannot be allocated (the weekend is not
    enabled), and with the deadline moved 7 days later it gets its four
    blocks on Monday; but the only allocator call made is the strict one,
    and the task keeps its old block. *)
Lemma relaxation_skipped_with_blocks :
  let task := scheduledTask sundayNoon in
  let est := RealtimeScheduler.estimateTaskTime task in
  let wh := RealtimeScheduler.getDefaultWorkingHours in
  let strict := RealtimeScheduler.mkCall RealtimeScheduler.DateObjects task est wh 15 in
  let extended :=
    RealtimeScheduler.mkCall RealtimeScheduler.DateObjects
      (RealtimeScheduler.setDueDate task (Some (sundayNoon + 7 * RealtimeScheduler.msPerDay)))
      est wh 15 in
  let r :=
    RealtimeScheduler.rescheduleOne weekendAllocator RealtimeScheduler.DateObjects "1"
      saturdayNoon wh 15 task [] freshScheduler in
  weekendAllocator [] strict = None
  /\ (exists blocks,
        weekendAllocator [strict] extended = Some blocks
        /\ List.map (fun b => (phase b, startTime b, endTime b)) blocks
           = [ (Incubation, at_ (7 * 24 + 9) 0, at_ (7 * 24 + 9) 12);
               (Design, at_ (7 * 24 + 9) 27, at_ (7 * 24 + 9) 45);
               (Implementation, at_ (7 * 24 + 10) 0, at_ (7 * 24 + 10) 24);
               (Improvement, at_ (7 * 24 + 10) 39, at_ (7 * 24 + 10) 45) ])
  /\ fst r = (task, [])
  /\ RealtimeScheduler.calls (snd r) = [strict].
Proof.
  split; [vm_compute; reflexivity |]. split.
  - eexists. split; vm_compute; reflexivity.
  - split; vm_compute; reflexivity.
Qed.



Section SingleFlight.

Import RealtimeScheduler.

Variable scheduleTask : Allocator.

Lemma calendarPasses_delete (l : list Activation) :
  forall (i : nat) a,
    l !! i = Some a ->
    length (List.filter isCalendarPass l)
    = ((if isCalendarPass a then 1 else 0)
       + length (List.filter isCalendarPass (delete i l)))%nat.
Proof.
  induction l as [| x l IH]; intros i a Hi; [discriminate |].
  destruct i as [| i]; cbn in Hi.
  - inversion Hi; subst. cbn. destruct (isCalendarPass a); reflexivity.
  - change (delete (S i) (x :: l)) with (x :: delete i l). cbn [List.filter].
    destruct (isCalendarPass x); cbn [length]; rewrite (IH i a Hi);
      destruct (isCalendarPass a); lia.
Qed.

Lemma rescheduleAffectedTasks_flag (formOf : Task -> DateForm) (tasks : list Task)
    (triggeredBy : Trigger) (wh : option WorkingHours) (buf : Q) (now : Z) (st : State) :
  reschedulingInProgress
    (snd (rescheduleAffectedTasks scheduleTask formOf tasks triggeredBy wh buf now st))
  = reschedulingInProgress st.
Proof.
  unfold rescheduleAffectedTasks.
  match goal with
  | |- context [rescheduleLoop scheduleTask formOf ?e ?n ?h buf tasks [] ?s] =>
      pose proof (rescheduleLoop_extends scheduleTask formOf e n h buf tasks [] s) as Hext;
      destruct (rescheduleLoop scheduleTask formOf e n h buf tasks [] s) as [[ts cs] st1]
  end.
  destruct Hext as (Hflag & _). exact Hflag.
Qed.

Lemma completeCalendarChange_flag (eventId : string) (now : Z) (st : State) :
  reschedulingInProgress (completeCalendarChange scheduleTask eventId now st) = false.
Proof.
  unfold completeCalendarChange. destruct (getAffectedTasks eventId (storage st)).
  reflexivity.
Qed.

Lemma step_guarded (a : Action) (p p' : Process) :
  guarded p -> step scheduleTask a p = Some p' -> guarded p'.
Proof.
  unfold guarded, calendarPasses. intros Hg Hstep.
  destruct a as [eventType eventId | form tasks wh | i now]; cbn [step] in Hstep.
  - unfold enterCalendarChange in Hstep.
    destruct (reschedulingInProgress (scheduler p)) eqn:Hflag;
      inversion Hstep; subst; cbn.
    + rewrite Hflag. destruct Hg as [[_ Hc] | [Hf _]]; [left; auto | discriminate].
    + destruct Hg as [[Hf _] | [_ Hc]]; [discriminate |]. left. rewrite Hc. auto.
  - inversion Hstep; subst; cbn. exact Hg.
  - destruct (inFlight p !! i) as [[eventId | form tasks wh] |] eqn:Hi;
      inversion Hstep; subst; cbn [scheduler inFlight];
      pose proof (calendarPasses_delete _ _ _ Hi) as Hdel; cbn [isCalendarPass] in Hdel.
    + rewrite completeCalendarChange_flag. right. split; [reflexivity |].
      destruct Hg as [[_ Hc] | [_ Hc]]; lia.
    + rewrite rescheduleAffectedTasks_flag.
      destruct Hg as [[Hf Hc] | [Hf Hc]]; [left | right]; split; auto; lia.
Qed.

Lemma run_guarded (actions : list Action) :
  forall p p', guarded p -> run scheduleTask actions p = Some p' -> guarded p'.
Proof.
  induction actions as [| a actions IH]; cbn [run]; intros p p' Hg Hrun.
  - inversion Hrun; subst. exact Hg.
  - destruct (step scheduleTask a p) as [p1 |] eqn:Hstep; [| discriminate].
    eapply IH; [eapply step_guarded; eassumption | exact Hrun].
Qed.

(** C8, as amended: a call of [handleCalendarChange] that finds the flag set
    only logs a line: no allocator call, no stored event, no notification,
    and the flag stays set.  Over all interleavings of passes started by
    [handleCalendarChange] and by the manual trigger, at most one pass
    started by [handleCalendarChange] is in flight, and the flag is set
    exactly while one is. *)
Theorem single_flight_guard :
  (forall eventType eventId calendarId now st,
      reschedulingInProgress st = true ->
      let st' := handleCalendarChange scheduleTask eventType eventId calendarId now st in
      st' = logLine st LogInfo "Rescheduling already in progress, skipping..."
      /\ storage st' = storage st
      /\ calls st' = calls st
      /\ delivered st' = delivered st
      /\ reschedulingInProgress st' = true)
  /\ (forall actions st p,
        run scheduleTask actions (idle st) = Some p ->
        (calendarPasses p <= 1)%nat
        /\ (reschedulingInProgress (scheduler p) = true <-> calendarPasses p = 1%nat)).
Proof.
  split.
  - intros eventType eventId calendarId now st Hflag st'.
    unfold st', handleCalendarChange, enterCalendarChange. rewrite Hflag.
    cbn. repeat split; auto.
  - intros actions st p Hrun.
    assert (Hg : guarded p).
    { eapply run_guarded; [| exact Hrun]. right. split; reflexivity. }
    destruct Hg as [[Hf Hc] | [Hf Hc]]; rewrite Hf, Hc; split; try lia;
      split; intros; congruence.
Qed.

(** Run without interruption, the steps of a pass of [handleCalendarChange]
    are the function itself. *)
Lemma handleCalendarChange_as_steps (eventType : ChangeKind)
    (eventId calendarId : string) (now : Z) (st : State) :
  reschedulingInProgress st = false ->
  run scheduleTask [CalendarTrigger eventType eventId; Resume 0 now]
    {| scheduler := st; inFlight := [] |}
  = Some {| scheduler := handleCalendarChange scheduleTask eventType eventId calendarId now st;
            inFlight := [] |}.
Proof.
  intros Hflag. unfold handleCalendarChange. cbn [run step scheduler inFlight].
  unfold enterCalendarChange. rewrite Hflag. reflexivity.
Qed.

End SingleFlight.

(** C8 for a scheduler whose flag is set. *)
Lemma single_flight_guard_witness :
  let st := RealtimeScheduler.withInProgress freshScheduler true in
  RealtimeScheduler.reschedulingInProgress st = true
  /\ RealtimeScheduler.handleCalendarChange noRoom RealtimeScheduler.updated
       "google-event-1" "primary" 1 st
     = RealtimeScheduler.logLine st LogInfo "Rescheduling already in progress, skipping...".
Proof.
  intros st. split; [reflexivity |].
  apply (proj1 (single_flight_guard noRoom) RealtimeScheduler.updated
           "google-event-1" "primary" 1 st eq_refl).
Defined.

(** C8, as stated, fails process-wide: the manual trigger starts a pass
    while a pass of [handleCalendarChange] is in flight, and
    [handleCalendarChange] starts one while a manual pass is in flight; in
    both orders two passes are in flight at once. *)
Lemma two_passes_in_flight :
  (exists p,
      RealtimeScheduler.run noRoom
        [ RealtimeScheduler.CalendarTrigger RealtimeScheduler.updated "google-event-1";
          RealtimeScheduler.ManualTrigger (fun _ => RealtimeScheduler.DateObjects)
            [scheduledTask 0] RealtimeScheduler.getDefaultWorkingHours ]
        (RealtimeScheduler.idle freshScheduler) = Some p
      /\ length (RealtimeScheduler.inFlight p) = 2%nat)
  /\ (exists p,
        RealtimeScheduler.run noRoom
          [ RealtimeScheduler.ManualTrigger (fun _ => RealtimeScheduler.DateObjects)
              [scheduledTask 0] RealtimeScheduler.getDefaultWorkingHours;
            RealtimeScheduler.CalendarTrigger RealtimeScheduler.updated "google-event-1" ]
          (RealtimeScheduler.idle freshScheduler) = Some p
        /\ length (RealtimeScheduler.inFlight p) = 2%nat).
Proof. split; eexists; split; reflexivity. Qed.

(** ** Learning store: invariants, estimates, persistence *)

Section LearningInvariants.

Import LearningEngine.

Lemma relativeError_nonneg (e a : Z) :
  0 < Z.max e a -> (0 <= inject_Z (Z.abs (e - a)) / inject_Z (Z.max e a))%Q.
Proof.
  intros Hm. apply Qle_shift_div_l.
  - change 0%Q with (inject_Z 0). rewrite <- Zlt_Qlt. exact Hm.
  - rewrite Qmult_0_l. change 0%Q with (inject_Z 0). rewrite <- Zle_Qle. lia.
Qed.

Lemma relativeError_zero (e a : Z) :
  0 < Z.max e a ->
  (inject_Z (Z.abs (e - a)) / inject_Z (Z.max e a) == 0)%Q <-> e = a.
Proof.
  intros Hm. split.
  - intros H.
    assert (Hz : (inject_Z (Z.abs (e - a)) == 0)%Q).
    { rewrite <- (Qmult_div_r (inject_Z (Z.abs (e - a))) (inject_Z (Z.max e a))).
      - rewrite H. ring.
      - change 0%Q with (inject_Z 0). rewrite inject_Z_injective. lia. }
    change 0%Q with (inject_Z 0) in Hz. rewrite inject_Z_injective in Hz. lia.
  - intros ->. rewrite Z.sub_diag. cbn [Z.abs]. unfold Qdiv. apply Qmult_0_l.
Qed.

Lemma accuracy_bounds (estimation : TaskEstimation) (actual : PerPhase Z) :
  0 <= total estimation -> 0 <= sumValues actual ->
  (0 <= calculateEstimationAccuracy estimation actual
   /\ calculateEstimationAccuracy estimation actual <= 1)%Q.
Proof.
  intros He Ha. unfold calculateEstimationAccuracy.
  set (e := total estimation) in *. set (a := sumValues actual) in *.
  destruct (Z.eqb_spec e 0) as [He0 | He0], (Z.eqb_spec a 0) as [Ha0 | Ha0];
    cbn [andb orb]; try (split; discriminate).
  pose proof (relativeError_nonneg e a ltac:(lia)) as Hr.
  split; [apply Q.le_max_l |]. apply Q.max_lub; [discriminate | lra].
Qed.

Lemma accuracy_perfect (estimation : TaskEstimation) (actual : PerPhase Z) :
  0 <= total estimation -> 0 <= sumValues actual ->
  (calculateEstimationAccuracy estimation actual == 1)%Q
  <-> total estimation = sumValues actual.
Proof.
  intros He Ha. unfold calculateEstimationAccuracy.
  set (e := total estimation) in *. set (a := sumValues actual) in *.
  destruct (Z.eqb_spec e 0) as [He0 | He0], (Z.eqb_spec a 0) as [Ha0 | Ha0];
    cbn [andb orb].
  - split; [lia | reflexivity].
  - split; [discriminate | lia].
  - split; [discriminate | lia].
  - assert (Hm : 0 < Z.max e a) by lia.
    pose proof (relativeError_nonneg e a Hm) as Hr.
    pose proof (relativeError_zero e a Hm) as Hz.
    set (r := (inject_Z (Z.abs (e - a)) / inject_Z (Z.max e a))%Q) in *.
    rewrite <- Hz. split.
    + intros H. destruct (Q.max_spec 0 (1 - r)) as [[_ Hx] | [_ Hx]];
        rewrite Hx in H; [lra | discriminate H].
    + intros H. rewrite Q.max_r by lra. lra.
Qed.

(** X1: for an estimated total and an actual total that are not negative,
    the accuracy of an observation lies between 0 and 1, and it is 1 exactly
    when the two totals are equal. *)
Theorem accuracy_range_and_perfect (estimation : TaskEstimation) (actual : PerPhase Z) :
  0 <= total estimation -> 0 <= sumValues actual ->
  (0 <= calculateEstimationAccuracy estimation actual
   /\ calculateEstimationAccuracy estimation actual <= 1)%Q
  /\ ((calculateEstimationAccuracy estimation actual == 1)%Q
      <-> total estimation = sumValues actual).
Proof.
  intros He Ha. split; [apply accuracy_bounds | apply accuracy_perfect]; assumption.
Qed.


Lemma createInitialLearningData_inUnitRange (user type : string) (now : Z) :
  inUnitRange (createInitialLearningData user type now).
Proof. unfold inUnitRange. cbn. repeat split; discriminate. Qed.

(** The share of one phase in the guarded total of non-negative minutes. *)
Lemma fraction_in_unit (actual : PerPhase Z) (a : Z) :
  nonNegative actual ->
  0 <= a <= sumValues actual ->
  let actualTotal := if sumValues actual =? 0 then 1 else sumValues actual in
  (0 <= inject_Z a / inject_Z actualTotal <= 1)%Q.
Proof.
  intros (N1 & N2 & N3 & N4) [Ha0 Ha1]. cbv zeta.
  set (actualTotal := if sumValues actual =? 0 then 1 else sumValues actual).
  assert (Ht : 0 < actualTotal /\ a <= actualTotal).
  { unfold actualTotal. destruct (Z.eqb_spec (sumValues actual) 0); lia. }
  destruct Ht as [Ht Hle]. split.
  - apply fraction_nonneg; assumption.
  - apply Qle_shift_div_r.
    + rewrite <- (Zlt_Qlt 0). exact Ht.
    + rewrite Qmult_1_l. rewrite <- Zle_Qle. exact Hle.
Qed.

Lemma updateRecord_inUnitRange (ld : LearningData) (history : TaskHistory) (now : Z) :
  inUnitRange ld ->
  0 <= total (originalEstimation history) ->
  nonNegative (h_actualTime history) ->
  inUnitRange (updateRecord ld history now).
Proof.
  intros (Ha & Hu & Ho & H1 & H2 & H3 & H4) He Hn.
  pose proof Hn as (N1 & N2 & N3 & N4).
  assert (Hsum : 0 <= sumValues (h_actualTime history)) by (unfold sumValues; lia).
  destruct (accuracy_bounds _ _ He Hsum) as [Hacc0 Hacc1].
  pose proof (fraction_in_unit _ (incubation (h_actualTime history)) Hn
                ltac:(unfold sumValues; lia)) as F1.
  pose proof (fraction_in_unit _ (design (h_actualTime history)) Hn
                ltac:(unfold sumValues; lia)) as F2.
  pose proof (fraction_in_unit _ (implementation (h_actualTime history)) Hn
                ltac:(unfold sumValues; lia)) as F3.
  pose proof (fraction_in_unit _ (improvement (h_actualTime history)) Hn
                ltac:(unfold sumValues; lia)) as F4.
  cbv zeta in F1, F2, F3, F4.
  unfold inUnitRange. cbv zeta. unfold updateRecord.
  cbn [estimationAccuracy commonPatterns underestimationRate overestimationRate
         phaseDistribution incubation design implementation improvement].
  set (acc := calculateEstimationAccuracy _ _) in *.
  set (a := sumValues (h_actualTime history)) in *.
  repeat apply conj;
    try (destruct (_ <? a); [| destruct (a <? _)]; cbn [fst snd]);
    unfold alpha; lra.
Qed.

(** X2: when the numbers of every record of the learning store lie in the
    unit interval (the accuracy, the two rates and each phase fraction are
    between 0 and 1), they do so again after [recordActualTime] for a task
    whose estimation has a non-negative total and an actual-time record
    without negative entries; the numbers of a new record lie there. *)
Theorem recordActualTime_keeps_records_in_unit_range (task : Task)
    (actual : PerPhase Z) (reason : string) (now : Z) (st : State) :
  (forall k ld, learningData st !! k = Some ld -> inUnitRange ld) ->
  0 <= total (default getDefaultEstimation (estimation task)) ->
  nonNegative actual ->
  forall k ld,
    learningData (snd (recordActualTime task actual reason now st)) !! k = Some ld ->
    inUnitRange ld.
Proof.
  intros Hall He Hn k ld. unfold recordActualTime, updateLearningData.
  cbn [snd learningData saveLearningData saveTaskHistory].
  destruct (decide (k = classifyTask task)) as [-> | Hk].
  - rewrite lookup_insert_eq. intros [= <-].
    apply updateRecord_inUnitRange; [| exact He | exact Hn].
    unfold recordFor.
    destruct (learningData st !! classifyTask task) as [ld0 |] eqn:Hl.
    + apply (Hall _ _ Hl).
    + apply createInitialLearningData_inUnitRange.
  - rewrite lookup_insert_ne by congruence. apply Hall.
Qed.

End LearningInvariants.

Section LearningEstimates.

Import LearningEngine.





(** X4: whatever the learning store, the total of the estimation of a task
    grows strictly with its priority number: priority 1 gives less than
    priority 2, which gives less than priority 3, and all are positive. *)
Theorem estimate_total_grows_with_priority (learning : gmap string LearningData)
    (task : Task) :
  let t p := total (getImprovedEstimation learning (setPriority task p)) in
  0 < t Prio1 /\ t Prio1 < t Prio2 /\ t Prio2 < t Prio3.
Proof.
  intros t. unfold t, getImprovedEstimation.
  change (classifyTask (setPriority task Prio1)) with (classifyTask task).
  change (classifyTask (setPriority task Prio2)) with (classifyTask task).
  change (classifyTask (setPriority task Prio3)) with (classifyTask task).
  cbn [priority setPriority].
  destruct (learning !! classifyTask task) as [ld |].
  - cbn [total redistributePhases].
    destruct (Qlt_le_dec 0.6 (underestimationRate (commonPatterns ld)));
      [| destruct (Qlt_le_dec 0.6 (overestimationRate (commonPatterns ld)))];
      vm_compute; repeat split; reflexivity.
  - vm_compute. repeat split; reflexivity.
Qed.

End LearningEstimates.

Section LearningStore.

Import LearningEngine.

Lemma foldr_insert_list_to_map (l : list (string * LearningData)) :
  Forall (fun kv => taskType kv.2 = kv.1) l ->
  fold_right (fun item m => <[taskType item := item]> m)
    (∅ : gmap string LearningData) l.*2
  = list_to_map l.
Proof.
  induction 1 as [| [k v] l Hk _ IH]; [reflexivity |].
  cbn in *. rewrite IH, Hk. reflexivity.
Qed.

Lemma load_saved (m : gmap string LearningData) :
  keyed m ->
  fold_left (fun m item => <[taskType item := item]> m) (map_to_list m).*2 ∅ = m.
Proof.
  intros Hk.
  rewrite <- (fold_left_rev_right (fun item m => <[taskType item := item]> m)).
  change (rev (map_to_list m).*2) with (rev (List.map snd (map_to_list m))).
  rewrite <- map_rev.
  change (List.map snd (rev (map_to_list m))) with (rev (map_to_list m)).*2.
  rewrite foldr_insert_list_to_map.
  - rewrite <- (list_to_map_to_list m) at 2.
    apply list_to_map_proper.
    + change ((rev (map_to_list m)).*1) with (List.map fst (rev (map_to_list m))).
      rewrite map_rev. apply NoDup_ListNoDup, NoDup_rev, NoDup_ListNoDup.
      apply NoDup_fst_map_to_list.
    + symmetry. apply Permutation_rev.
  - apply Forall_forall. intros [k v] Hin. cbn.
    apply Hk. apply elem_of_map_to_list.
    apply list_elem_of_In. apply in_rev. apply list_elem_of_In. exact Hin.
Qed.

Lemma create_keyed (s : LocalStorage) : keyed (learningData (create s)).
Proof.
  unfold create, loadLearningData. cbn [storage learningData].
  destruct (familytasks_learning_data s) as [data |]; cbn [learningData].
  - assert (H : forall (m0 : gmap string LearningData),
               keyed m0 ->
               keyed (fold_left (fun m item => <[taskType item := item]> m) data m0)).
    { induction data as [| item data IH]; intros m0 Hm0; [exact Hm0 |].
      cbn [fold_left]. apply IH. intros k ld.
      destruct (decide (k = taskType item)) as [-> | Hne].
      - rewrite lookup_insert_eq. intros [= <-]. reflexivity.
      - rewrite lookup_insert_ne by congruence. apply Hm0. }
    apply H. intros k ld. rewrite lookup_empty. discriminate.
  - intros k ld. rewrite lookup_empty. discriminate.
Qed.

Lemma recordActualTime_keyed (task : Task) (actual : PerPhase Z) (reason : string)
    (now : Z) (st : State) :
  keyed (learningData st) ->
  keyed (learningData (snd (recordActualTime task actual reason now st))).
Proof.
  intros Hk k ld. unfold recordActualTime, updateLearningData.
  cbn [snd learningData saveLearningData saveTaskHistory].
  destruct (decide (k = classifyTask task)) as [-> | Hne].
  - rewrite lookup_insert_eq. intros [= <-]. unfold updateRecord. cbn [taskType].
    unfold recordFor.
    destruct (learningData st !! classifyTask task) as [ld0 |] eqn:Hl.
    + apply (Hk _ _ Hl).
    + reflexivity.
  - rewrite lookup_insert_ne by congruence. apply Hk.
Qed.

(** X5: when every record of the map is stored under its own [taskType],
    this is still so after [recordActualTime], and an engine created from
    the storage written by that call holds exactly the map the call left in
    memory. *)
Theorem learning_store_round_trip (task : Task) (actual : PerPhase Z) (reason : string)
    (now : Z) (st : State) :
  keyed (learningData st) ->
  let st' := snd (recordActualTime task actual reason now st) in
  keyed (learningData st')
  /\ learningData (create (storage st')) = learningData st'.
Proof.
  intros Hk st'. pose proof (recordActualTime_keyed task actual reason now st Hk) as Hk'.
  fold st' in Hk'. split; [exact Hk' |].
  unfold create, loadLearningData. cbn [storage learningData].
  assert (Hs : familytasks_learning_data (storage st')
               = Some (map_to_list (learningData st')).*2) by reflexivity.
  rewrite Hs. cbn [learningData]. apply load_saved. exact Hk'.
Qed.

Lemma insights_sum_bounds (l : list LearningData) (acc : Q) :
  Forall (fun ld => 0 <= estimationAccuracy ld /\ estimationAccuracy ld <= 1)%Q l ->
  (acc <= fold_left (fun acc data => acc + estimationAccuracy data) l acc
   /\ fold_left (fun acc data => acc + estimationAccuracy data) l acc
      <= acc + inject_Z (Z.of_nat (length l)))%Q.
Proof.
  intros H. revert acc. induction H as [| ld l [H0 H1] _ IH]; intros acc.
  - cbn [fold_left length]. change (inject_Z (Z.of_nat 0)) with 0%Q. split; lra.
  - cbn [fold_left length]. destruct (IH (acc + estimationAccuracy ld)%Q) as [IH0 IH1].
    rewrite Nat2Z.inj_succ. unfold Z.succ. rewrite inject_Z_plus.
    change (inject_Z 1) with 1%Q. split; lra.
Qed.

(** X6: when every stored accuracy lies between 0 and 1, so does the
    overall accuracy of [getLearningInsights]; it is 0 for an empty store;
    and the task types listed are exactly the keys of the store. *)
Theorem insights_overall_accuracy_range (st : State) :
  (forall k ld, learningData st !! k = Some ld ->
                (0 <= estimationAccuracy ld /\ estimationAccuracy ld <= 1)%Q) ->
  (0 <= overallAccuracy (getLearningInsights st)
   /\ overallAccuracy (getLearningInsights st) <= 1)%Q
  /\ (learningData st = ∅ -> overallAccuracy (getLearningInsights st) = 0%Q)
  /\ forall k, k ∈ taskTypes (getLearningInsights st) <-> is_Some (learningData st !! k).
Proof.
  intros Hall. unfold getLearningInsights. cbn [overallAccuracy taskTypes].
  split; [| split].
  - assert (HF : Forall (fun ld => 0 <= estimationAccuracy ld /\ estimationAccuracy ld <= 1)%Q
                   (map_to_list (learningData st)).*2).
    { apply Forall_forall. intros ld Hin. apply list_elem_of_fmap in Hin.
      destruct Hin as [[k v] [-> Hin]]. apply elem_of_map_to_list in Hin.
      apply (Hall _ _ Hin). }
    destruct (insights_sum_bounds _ 0 HF) as [S0 S1].
    rewrite !length_fmap in *.
    set (n := length (map_to_list (learningData st))) in *.
    set (sum := fold_left _ _ _) in *.
    destruct (Nat.ltb_spec 0 n) as [Hn | Hn]; [| split; discriminate].
    assert (Hq : (0 < inject_Z (Z.of_nat n))%Q).
    { change 0%Q with (inject_Z 0). rewrite <- Zlt_Qlt. lia. }
    split.
    + apply Qle_shift_div_l; [exact Hq | lra].
    + apply Qle_shift_div_r; [exact Hq | lra].
  - intros He. rewrite He, map_to_list_empty. reflexivity.
  - intros k. rewrite list_elem_of_fmap. split.
    + intros [[k' v] [-> Hin]]. apply elem_of_map_to_list in Hin. cbn. eauto.
    + intros [v Hv]. exists (k, v). split; [reflexivity |].
      apply elem_of_map_to_list. exact Hv.
Qed.

End LearningStore.

Section LearningFrame.

Import LearningEngine.

(** X7: [recordActualTime] leaves the record of every other category as
    it was, leaves a record for the task's own category, persists the values
    of the map it holds, and does not touch the stored rescheduling events,
    tasks or user settings. *)
Theorem recordActualTime_other_categories (task : Task) (actual : PerPhase Z)
    (reason : string) (now : Z) (st : State) :
  let st' := snd (recordActualTime task actual reason now st) in
  (forall k, k <> classifyTask task -> learningData st' !! k = learningData st !! k)
  /\ is_Some (learningData st' !! classifyTask task)
  /\ familytasks_learning_data (storage st') = Some (map_to_list (learningData st')).*2
  /\ familytasks_rescheduling_events (storage st')
     = familytasks_rescheduling_events (storage st)
  /\ familytasks_tasks (storage st') = familytasks_tasks (storage st)
  /\ familytasks_user_settings (storage st') = familytasks_user_settings (storage st).
Proof.
  cbv zeta. unfold recordActualTime, updateLearningData.
  cbn [snd learningData storage saveLearningData saveTaskHistory
         familytasks_learning_data familytasks_rescheduling_events familytasks_tasks
         familytasks_user_settings].
  repeat split.
  - intros k Hk. apply lookup_insert_ne. congruence.
  - rewrite lookup_insert_eq. eauto.
Qed.

End LearningFrame.

(** X1 at the default estimation of 60 minutes against 120 actual minutes:
    the accuracy is 0.5. *)
Lemma accuracy_range_and_perfect_witness :
  0 <= total LearningEngine.getDefaultEstimation
  /\ 0 <= LearningEngine.sumValues (mkPerPhase 30 30 30 30)
  /\ (LearningEngine.calculateEstimationAccuracy LearningEngine.getDefaultEstimation
        (mkPerPhase 30 30 30 30)%Z == 0.5)%Q
  /\ ((0 <= LearningEngine.calculateEstimationAccuracy
              LearningEngine.getDefaultEstimation (mkPerPhase 30 30 30 30)%Z
       /\ LearningEngine.calculateEstimationAccuracy
            LearningEngine.getDefaultEstimation (mkPerPhase 30 30 30 30)%Z <= 1)%Q
      /\ ((LearningEngine.calculateEstimationAccuracy
             LearningEngine.getDefaultEstimation (mkPerPhase 30 30 30 30)%Z == 1)%Q
          <-> total LearningEngine.getDefaultEstimation
              = LearningEngine.sumValues (mkPerPhase 30 30 30 30))).
Proof.
  split; [vm_compute; discriminate |].
  split; [vm_compute; discriminate |].
  split; [vm_compute; reflexivity |].
  apply (accuracy_range_and_perfect LearningEngine.getDefaultEstimation
           (mkPerPhase 30 30 30 30)); vm_compute; discriminate.
Defined.

(** X2 on the empty engine: the numbers of the record created by the first
    recording lie in the unit interval. *)
Lemma recordActualTime_keeps_records_in_unit_range_witness :
  0 <= total (default LearningEngine.getDefaultEstimation (estimation (plainTask Prio2)))
  /\ nonNegative (mkPerPhase 30 30 30 30)
  /\ exists ld,
       LearningEngine.learningData learnedOnce !! "その他" = Some ld /\ inUnitRange ld.
Proof.
  split; [vm_compute; discriminate |].
  split; [unfold nonNegative; cbn; lia |].
  eexists. split; [apply updateLearningData_lookup |].
  eapply (recordActualTime_keeps_records_in_unit_range (plainTask Prio2)
            (mkPerPhase 30 30 30 30) "user_manual" 0 emptyEngine).
  - intros k ld. cbn. rewrite lookup_empty. discriminate.
  - vm_compute. discriminate.
  - unfold nonNegative. cbn. lia.
  - apply updateLearningData_lookup.
Defined.


(** X5 on the empty engine: the engine created from the storage written by
    the first recording holds the same map. *)
Lemma learning_store_round_trip_witness :
  keyed (LearningEngine.learningData emptyEngine)
  /\ keyed (LearningEngine.learningData learnedOnce)
  /\ LearningEngine.learningData
       (LearningEngine.create (LearningEngine.storage learnedOnce))
     = LearningEngine.learningData learnedOnce.
Proof.
  assert (Hk : keyed (LearningEngine.learningData emptyEngine)).
  { intros k ld. cbn. rewrite lookup_empty. discriminate. }
  split; [exact Hk |].
  apply (learning_store_round_trip (plainTask Prio2) (mkPerPhase 30 30 30 30)
           "user_manual" 0 emptyEngine Hk).
Defined.

(** X6 on an engine holding the initial record of one category: one task
    type, and an overall accuracy between 0 and 1. *)
Lemma insights_overall_accuracy_range_witness :
  (0 <= LearningEngine.overallAccuracy (LearningEngine.getLearningInsights seededEngine)
   /\ LearningEngine.overallAccuracy (LearningEngine.getLearningInsights seededEngine)
      <= 1)%Q
  /\ "その他" ∈ LearningEngine.taskTypes (LearningEngine.getLearningInsights seededEngine).
Proof.
  assert (Hall : forall k ld,
             LearningEngine.learningData seededEngine !! k = Some ld ->
             (0 <= estimationAccuracy ld /\ estimationAccuracy ld <= 1)%Q).
  { intros k ld Hl. change (oneRecord !! k = Some ld) in Hl. unfold oneRecord in Hl.
    apply lookup_singleton_Some in Hl. destruct Hl as [_ <-].
    cbn. split; discriminate. }
  destruct (insights_overall_accuracy_range seededEngine Hall) as (Hrange & _ & Hkeys).
  split; [exact Hrange |]. apply Hkeys.
  exists (LearningEngine.createInitialLearningData "default" "その他" 0).
  apply (lookup_singleton_eq (M := gmap string)).
Defined.

(** ** Allocator and finder: conservation, errors, placement, free slots *)

Section AllocatorFacts.

Import Scheduler.

(** Closes the cases in which a loop places nothing. *)
Ltac nothing_placed :=
  cbn [fillSlot fillSlots fst snd]; unfold minutesOf; cbn [fold_right]; lra.

Lemma minutesOf_app (p : Phase) (l1 l2 : list CalendarEvent) :
  (minutesOf p (l1 ++ l2) == minutesOf p l1 + minutesOf p l2)%Q.
Proof.
  induction l1 as [| b l1 IH].
  - cbn [app]. unfold minutesOf at 2. cbn [fold_right]. lra.
  - cbn [app]. unfold minutesOf at 1 2. cbn [fold_right].
    fold (minutesOf p (l1 ++ l2)). fold (minutesOf p l1).
    destruct (samePhase (phase b) p); rewrite IH; lra.
Qed.

Lemma afterAllocation_workOf (p ph : Phase) (d t : Q) (rest : list PhaseWork) :
  (t <= d)%Q ->
  (workOf p (afterAllocation ph d t rest) + (if samePhase ph p then t else 0)
   == workOf p ((ph, d) :: rest))%Q.
Proof.
  intros Ht. unfold afterAllocation.
  destruct (Qle_bool_cases (d - t) 0) as [[-> Hc] | [-> Hc]];
    unfold workOf; cbn [fold_right fst snd];
    destruct (samePhase ph p); lra.
Qed.

(** A block cut for a whole number of half minutes lasts exactly that. *)
Lemma blockMinutes_cut (b : CalendarEvent) (t : Q) :
  halfMinutes t ->
  endTime b = newDate (inject_Z (startTime b) + t * 60 * 1000) ->
  (blockMinutes b == t)%Q.
Proof.
  intros Ht He. unfold blockMinutes, msPerMinute.
  pose proof (newDate_plus (startTime b) t Ht) as Hend. rewrite <- He in Hend.
  unfold Z.sub. rewrite inject_Z_plus, inject_Z_opp, Hend.
  change (inject_Z (60 * 1000)) with (60 * 1000)%Q. field.
Qed.

(** The minutes placed in a slot and the minutes left add up to the minutes
    the slot was entered with, phase by phase. *)
Lemma fillSlot_conserves (task : Task) (now : Z) (bufferTime : Q) (p : Phase)
    (fuel : nat) :
  halfMinutes bufferTime ->
  forall ps s r,
    allHalves ps -> halfMinutes r ->
    (minutesOf p (fst (fillSlot fuel task now bufferTime ps s r))
     + workOf p (snd (fillSlot fuel task now bufferTime ps s r))
     == workOf p ps)%Q.
Proof.
  intros Hhb. induction fuel as [| fuel IH]; intros ps s r Hhalf Hhr; [nothing_placed |].
  cbn [fillSlot]. destruct ps as [| [ph d] rest]; [nothing_placed |].
  destruct (Qle_bool 30 r); [| nothing_placed].
  inversion Hhalf as [| ? ? Hhd Hhrest]; subst. cbn [snd] in Hhd.
  fold (afterAllocation ph d (Qmin d r) rest).
  assert (Hht : halfMinutes (Qmin d r)) by (apply halfMinutes_min; assumption).
  set (t := Qmin d r) in *.
  specialize (IH (afterAllocation ph d t rest)
                (newDate (inject_Z (newDate (inject_Z s + t * 60 * 1000))
                          + bufferTime * 60 * 1000))
                (r - (t + bufferTime))%Q
                (afterAllocation_halves ph d t rest Hhd Hht Hhrest)
                ltac:(apply halfMinutes_minus; [exact Hhr |];
                      apply halfMinutes_plus; assumption)).
  destruct (fillSlot fuel task now bufferTime _ _ _) as [events remaining].
  cbn [fst snd] in *. unfold minutesOf at 1. cbn [fold_right phase].
  fold (minutesOf p events).
  pose proof (afterAllocation_workOf p ph d t rest ltac:(apply Q.le_min_l)) as HA.
  match goal with
  | |- context [blockMinutes ?b] =>
      pose proof (blockMinutes_cut b t Hht eq_refl) as Hb;
      set (m := blockMinutes b) in *
  end.
  unfold PhaseWork in *. destruct (samePhase ph p); lra.
Qed.

Lemma fillSlots_halves (task : Task) (now : Z) (bufferTime : Q) (slots : list TimeSlot) :
  halfMinutes bufferTime ->
  forall ps, allHalves ps -> allHalves (snd (fillSlots task now bufferTime slots ps)).
Proof.
  intros Hhb. induction slots as [| slot slots IH]; intros ps Hhalf; [exact Hhalf |].
  cbn [fillSlots]. destruct ps as [| w ps']; [constructor |].
  pose proof (fillSlot_halves task now bufferTime (fuelFor (w :: ps')) Hhb (w :: ps')
                (slot_start slot) (inject_Z (duration slot)) Hhalf
                (halfMinutes_inject _)) as H2.
  destruct (fillSlot _ task now bufferTime (w :: ps') _ _) as [events remaining].
  cbn [snd] in *. specialize (IH remaining H2).
  destruct (fillSlots task now bufferTime slots remaining) as [events' remaining'].
  exact IH.
Qed.

Lemma fillSlots_conserves (task : Task) (now : Z) (bufferTime : Q) (p : Phase)
    (slots : list TimeSlot) :
  halfMinutes bufferTime ->
  forall ps,
    allHalves ps ->
    (minutesOf p (fst (fillSlots task now bufferTime slots ps))
     + workOf p (snd (fillSlots task now bufferTime slots ps))
     == workOf p ps)%Q.
Proof.
  intros Hhb. induction slots as [| slot slots IH]; intros ps Hhalf;
    [nothing_placed |].
  cbn [fillSlots]. destruct ps as [| w ps']; [nothing_placed |].
  pose proof (fillSlot_conserves task now bufferTime p (fuelFor (w :: ps')) Hhb
                (w :: ps') (slot_start slot) (inject_Z (duration slot)) Hhalf
                (halfMinutes_inject _)) as H1.
  pose proof (fillSlot_halves task now bufferTime (fuelFor (w :: ps')) Hhb (w :: ps')
                (slot_start slot) (inject_Z (duration slot)) Hhalf
                (halfMinutes_inject _)) as H2.
  destruct (fillSlot _ task now bufferTime (w :: ps') _ _) as [events remaining].
  specialize (IH remaining H2).
  destruct (fillSlots task now bufferTime slots remaining) as [events' remaining'].
  cbn [fst snd] in *. rewrite minutesOf_app. unfold PhaseWork in *. lra.
Qed.

Lemma phasesOf_workOf (estimation : TaskEstimation) (p : Phase) :
  (workOf p (phasesOf estimation) == inject_Z (Z.max 0 (estimated estimation p)))%Q.
Proof.
  unfold phasesOf.
  repeat (rewrite filter_cons; cbn [snd]).
  rewrite filter_nil.
  repeat case_decide; destruct p; cbn [workOf List.map fold_right fst snd samePhase
    phaseRank Z.eqb Pos.eqb estimated];
    repeat match goal with
           | H : 0 < ?x |- _ => rewrite (Z.max_r 0 x) by lia; clear H
           | H : ~ 0 < ?x |- _ => rewrite (Z.max_l 0 x) by lia; clear H
           end;
    change (inject_Z 0) with 0%Q; lra.
Qed.

(** Every block placed in a slot is a block of the task. *)
Lemma fillSlot_blockOf (task : Task) (now : Z) (bufferTime : Q) (fuel : nat) :
  halfMinutes bufferTime ->
  forall ps s r,
    allPositive ps -> allHalves ps -> halfMinutes r ->
    Forall (blockOf task) (fst (fillSlot fuel task now bufferTime ps s r)).
Proof.
  intros Hhb. induction fuel as [| fuel IH]; intros ps s r Hpos Hhalf Hhr;
    [constructor |].
  cbn [fillSlot]. destruct ps as [| [ph d] rest]; [constructor |].
  destruct (Qle_bool_cases 30 r) as [[-> Hr] | [-> Hr]]; [| constructor].
  inversion Hpos as [| ? ? Hd Hrest]; subst. cbn [snd] in Hd.
  inversion Hhalf as [| ? ? Hhd Hhrest]; subst. cbn [snd] in Hhd.
  fold (afterAllocation ph d (Qmin d r) rest).
  destruct (allocation_facts d r Hd Hr Hhd Hhr) as (Ht0 & Htr & Htd & Hht).
  set (t := Qmin d r) in *.
  specialize (IH (afterAllocation ph d t rest)
                (newDate (inject_Z (newDate (inject_Z s + t * 60 * 1000))
                          + bufferTime * 60 * 1000))
                (r - (t + bufferTime))%Q
                (afterAllocation_positive ph d t rest Hrest)
                (afterAllocation_halves ph d t rest Hhd Hht Hhrest)
                ltac:(apply halfMinutes_minus; [exact Hhr |];
                      apply halfMinutes_plus; assumption)).
  destruct (fillSlot fuel task now bufferTime _ _ _) as [events remaining].
  cbn [fst] in *. constructor; [| exact IH].
  unfold blockOf. cbn [ev_taskId startTime endTime].
  split; [reflexivity |]. split.
  - pose proof (newDate_plus s t Hht). rewrite Zlt_Qlt. lra.
  - eapply halfMinutes_eq; [| exact Hht]. symmetry.
    apply blockMinutes_cut; [exact Hht | reflexivity].
Qed.

Lemma fillSlots_blockOf (task : Task) (now : Z) (bufferTime : Q) (slots : list TimeSlot) :
  halfMinutes bufferTime ->
  forall ps,
    allPositive ps -> allHalves ps ->
    Forall (blockOf task) (fst (fillSlots task now bufferTime slots ps)).
Proof.
  intros Hhb. induction slots as [| slot slots IH]; intros ps Hpos Hhalf;
    [constructor |].
  cbn [fillSlots]. destruct ps as [| w ps']; [constructor |].
  pose proof (fillSlot_blockOf task now bufferTime (fuelFor (w :: ps')) Hhb (w :: ps')
                (slot_start slot) (inject_Z (duration slot)) Hpos Hhalf
                (halfMinutes_inject _)) as H1.
  pose proof (fillSlot_positive task now bufferTime (fuelFor (w :: ps')) (w :: ps')
                (slot_start slot) (inject_Z (duration slot)) Hpos) as H2.
  pose proof (fillSlot_halves task now bufferTime (fuelFor (w :: ps')) Hhb (w :: ps')
                (slot_start slot) (inject_Z (duration slot)) Hhalf
                (halfMinutes_inject _)) as H3.
  destruct (fillSlot _ task now bufferTime (w :: ps') _ _) as [events remaining].
  cbn [fst snd] in *. specialize (IH remaining H2 H3).
  destruct (fillSlots task now bufferTime slots remaining) as [events' remaining'].
  cbn [fst] in *. apply Forall_app. split; assumption.
Qed.

(** X8: for a buffer that is a whole number of half minutes (the whole
    minutes of the settings, or their half in the relaxed scheduler), when
    [scheduleTask] returns blocks, the minutes of the blocks of each phase
    add up to the minutes the estimation gives that phase (none for a phase
    estimated at zero or less), and every block carries the task's id, ends
    after it starts and lasts a whole number of half minutes. *)
Theorem scheduleTask_conserves_minutes (provider : Provider) (now : Z) (task : Task)
    (estimation : TaskEstimation) (wh : WorkingHours) (bufferTime : Q)
    (calendarId : string) (blocks : list CalendarEvent) :
  halfMinutes bufferTime ->
  scheduleTask provider now task estimation wh bufferTime calendarId = Scheduled blocks ->
  (forall p, (minutesOf p blocks == inject_Z (Z.max 0 (estimated estimation p)))%Q)
  /\ Forall (blockOf task) blocks.
Proof.
  intros Hhb Hres. unfold scheduleTask in Hres.
  destruct (dueDate task) as [due |]; [| discriminate].
  destruct (findAvailableTimeSlots provider now due wh bufferTime calendarId)
    as [slots log].
  pose proof (fun p => fillSlots_conserves task now bufferTime p slots Hhb
                         (phasesOf estimation) (phasesOf_halves estimation)) as Hcons.
  pose proof (fillSlots_blockOf task now bufferTime slots Hhb (phasesOf estimation)
                (phasesOf_positive estimation) (phasesOf_halves estimation)) as Hblocks.
  destruct (fillSlots task now bufferTime slots (phasesOf estimation))
    as [events remaining].
  cbn [fst snd] in *. destruct remaining as [| w remaining]; [| discriminate].
  inversion Hres; subst. split; [| exact Hblocks].
  intros p. specialize (Hcons p). cbn [workOf fold_right] in Hcons.
  rewrite phasesOf_workOf in Hcons. lra.
Qed.

End AllocatorFacts.

Section PlacementFacts.

Import Scheduler.

Lemma totalWork_workOf (ps : list PhaseWork) :
  (totalWork ps
   == workOf Incubation ps + workOf Design ps + workOf Implementation ps
      + workOf Improvement ps)%Q.
Proof.
  induction ps as [| [ph d] ps IH]; [reflexivity |].
  rewrite totalWork_cons, IH. unfold workOf. cbn [fold_right fst snd].
  destruct ph; cbn; lra.
Qed.

Lemma afterAllocation_work_le (p ph : Phase) (d t : Q) (rest : list PhaseWork) :
  (0 <= t)%Q -> (0 < d)%Q ->
  (workOf p (afterAllocation ph d t rest) <= workOf p ((ph, d) :: rest))%Q.
Proof.
  intros Ht Hd. unfold afterAllocation.
  destruct (Qle_bool_cases (d - t) 0) as [[-> Hc] | [-> Hc]];
    unfold workOf; cbn [fold_right fst snd];
    destruct (samePhase ph p); lra.
Qed.

(** The work left after a slot is no more than the work it was entered with,
    phase by phase. *)
Lemma fillSlot_work_le (task : Task) (now : Z) (bufferTime : Q) (p : Phase)
    (fuel : nat) :
  forall ps s r,
    allPositive ps ->
    (workOf p (snd (fillSlot fuel task now bufferTime ps s r)) <= workOf p ps)%Q.
Proof.
  induction fuel as [| fuel IH]; intros ps s r Hpos; [cbn [fillSlot snd]; lra |].
  cbn [fillSlot]. destruct ps as [| [ph d] rest]; [cbn [snd]; lra |].
  destruct (Qle_bool_cases 30 r) as [[-> Hr] | [-> Hr]]; [| cbn [snd]; lra].
  inversion Hpos as [| ? ? Hd Hrest]; subst. cbn [snd] in Hd.
  fold (afterAllocation ph d (Qmin d r) rest).
  assert (Ht : (0 <= Qmin d r)%Q).
  { destruct (Q.min_spec d r) as [[_ H] | [_ H]]; rewrite H; lra. }
  specialize (IH (afterAllocation ph d (Qmin d r) rest)
                (newDate (inject_Z (newDate (inject_Z s + Qmin d r * 60 * 1000))
                          + bufferTime * 60 * 1000))
                (r - (Qmin d r + bufferTime))%Q
                (afterAllocation_positive ph d _ rest Hrest)).
  pose proof (afterAllocation_work_le p ph d (Qmin d r) rest Ht Hd) as HA.
  destruct (fillSlot fuel task now bufferTime _ _ _) as [events remaining].
  cbn [snd] in *. unfold PhaseWork in *. lra.
Qed.

Lemma fillSlots_positive (task : Task) (now : Z) (bufferTime : Q) (slots : list TimeSlot) :
  forall ps,
    allPositive ps -> allPositive (snd (fillSlots task now bufferTime slots ps)).
Proof.
  induction slots as [| slot slots IH]; intros ps Hpos; [exact Hpos |].
  cbn [fillSlots]. destruct ps as [| w ps']; [constructor |].
  pose proof (fillSlot_positive task now bufferTime (fuelFor (w :: ps')) (w :: ps')
                (slot_start slot) (inject_Z (duration slot)) Hpos) as H2.
  destruct (fillSlot _ task now bufferTime (w :: ps') _ _) as [events remaining].
  cbn [snd] in *. specialize (IH remaining H2).
  destruct (fillSlots task now bufferTime slots remaining) as [events' remaining'].
  exact IH.
Qed.

Lemma fillSlots_work_le (task : Task) (now : Z) (bufferTime : Q) (p : Phase)
    (slots : list TimeSlot) :
  forall ps,
    allPositive ps ->
    (workOf p (snd (fillSlots task now bufferTime slots ps)) <= workOf p ps)%Q.
Proof.
  induction slots as [| slot slots IH]; intros ps Hpos; [cbn [fillSlots snd]; lra |].
  cbn [fillSlots]. destruct ps as [| w ps']; [cbn [snd]; lra |].
  pose proof (fillSlot_work_le task now bufferTime p (fuelFor (w :: ps')) (w :: ps')
                (slot_start slot) (inject_Z (duration slot)) Hpos) as H1.
  pose proof (fillSlot_positive task now bufferTime (fuelFor (w :: ps')) (w :: ps')
                (slot_start slot) (inject_Z (duration slot)) Hpos) as H2.
  destruct (fillSlot _ task now bufferTime (w :: ps') _ _) as [events remaining].
  cbn [snd] in *. specialize (IH remaining H2).
  destruct (fillSlots task now bufferTime slots remaining) as [events' remaining'].
  cbn [snd] in *. unfold PhaseWork in *. lra.
Qed.

(** X9: [scheduleTask] throws in two cases only.  Without a due date it
    throws at once.  Otherwise the error reports the minutes that found no
    room, which are positive and at most the minutes of the positive phases
    of the estimation, next to the total of the durations of the slots the
    finder returned. *)
Theorem scheduleTask_errors (provider : Provider) (now : Z) (task : Task)
    (estimation : TaskEstimation) (wh : WorkingHours) (bufferTime : Q)
    (calendarId : string) (error : ScheduleError) :
  scheduleTask provider now task estimation wh bufferTime calendarId = Thrown error ->
  (dueDate task = None /\ error = MissingDueDate)
  \/ exists due r,
       dueDate task = Some due
       /\ error
          = NotEnoughTime r
              (fold_left (fun sum slot => sum + duration slot)
                 (fst (findAvailableTimeSlots provider now due wh bufferTime calendarId))
                 0)
       /\ (0 < r)%Q
       /\ (r <= inject_Z (Z.max 0 (estimated estimation Incubation)
                          + Z.max 0 (estimated estimation Design)
                          + Z.max 0 (estimated estimation Implementation)
                          + Z.max 0 (estimated estimation Improvement)))%Q.
Proof.
  intros Hres. unfold scheduleTask in Hres.
  destruct (dueDate task) as [due |]; [right | left; split; congruence].
  exists due.
  destruct (findAvailableTimeSlots provider now due wh bufferTime calendarId)
    as [slots log].
  pose proof (fun p => fillSlots_work_le task now bufferTime p slots
                         (phasesOf estimation) (phasesOf_positive estimation)) as Hle.
  pose proof (fillSlots_positive task now bufferTime slots (phasesOf estimation)
                (phasesOf_positive estimation)) as Hpos.
  destruct (fillSlots task now bufferTime slots (phasesOf estimation))
    as [events remaining].
  cbn [fst snd] in *. destruct remaining as [| w remaining]; [discriminate |].
  inversion Hres; subst. eexists. split; [reflexivity | split; [reflexivity |]].
  split.
  - rewrite totalWork_cons. inversion Hpos as [| ? ? Hw Hrest]; subst.
    pose proof (totalWork_nonneg remaining Hrest). lra.
  - rewrite totalWork_workOf.
    pose proof (Hle Incubation) as C1. pose proof (Hle Design) as C2.
    pose proof (Hle Implementation) as C3. pose proof (Hle Improvement) as C4.
    rewrite phasesOf_workOf in C1, C2, C3, C4.
    rewrite !inject_Z_plus. unfold PhaseWork in *. lra.
Qed.

Lemma fillSlot_within (task : Task) (now : Z) (bufferTime : Q) (fuel : nat)
    (ps : list PhaseWork) (s : Z) (r : Z) (b : CalendarEvent) :
  (0 <= bufferTime)%Q -> halfMinutes bufferTime -> allPositive ps -> allHalves ps ->
  In b (fst (fillSlot fuel task now bufferTime ps s (inject_Z r))) ->
  30 <= r /\ s <= startTime b /\ startTime b < endTime b
  /\ endTime b <= s + Z.max 0 r * msPerMinute.
Proof.
  intros Hbuf Hhb Hpos Hhalf Hin. split.
  - destruct (Z.lt_ge_cases r 30) as [Hsmall |]; [| lia].
    rewrite (fillSlot_short fuel task now bufferTime ps s (inject_Z r)) in Hin.
    + destruct Hin.
    + change 30%Q with (inject_Z 30). rewrite <- Zlt_Qlt. exact Hsmall.
  - destruct (usableEnd_bounds (mkTimeSlot s s r)) as [Hu1 Hu2].
    unfold usableEnd in Hu1, Hu2. cbn [slot_start duration] in Hu1, Hu2.
    pose proof (fillSlot_chain task now bufferTime fuel Hbuf Hhb ps s (inject_Z r)
                  (s + Z.max 0 r * msPerMinute) Hpos Hhalf (halfMinutes_inject _)
                  Hu1 Hu2) as Hchain.
    destruct (blocksChain_In _ _ _ _ Hchain Hin) as (H1 & H2 & H3). lia.
Qed.

Lemma fillSlots_within (task : Task) (now : Z) (bufferTime : Q) (slots : list TimeSlot)
    (b : CalendarEvent) :
  (0 <= bufferTime)%Q -> halfMinutes bufferTime ->
  forall ps,
    allPositive ps -> allHalves ps ->
    In b (fst (fillSlots task now bufferTime slots ps)) ->
    exists slot,
      In slot slots /\ 30 <= duration slot
      /\ slot_start slot <= startTime b /\ startTime b < endTime b
      /\ endTime b <= usableEnd slot.
Proof.
  intros Hbuf Hhb. induction slots as [| slot slots IH]; intros ps Hpos Hhalf Hin;
    [destruct Hin |].
  cbn [fillSlots] in Hin. destruct ps as [| w ps']; [destruct Hin |].
  pose proof (fillSlot_within task now bufferTime (fuelFor (w :: ps')) (w :: ps')
                (slot_start slot) (duration slot) b Hbuf Hhb Hpos Hhalf) as H1.
  pose proof (fillSlot_positive task now bufferTime (fuelFor (w :: ps')) (w :: ps')
                (slot_start slot) (inject_Z (duration slot)) Hpos) as H2.
  pose proof (fillSlot_halves task now bufferTime (fuelFor (w :: ps')) Hhb (w :: ps')
                (slot_start slot) (inject_Z (duration slot)) Hhalf
                (halfMinutes_inject _)) as H3.
  destruct (fillSlot _ task now bufferTime (w :: ps') _ _) as [events remaining].
  cbn [fst snd] in *. specialize (IH remaining H2 H3).
  destruct (fillSlots task now bufferTime slots remaining) as [events' remaining'].
  cbn [fst] in *. apply in_app_or in Hin. destruct Hin as [Hin | Hin].
  - exists slot. split; [left; reflexivity |]. unfold usableEnd.
    destruct (H1 Hin) as (? & ? & ? & ?). repeat split; assumption.
  - destruct (IH Hin) as (slot' & Hs & Hrest). exists slot'.
    split; [right; exact Hs | exact Hrest].
Qed.

Lemma slotsChain_In (slots : list TimeSlot) :
  forall lo hi slot,
    slotsChain lo slots hi -> In slot slots ->
    lo <= slot_start slot /\ usableEnd slot <= hi.
Proof.
  induction slots as [| s slots IH]; intros lo hi slot Hchain Hin; [destruct Hin |].
  destruct Hchain as [Hlo Hchain].
  assert (Hs : slot_start s <= usableEnd s) by (unfold usableEnd, msPerMinute; lia).
  destruct Hin as [<- | Hin].
  - split; [exact Hlo |]. apply (slotsChain_le _ _ _ Hchain).
  - destruct (IH _ _ _ Hchain Hin). lia.
Qed.

(** Every slot of a range comes from an enabled day of the range. *)
Lemma findSlotsFrom_origin (provider : Provider) (endDate : Z) (wh : WorkingHours)
    (bufferTime : Q) (calendarId : string) (slot : TimeSlot) :
  forall (days : nat) currentDate,
    In slot (fst (findSlotsFrom days provider currentDate endDate wh bufferTime calendarId)) ->
    exists k : nat,
      let date := currentDate + Z.of_nat k * msPerDay in
      let config := dayConfig wh (getDayOfWeek date) in
      date <= endDate /\ enabled config = true
      /\ In slot (fst (findDayAvailableSlots provider date (day_start config)
                         (day_end config) bufferTime calendarId)).
Proof.
  induction days as [| days IH]; intros currentDate Hin; [destruct Hin |].
  cbn [findSlotsFrom] in Hin.
  destruct (Z.leb_spec currentDate endDate) as [Hle |]; [| destruct Hin].
  specialize (IH (currentDate + msPerDay)).
  destruct (findSlotsFrom days provider (currentDate + msPerDay) endDate wh
              bufferTime calendarId) as [rest log'].
  destruct (enabled (dayConfig wh (getDayOfWeek currentDate))) eqn:Hen.
  - destruct (findDayAvailableSlots provider currentDate _ _ bufferTime calendarId)
      as [daySlots log] eqn:Hday.
    cbn [fst] in *. apply in_app_or in Hin. destruct Hin as [Hin | Hin].
    + exists 0%nat. cbv zeta. rewrite Z.mul_0_l, Z.add_0_r.
      split; [exact Hle | split; [exact Hen |]]. rewrite Hday. exact Hin.
    + destruct (IH Hin) as (k & Hk). exists (S k). cbv zeta in *.
      replace (currentDate + Z.of_nat (S k) * msPerDay)
        with (currentDate + msPerDay + Z.of_nat k * msPerDay) by lia.
      exact Hk.
  - cbn [fst app] in *. destruct (IH Hin) as (k & Hk). exists (S k). cbv zeta in *.
    replace (currentDate + Z.of_nat (S k) * msPerDay)
      with (currentDate + msPerDay + Z.of_nat k * msPerDay) by lia.
    exact Hk.
Qed.

(** X10: for a buffer that is a non-negative whole number of half minutes
    and a provider whose answers meet the queried window, every block
    [scheduleTask] returns has a positive length and lies inside the working
    window of an enabled day among the days the finder visits from [now]
    while they are not after the due date. *)
Theorem blocks_within_working_hours (provider : Provider) (now : Z) (task : Task)
    (estimation : TaskEstimation) (wh : WorkingHours) (bufferTime : Q)
    (calendarId : string) (due : Z) (blocks : list CalendarEvent) (b : CalendarEvent) :
  (0 <= bufferTime)%Q -> halfMinutes bufferTime -> meetsWindow provider ->
  dueDate task = Some due ->
  scheduleTask provider now task estimation wh bufferTime calendarId = Scheduled blocks ->
  In b blocks ->
  exists k : nat,
    let date := now + Z.of_nat k * msPerDay in
    let config := dayConfig wh (getDayOfWeek date) in
    date <= due /\ enabled config = true
    /\ setHours date (day_start config) <= startTime b
    /\ startTime b < endTime b
    /\ endTime b <= setHours date (day_end config).
Proof.
  intros Hbuf Hhb Hmeets Hdue Hres Hin. unfold scheduleTask in Hres.
  rewrite Hdue in Hres.
  unfold findAvailableTimeSlots in Hres.
  pose proof (findSlotsFrom_origin provider due wh bufferTime calendarId) as Horigin.
  specialize (fun slot => Horigin slot (daysInRange now due) now).
  destruct (findSlotsFrom (daysInRange now due) provider now due wh bufferTime calendarId)
    as [slots log].
  cbn [fst] in Horigin.
  pose proof (fillSlots_within task now bufferTime slots b Hbuf Hhb (phasesOf estimation)
                (phasesOf_positive estimation) (phasesOf_halves estimation)) as Hwithin.
  destruct (fillSlots task now bufferTime slots (phasesOf estimation))
    as [events remaining].
  cbn [fst snd] in *. destruct remaining as [| w remaining]; [| discriminate].
  inversion Hres; subst.
  destruct (Hwithin Hin) as (slot & Hslot & Hlong & Hs & Hpos & He).
  destruct (Horigin slot Hslot) as (k & Hdate & Hen & Hday). exists k. cbv zeta in *.
  set (date := now + Z.of_nat k * msPerDay) in *.
  set (config := dayConfig wh (getDayOfWeek date)) in *.
  pose proof (findDayAvailableSlots_chain provider date (day_start config)
                (day_end config) bufferTime calendarId Hbuf Hmeets) as Hchain.
  destruct (slotsChain_In _ _ _ _ Hchain Hday) as [Hlo Hhi].
  repeat split; try assumption; lia.
Qed.

End PlacementFacts.

Section FreeSlotFacts.

Import Scheduler.

Lemma gapStep_wellCut (bufferTime : Q) (st : Z * list TimeSlot) (e : Busy) :
  Forall wellCut (snd st) -> Forall wellCut (snd (gapStep bufferTime st e)).
Proof.
  destruct st as [cur slots]. intros H. unfold gapStep. cbn [snd].
  set (stop := newDate (inject_Z (busy_start e) - bufferTime * 60 * 1000)).
  destruct (cur <? busy_start e); [| exact H].
  destruct (Z.ltb_spec cur stop); [| exact H].
  destruct (Z.leb_spec 30 ((stop - cur) / (60 * 1000))); [| exact H].
  apply Forall_app. split; [exact H |]. constructor; [| constructor].
  unfold wellCut. cbn. repeat split; lia.
Qed.

Lemma gapLoop_wellCut (bufferTime : Q) (events : list Busy) :
  forall st,
    Forall wellCut (snd st) ->
    Forall wellCut (snd (fold_left (gapStep bufferTime) events st)).
Proof.
  induction events as [| e events IH]; intros st H; [exact H |].
  cbn [fold_left]. apply IH. apply gapStep_wellCut. exact H.
Qed.

(** X11: on a day for which the provider answers, every slot of
    [findDayAvailableSlots] lasts at least 30 minutes, its duration is the
    floor of the minutes between its start and its end, and it starts before
    it ends. *)
Theorem free_slots_at_least_30_minutes (provider : Provider) (date : Z)
    (startTime endTime : TimeOfDay) (bufferTime : Q) (calendarId : string)
    (items : list RawEvent) :
  provider calendarId (setHours date startTime) (setHours date endTime) = Some items ->
  Forall wellCut
    (fst (findDayAvailableSlots provider date startTime endTime bufferTime calendarId)).
Proof.
  intros Hq. unfold findDayAvailableSlots, getEvents. rewrite Hq.
  pose proof (gapLoop_wellCut bufferTime (sortBy busy_start (omap toBusy items))
                (setHours date startTime, []) ltac:(constructor)) as Hloop.
  destruct (fold_left _ _ _) as [cur slots]. cbn [fst snd] in *.
  destruct (Z.ltb_spec cur (setHours date endTime)); [| exact Hloop].
  destruct (Z.leb_spec 30 ((setHours date endTime - cur) / (60 * 1000))); [| exact Hloop].
  apply Forall_app. split; [exact Hloop |]. constructor; [| constructor].
  unfold wellCut. cbn. repeat split; lia.
Qed.

Lemma gapLoop_clear (bufferTime : Q) (todo : list Busy) :
  halfMinutes bufferTime ->
  forall (done : list Busy) (cur : Z) (slots : list TimeSlot),
    (forall d t, In d done -> In t todo ->
                 busy_start d <= busy_start t /\ busy_end d <= busy_end t) ->
    ascending busy_start todo -> ascending busy_end todo ->
    (forall d, In d done ->
               (inject_Z (busy_end d) + bufferTime * 60 * 1000 <= inject_Z cur)%Q) ->
    (forall s e, In s slots -> In e (done ++ todo) ->
                 clearOf bufferTime s (busy_start e) (busy_end e)) ->
    let r := fold_left (gapStep bufferTime) todo (cur, slots) in
    (forall d, In d (done ++ todo) ->
               (inject_Z (busy_end d) + bufferTime * 60 * 1000 <= inject_Z (fst r))%Q)
    /\ (forall s e, In s (snd r) -> In e (done ++ todo) ->
                    clearOf bufferTime s (busy_start e) (busy_end e)).
Proof.
  intros Hhb.
  induction todo as [| e0 todo IH]; intros done cur slots Hcross Hs He Hdone Hclear.
  - cbn. rewrite app_nil_r in *. split; assumption.
  - cbn [fold_left]. destruct Hs as [Hs0 Hs]. destruct He as [He0 He].
    rewrite Forall_forall in Hs0, He0.
    assert (Happ : done ++ e0 :: todo = (done ++ [e0]) ++ todo)
      by (rewrite <- app_assoc; reflexivity).
    rewrite Happ.
    pose proof (newDate_minus (busy_start e0) bufferTime Hhb) as Hstop.
    pose proof (newDate_plus (busy_end e0) bufferTime Hhb) as Hnext.
    set (stop := newDate (inject_Z (busy_start e0) - bufferTime * 60 * 1000)) in *.
    set (next := newDate (inject_Z (busy_end e0) + bufferTime * 60 * 1000)) in *.
    change (gapStep bufferTime (cur, slots) e0)
      with (next,
            if cur <? busy_start e0 then
              if cur <? stop then
                if 30 <=? (stop - cur) / (60 * 1000)
                then slots ++ [mkTimeSlot cur stop ((stop - cur) / (60 * 1000))]
                else slots
              else slots
            else slots).
    apply IH.
    + intros d t Hd Ht. apply in_app_or in Hd. destruct Hd as [Hd | [<- | []]].
      * apply Hcross; [exact Hd | right; exact Ht].
      * apply list_elem_of_In in Ht. split; [apply Hs0 | apply He0]; exact Ht.
    + exact Hs.
    + exact He.
    + intros d Hd. apply in_app_or in Hd. destruct Hd as [Hd | [<- | []]]; [| lra].
      destruct (Hcross d e0 Hd ltac:(left; reflexivity)) as [_ Hle].
      rewrite Zle_Qle in Hle. lra.
    + intros s e Hin He'. rewrite <- Happ in He'.
      assert (Hcase : In s slots \/ (slot_start s = cur /\ slot_end s = stop)).
      { destruct (cur <? busy_start e0); [| left; exact Hin].
        destruct (cur <? stop); [| left; exact Hin].
        destruct (30 <=? _); [| left; exact Hin].
        apply in_app_or in Hin.
        destruct Hin as [Hin | [<- | []]]; [left; exact Hin | right].
        split; reflexivity. }
      destruct Hcase as [Hold | [Hstart Hend]]; [apply Hclear; assumption |].
      unfold clearOf. rewrite Hstart, Hend.
      apply in_app_or in He'. destruct He' as [Hd | [<- | Ht]].
      * right. apply Hdone. exact Hd.
      * left. lra.
      * left. apply list_elem_of_In in Ht. specialize (Hs0 e Ht).
        rewrite Zle_Qle in Hs0. lra.
Qed.

Lemma ascending_ends (l : list Busy) :
  ascending busy_start l ->
  (forall a b, In a l -> In b l -> busy_start a <= busy_start b ->
               busy_end a <= busy_end b) ->
  ascending busy_end l.
Proof.
  induction l as [| x l IH]; intros Hasc Hmono; [exact I |].
  destruct Hasc as [Hx Hasc]. split.
  - rewrite Forall_forall in Hx |- *. intros y Hy.
    apply Hmono; [left; reflexivity | right; apply list_elem_of_In; exact Hy |].
    apply Hx. exact Hy.
  - apply IH; [exact Hasc |]. intros a b Ha Hb. apply Hmono; right; assumption.
Qed.

Lemma sorted_busy_origin (items : list RawEvent) (e : Busy) :
  In e (sortBy busy_start (omap toBusy items)) <->
  exists raw, In raw items /\ raw_start raw = Some (busy_start e)
              /\ raw_end raw = Some (busy_end e).
Proof.
  split.
  - intros He. eapply Permutation_in in He; [| symmetry; apply sortBy_perm].
    apply list_elem_of_In, list_elem_of_omap in He. destruct He as [raw [Hraw Hb]].
    exists raw. split; [apply list_elem_of_In; exact Hraw |].
    unfold toBusy in Hb.
    destruct (raw_start raw) as [s |]; [| discriminate].
    destruct (raw_end raw) as [t |]; [| discriminate].
    inversion Hb; subst. split; reflexivity.
  - intros (raw & Hraw & Hs & Ht).
    eapply Permutation_in; [apply sortBy_perm |].
    apply list_elem_of_In, list_elem_of_omap. exists raw.
    split; [apply list_elem_of_In; exact Hraw |].
    unfold toBusy. rewrite Hs, Ht. destruct e; reflexivity.
Qed.

(** X12: for a buffer that is a whole number of half minutes, on a day for
    which the provider answers with timed events whose ends are ordered like
    their starts, every slot of [findDayAvailableSlots] keeps clear of every
    timed event of the answer: it ends at least the buffer before the event
    starts, or starts at least the buffer after the event ends. *)
Theorem free_slots_clear_of_events (provider : Provider) (date : Z)
    (startTime endTime : TimeOfDay) (bufferTime : Q) (calendarId : string)
    (items : list RawEvent) (slot : TimeSlot) (event : RawEvent) (s e : Z) :
  halfMinutes bufferTime ->
  provider calendarId (setHours date startTime) (setHours date endTime) = Some items ->
  endsFollowStarts items ->
  In slot (fst (findDayAvailableSlots provider date startTime endTime bufferTime
                  calendarId)) ->
  In event items -> raw_start event = Some s -> raw_end event = Some e ->
  clearOf bufferTime slot s e.
Proof.
  intros Hhb Hq Hmono Hslot Hev Hs He.
  unfold findDayAvailableSlots, getEvents in Hslot. rewrite Hq in Hslot.
  set (sorted := sortBy busy_start (omap toBusy items)) in *.
  assert (Hb : In (mkBusy s e) sorted).
  { apply sorted_busy_origin. exists event. cbn. auto. }
  assert (Hasc : ascending busy_start sorted) by apply sortBy_ascending.
  assert (Hends : ascending busy_end sorted).
  { apply ascending_ends; [exact Hasc |]. intros a b Ha Hb' Hab.
    apply sorted_busy_origin in Ha, Hb'.
    destruct Ha as (ra & Hra & Hsa & Hea). destruct Hb' as (rb & Hrb & Hsb & Heb).
    apply (Hmono ra rb _ _ _ _ Hra Hrb Hsa Hea Hsb Heb Hab). }
  pose proof (gapLoop_clear bufferTime sorted Hhb [] (setHours date startTime) []
                ltac:(intros d t []) Hasc Hends ltac:(intros d [])
                ltac:(intros s0 e0 [])) as Hloop.
  cbv zeta in Hloop. cbn [app] in Hloop.
  destruct (fold_left _ _ _) as [cur slots]. cbn [fst snd] in *.
  destruct Hloop as [Hcur Hclear].
  assert (Hold : In slot slots -> clearOf bufferTime slot s e).
  { intros Hin. apply (Hclear slot (mkBusy s e) Hin Hb). }
  destruct (cur <? setHours date endTime); [| auto].
  destruct (30 <=? _); [| auto].
  apply in_app_or in Hslot. destruct Hslot as [Hin | [<- | []]]; [auto |].
  right. cbn. apply (Hcur (mkBusy s e) Hb).
Qed.

End FreeSlotFacts.

Section AvailabilityFacts.

Import Scheduler.

Lemma find_first_in_chain (f : TimeSlot -> bool) (x : TimeSlot) (slots : list TimeSlot) :
  forall lo hi,
    slotsChain lo slots hi -> List.find f slots = Some x ->
    In x slots /\ f x = true
    /\ forall y, In y slots -> f y = true -> slot_start x <= slot_start y.
Proof.
  induction slots as [| s slots IH]; intros lo hi Hchain Hfind; [discriminate |].
  destruct Hchain as [Hlo Hchain]. cbn [List.find] in Hfind.
  destruct (f s) eqn:Hfs.
  - injection Hfind as <-. split; [left; reflexivity | split; [exact Hfs |]].
    intros y [<- | Hy] _; [lia |].
    destruct (slotsChain_In _ _ _ _ Hchain Hy) as [Hy' _].
    unfold usableEnd, msPerMinute in Hy'. lia.
  - destruct (IH _ _ Hchain Hfind) as (Hin & Hfx & Hfirst).
    split; [right; exact Hin | split; [exact Hfx |]].
    intros y [<- | Hy] Hfy; [congruence |]. apply Hfirst; assumption.
Qed.

(** X13: [getNextAvailableSlot] searches the slots of the seven days from
    [now].  It returns a slot of at least the wanted minutes that starts no
    later than any other such slot, and it returns nothing exactly when no
    slot is long enough. *)
Theorem getNextAvailableSlot_earliest_fit (provider : Provider) (now minutes : Z)
    (wh : WorkingHours) (bufferTime : Q) (calendarId : string) :
  (0 <= bufferTime)%Q -> validWorkingHours wh -> meetsWindow provider ->
  let slots :=
    fst (findAvailableTimeSlots provider now (now + 7 * 24 * 60 * 60 * 1000) wh
           bufferTime calendarId) in
  match getNextAvailableSlot provider now minutes wh bufferTime calendarId with
  | Some slot =>
      In slot slots /\ minutes <= duration slot
      /\ forall other, In other slots -> minutes <= duration other ->
                       slot_start slot <= slot_start other
  | None => forall slot, In slot slots -> duration slot < minutes
  end.
Proof.
  intros Hbuf Hwh Hmeets slots. unfold getNextAvailableSlot.
  unfold slots, findAvailableTimeSlots.
  pose proof (findSlotsFrom_chain provider (now + 7 * 24 * 60 * 60 * 1000) wh bufferTime
                calendarId (daysInRange now (now + 7 * 24 * 60 * 60 * 1000))
                Hbuf Hwh Hmeets now) as Hchain.
  destruct (findSlotsFrom _ provider now _ wh bufferTime calendarId) as [found log].
  cbn [fst] in *.
  destruct (List.find (fun slot => minutes <=? duration slot) found) as [slot |] eqn:Hfind.
  - destruct (find_first_in_chain _ _ _ _ _ Hchain Hfind) as (Hin & Hfit & Hfirst).
    split; [exact Hin | split; [lia |]].
    intros other Hother Hlong. apply Hfirst; [exact Hother | lia].
  - intros slot Hin. pose proof (find_none _ _ Hfind slot Hin) as Hno.
    cbn beta in Hno. lia.
Qed.



End AvailabilityFacts.

Section ConflictFacts.

Import RealtimeScheduler.



End ConflictFacts.

(** X8 on the Monday with one meeting: 12, 18, 24 and 6 minutes; and with
    the halved buffer of the relaxed scheduler on a slot of one hour, where
    the second of two blocks lasts 40 minutes and a half. *)
Lemma scheduleTask_conserves_minutes_witness :
  halfMinutes 15
  /\ (exists blocks,
        Scheduler.scheduleTask oneMeeting (at_ 9 30) (dueTask (at_ 13 0))
          LearningEngine.getDefaultEstimation
          RealtimeScheduler.getDefaultWorkingHours 15 "primary"
        = Scheduler.Scheduled blocks
        /\ List.map (fun p => Qred (minutesOf p blocks))
             [Incubation; Design; Implementation; Improvement]
           = [12; 18; 24; 6]%Q
        /\ (forall p,
              (minutesOf p blocks
               == inject_Z (Z.max 0 (estimated LearningEngine.getDefaultEstimation p)))%Q)
        /\ Forall (blockOf (dueTask (at_ 13 0))) blocks)
  /\ List.map (fun b => (phase b, startTime b, endTime b, Qred (blockMinutes b)))
       (fst (Scheduler.fillSlot 3 (dueTask (at_ 13 0)) (at_ 9 30) 7.5
               [(Incubation, 12%Q); (Design, 60%Q)] (at_ 9 0) 60))
     = [ (Incubation, at_ 9 0, at_ 9 12, 12%Q);
         (Design, at_ 9 19 + 30000, at_ 10 0, (81 # 2)%Q) ].
Proof.
  split; [exact halfMinutes_15 |]. split; [| vm_compute; reflexivity].
  eexists. split; [vm_compute; reflexivity |]. split; [vm_compute; reflexivity |].
  apply (scheduleTask_conserves_minutes oneMeeting (at_ 9 30) (dueTask (at_ 13 0))
           LearningEngine.getDefaultEstimation
           RealtimeScheduler.getDefaultWorkingHours 15 "primary").
  - exact halfMinutes_15.
  - vm_compute. reflexivity.
Defined.

(** X9 for ten hours of work before a due date on the same day: 105 minutes
    find no room in the 540 minutes of the day. *)
Lemma scheduleTask_errors_witness :
  Scheduler.scheduleTask freeCalendar (at_ 9 30) (dueTask (at_ 13 0)) tenHours
    RealtimeScheduler.getDefaultWorkingHours 15 "primary"
  = Scheduler.Thrown (Scheduler.NotEnoughTime 105 540)
  /\ ((dueDate (dueTask (at_ 13 0)) = None
       /\ Scheduler.NotEnoughTime 105 540 = Scheduler.MissingDueDate)
      \/ exists due r,
           dueDate (dueTask (at_ 13 0)) = Some due
           /\ Scheduler.NotEnoughTime 105 540
              = Scheduler.NotEnoughTime r
                  (fold_left (fun sum slot => sum + Scheduler.duration slot)
                     (fst (Scheduler.findAvailableTimeSlots freeCalendar (at_ 9 30) due
                             RealtimeScheduler.getDefaultWorkingHours 15 "primary"))
                     0)
           /\ (0 < r)%Q
           /\ (r <= inject_Z (Z.max 0 (estimated tenHours Incubation)
                              + Z.max 0 (estimated tenHours Design)
                              + Z.max 0 (estimated tenHours Implementation)
                              + Z.max 0 (estimated tenHours Improvement)))%Q).
Proof.
  split; [vm_compute; reflexivity |].
  apply (scheduleTask_errors freeCalendar (at_ 9 30) (dueTask (at_ 13 0)) tenHours
           RealtimeScheduler.getDefaultWorkingHours 15 "primary").
  vm_compute. reflexivity.
Defined.

(** X10 on the Monday with one meeting, for the block of the second phase:
    it lies inside the working hours of that Monday. *)
Lemma blocks_within_working_hours_witness :
  exists blocks b,
    Scheduler.scheduleTask oneMeeting (at_ 9 30) (dueTask (at_ 13 0))
      LearningEngine.getDefaultEstimation
      RealtimeScheduler.getDefaultWorkingHours 15 "primary"
    = Scheduler.Scheduled blocks
    /\ In b blocks
    /\ (phase b, startTime b, endTime b) = (Design, at_ 11 15, at_ 11 33)
    /\ exists k : nat,
         let date := at_ 9 30 + Z.of_nat k * Scheduler.msPerDay in
         let config :=
           Scheduler.dayConfig RealtimeScheduler.getDefaultWorkingHours
             (Scheduler.getDayOfWeek date) in
         date <= at_ 13 0 /\ enabled config = true
         /\ Scheduler.setHours date (day_start config) <= startTime b
         /\ startTime b < endTime b
         /\ endTime b <= Scheduler.setHours date (day_end config).
Proof.
  eexists. eexists. split; [vm_compute; reflexivity |].
  split; [right; left; reflexivity |]. split; [vm_compute; reflexivity |].
  eapply (blocks_within_working_hours oneMeeting (at_ 9 30) (dueTask (at_ 13 0))
            LearningEngine.getDefaultEstimation
            RealtimeScheduler.getDefaultWorkingHours 15 "primary" (at_ 13 0)).
  - lra.
  - exact halfMinutes_15.
  - exact oneMeeting_meetsWindow.
  - reflexivity.
  - vm_compute. reflexivity.
  - right. left. reflexivity.
Defined.

(** X11 and X12 on the Monday with one meeting from 10:00 to 11:00 and a
    buffer of 15 minutes: the slots are 9:00 to 9:45 and 11:15 to 18:00. *)
Lemma free_slots_at_least_30_minutes_witness :
  fst (Scheduler.findDayAvailableSlots oneMeeting (at_ 9 30) (mkTimeOfDay 9 0)
         (mkTimeOfDay 18 0) 15 "primary")
  = [ Scheduler.mkTimeSlot (at_ 9 0) (at_ 9 45) 45;
      Scheduler.mkTimeSlot (at_ 11 15) (at_ 18 0) 405 ]
  /\ Forall wellCut
       (fst (Scheduler.findDayAvailableSlots oneMeeting (at_ 9 30) (mkTimeOfDay 9 0)
               (mkTimeOfDay 18 0) 15 "primary")).
Proof.
  split; [vm_compute; reflexivity |].
  apply (free_slots_at_least_30_minutes oneMeeting (at_ 9 30) (mkTimeOfDay 9 0)
           (mkTimeOfDay 18 0) 15 "primary"
           [Scheduler.mkRawEvent (Some (at_ 10 0)) (Some (at_ 11 0))]).
  vm_compute. reflexivity.
Defined.

Lemma free_slots_clear_of_events_witness :
  halfMinutes 15
  /\ endsFollowStarts [Scheduler.mkRawEvent (Some (at_ 10 0)) (Some (at_ 11 0))]
  /\ clearOf 15 (Scheduler.mkTimeSlot (at_ 9 0) (at_ 9 45) 45) (at_ 10 0) (at_ 11 0)
  /\ clearOf 15 (Scheduler.mkTimeSlot (at_ 11 15) (at_ 18 0) 405) (at_ 10 0) (at_ 11 0).
Proof.
  assert (Hends : endsFollowStarts
                    [Scheduler.mkRawEvent (Some (at_ 10 0)) (Some (at_ 11 0))]).
  { intros a b sa ea sb eb [<- | []] [<- | []] [= <-] [= <-] [= <-] [= <-] _. lia. }
  split; [exact halfMinutes_15 |]. split; [exact Hends |].
  split.
  - apply (free_slots_clear_of_events oneMeeting (at_ 9 30) (mkTimeOfDay 9 0)
             (mkTimeOfDay 18 0) 15 "primary"
             [Scheduler.mkRawEvent (Some (at_ 10 0)) (Some (at_ 11 0))]
             (Scheduler.mkTimeSlot (at_ 9 0) (at_ 9 45) 45)
             (Scheduler.mkRawEvent (Some (at_ 10 0)) (Some (at_ 11 0)))
             (at_ 10 0) (at_ 11 0));
      [exact halfMinutes_15 | vm_compute; reflexivity | exact Hends
      | vm_compute; left; reflexivity | left; reflexivity | reflexivity | reflexivity].
  - apply (free_slots_clear_of_events oneMeeting (at_ 9 30) (mkTimeOfDay 9 0)
             (mkTimeOfDay 18 0) 15 "primary"
             [Scheduler.mkRawEvent (Some (at_ 10 0)) (Some (at_ 11 0))]
             (Scheduler.mkTimeSlot (at_ 11 15) (at_ 18 0) 405)
             (Scheduler.mkRawEvent (Some (at_ 10 0)) (Some (at_ 11 0)))
             (at_ 10 0) (at_ 11 0));
      [exact halfMinutes_15 | vm_compute; reflexivity | exact Hends
      | vm_compute; right; left; reflexivity | left; reflexivity | reflexivity
      | reflexivity].
Defined.

(** X13 on the Monday with one meeting: the first slot of two hours in the
    coming week starts at 11:15. *)
Lemma getNextAvailableSlot_earliest_fit_witness :
  (0 <= 15)%Q
  /\ validWorkingHours RealtimeScheduler.getDefaultWorkingHours
  /\ meetsWindow oneMeeting
  /\ Scheduler.getNextAvailableSlot oneMeeting (at_ 9 30) 120
       RealtimeScheduler.getDefaultWorkingHours 15 "primary"
     = Some (Scheduler.mkTimeSlot (at_ 11 15) (at_ 18 0) 405)
  /\ match Scheduler.getNextAvailableSlot oneMeeting (at_ 9 30) 120
             RealtimeScheduler.getDefaultWorkingHours 15 "primary" with
     | Some slot =>
         In slot
           (fst (Scheduler.findAvailableTimeSlots oneMeeting (at_ 9 30)
                   (at_ 9 30 + 7 * 24 * 60 * 60 * 1000)
                   RealtimeScheduler.getDefaultWorkingHours 15 "primary"))
         /\ 120 <= Scheduler.duration slot
         /\ forall other,
              In other
                (fst (Scheduler.findAvailableTimeSlots oneMeeting (at_ 9 30)
                        (at_ 9 30 + 7 * 24 * 60 * 60 * 1000)
                        RealtimeScheduler.getDefaultWorkingHours 15 "primary")) ->
              120 <= Scheduler.duration other ->
              Scheduler.slot_start slot <= Scheduler.slot_start other
     | None =>
         forall slot,
           In slot
             (fst (Scheduler.findAvailableTimeSlots oneMeeting (at_ 9 30)
                     (at_ 9 30 + 7 * 24 * 60 * 60 * 1000)
                     RealtimeScheduler.getDefaultWorkingHours 15 "primary")) ->
           Scheduler.duration slot < 120
     end.
Proof.
  split; [lra |]. split; [exact defaultWorkingHours_valid |].
  split; [exact oneMeeting_meetsWindow |].
  split; [vm_compute; reflexivity |].
  apply (getNextAvailableSlot_earliest_fit oneMeeting (at_ 9 30) 120
           RealtimeScheduler.getDefaultWorkingHours 15 "primary").
  - lra.
  - exact defaultWorkingHours_valid.
  - exact oneMeeting_meetsWindow.
Defined.

(** ** Rescheduling passes, listeners and calendar changes *)

Section PassFacts.

Import RealtimeScheduler.

Variable scheduleTask : Allocator.

Lemma reachesAllocator_spec (task : Task) :
  reachesAllocator DateObjects task = true
  /\ (reachesAllocator IsoStrings task = true
      <-> (length (default [] (calendarEvents task)) <= 1)%nat).
Proof.
  unfold reachesAllocator, getTaskSchedule.
  destruct (calendarEvents task) as [[| e [| e' evs]] |]; cbn; split;
    try reflexivity; split; intros; try reflexivity; try lia; discriminate.
Qed.

Lemma reachesAllocator_iff (form : DateForm) (task : Task) :
  reachesAllocator form task = true
  <-> form = DateObjects \/ (length (default [] (calendarEvents task)) <= 1)%nat.
Proof.
  destruct (reachesAllocator_spec task) as [Hd Hs]. destruct form.
  - split; [left; reflexivity | intros _; exact Hd].
  - rewrite Hs. split; [right; assumption | intros [[=] | H]; exact H].
Qed.

Lemma rescheduleOne_facts (form : DateForm) (eventId : string) (now : Z)
    (wh : WorkingHours) (buf : Q) (task : Task) (entries : list Change) (st : State) :
  let r := rescheduleOne scheduleTask form eventId now wh buf task entries st in
  task_id (fst (fst r)) = task_id task
  /\ (snd (fst r) = entries
      \/ exists c, snd (fst r) = entries ++ [c] /\ ch_taskId c = task_id task)
  /\ (form = IsoStrings -> snd (fst r) = entries)
  /\ extends st (snd r)
  /\ exists cs,
       calls (snd r) = calls st ++ cs
       /\ (length cs <= 4)%nat
       /\ (if reachesAllocator form task
           then exists cs', cs = strictCall form wh buf task :: cs'
                            /\ (hasEvents task = true -> cs' = [])
           else cs = []).
Proof.
  cbv zeta.
  pose proof (rescheduleOne_extends scheduleTask form eventId now wh buf task entries st)
    as Hext.
  pose proof (getTaskSchedule_task_id form task) as Hid.
  pose proof (getTaskSchedule_hasEvents form task) as Hev.
  unfold reachesAllocator, strictCall.
  destruct (getTaskSchedule form task) as [[old |] t] eqn:Hget; cbn [fst snd] in *.
  - destruct (rescheduleOne_returned scheduleTask form eventId now wh buf task entries
                st old t Hget) as (He & Ht & Hc & _).
    destruct (allocate_calls scheduleTask form t (estimateTaskTime t) wh buf st)
      as (_ & cs & Hcs & Hlen & Hnone).
    rewrite Hev in Hnone.
    destruct (allocate scheduleTask form t (estimateTaskTime t) wh buf st) as [a st1].
    destruct (rescheduleOne scheduleTask form eventId now wh buf task entries st)
      as [[t1 c1] st2].
    cbn [fst snd] in *. subst t1 c1.
    split; [| split; [| split; [| split; [exact Hext |]]]].
    + destruct (a ≫= newWindow); [| exact Hid].
      destruct old, form; exact Hid.
    + pose proof (entryOf_length form (task_id t) old a) as Hl.
      destruct (entryOf form (task_id t) old a) as [| c [| c' l]] eqn:Hentry;
        [left; rewrite app_nil_r; reflexivity | right | cbn in Hl; lia].
      exists c. split; [reflexivity |].
      assert (Hin : In c (entryOf form (task_id t) old a))
        by (rewrite Hentry; left; reflexivity).
      apply entryOf_In in Hin. destruct Hin as (_ & o & n & bs & _ & _ & _ & _ & ->).
      exact Hid.
    + intros ->. unfold entryOf. rewrite app_nil_r. reflexivity.
    + exists (mkCall form t (estimateTaskTime t) wh buf :: cs).
      rewrite Hc, Hcs. split; [reflexivity | split; [cbn; lia |]].
      exists cs. split; [reflexivity | exact Hnone].
  - rewrite (rescheduleOne_threw scheduleTask form eventId now wh buf task entries st t
               Hget) in *.
    cbn [fst snd calls logLine]. split; [reflexivity |].
    split; [left; reflexivity | split; [reflexivity | split; [exact Hext |]]].
    exists []. rewrite app_nil_r. split; [reflexivity | split; [cbn; lia | reflexivity]].
Qed.

Lemma rescheduleLoop_facts (formOf : Task -> DateForm) (eventId : string) (now : Z)
    (wh : WorkingHours) (buf : Q) (tasks : list Task) :
  forall (entries : list Change) (st : State),
    let r := rescheduleLoop scheduleTask formOf eventId now wh buf tasks entries st in
    List.map task_id (fst (fst r)) = List.map task_id tasks
    /\ (exists extra,
          snd (fst r) = entries ++ extra
          /\ sublist (List.map ch_taskId extra) (List.map task_id tasks)
          /\ ((forall task, In task tasks -> formOf task = IsoStrings) -> extra = []))
    /\ extends st (snd r)
    /\ exists cs,
         calls (snd r) = calls st ++ cs
         /\ (length (List.filter (fun task => reachesAllocator (formOf task) task) tasks)
             <= length cs <= 4 * length tasks)%nat
         /\ (Forall (fun task => hasEvents task = true) tasks ->
             cs = List.map (fun task => strictCall (formOf task) wh buf task)
                    (List.filter (fun task => reachesAllocator (formOf task) task) tasks)).
Proof.
  induction tasks as [| task tasks IH]; intros entries st; cbv zeta.
  - cbn. split; [reflexivity | split; [| split; [apply extends_refl |]]].
    + exists []. rewrite app_nil_r. split; [reflexivity | split; [constructor | reflexivity]].
    + exists []. rewrite app_nil_r. repeat split; cbn; lia.
  - cbn [rescheduleLoop]. unfold bind, ret.
    pose proof (rescheduleOne_facts (formOf task) eventId now wh buf task entries st) as H1.
    cbv zeta in H1.
    destruct (rescheduleOne scheduleTask (formOf task) eventId now wh buf task entries st)
      as [[t1 c1] st1].
    cbn [fst snd] in *.
    destruct H1 as (Hid & Hch & Hiso & Hext1 & cs1 & Hw1 & Hlen1 & Hex1).
    specialize (IH c1 st1). cbv zeta in IH.
    destruct (rescheduleLoop scheduleTask formOf eventId now wh buf tasks c1 st1)
      as [[ts c2] st2].
    cbn [fst snd] in *.
    destruct IH as (Hids & (extra & Hc2 & Hsub & Hiso2) & Hext2 & cs2 & Hw2 & Hlen2 & Hex2).
    split; [cbn; f_equal; assumption | split; [| split]].
    + destruct Hch as [-> | (c & -> & Hc)].
      * exists extra. split; [exact Hc2 |]. cbn [List.map].
        split; [apply sublist_cons; exact Hsub |].
        intros Hf. apply Hiso2. intros t' Ht'. apply Hf. right. exact Ht'.
      * exists (c :: extra). rewrite Hc2, <- app_assoc. split; [reflexivity |].
        cbn [List.map]. rewrite Hc. split; [apply sublist_skip; exact Hsub |].
        intros Hf. specialize (Hiso (Hf task ltac:(left; reflexivity))).
        apply (f_equal (@length Change)) in Hiso.
        rewrite length_app in Hiso. cbn in Hiso. lia.
    + eapply extends_trans; eassumption.
    + exists (cs1 ++ cs2). rewrite Hw2, Hw1, <- app_assoc.
      split; [reflexivity |]. cbn [List.filter length].
      destruct (reachesAllocator (formOf task) task).
      * destruct Hex1 as (cs' & -> & Hnone). cbn [length app] in *.
        rewrite length_app. split; [lia |].
        intros Hall. inversion Hall as [| ? ? Ht Hts]; subst.
        rewrite (Hnone Ht), (Hex2 Hts). reflexivity.
      * subst cs1. cbn [app length] in *. split; [lia |].
        intros Hall. inversion Hall as [| ? ? Ht Hts]; subst. apply Hex2. exact Hts.
Qed.

(** What a pass returns and leaves behind, in one statement. *)
Lemma rescheduleAffectedTasks_spec (formOf : Task -> DateForm) (tasks : list Task)
    (trigger : Trigger) (workingHours : option WorkingHours) (buf : Q) (now : Z)
    (st : State) :
  let r :=
    rescheduleAffectedTasks scheduleTask formOf tasks trigger workingHours buf now st in
  let event := fst (fst r) in
  let st' := snd r in
  (re_id event = pretty now /\ triggeredBy event = trigger
   /\ affectedTasks event = List.map task_id tasks /\ re_timestamp event = now)
  /\ List.map task_id (snd (fst r)) = List.map task_id tasks
  /\ sublist (List.map ch_taskId (changes event)) (List.map task_id tasks)
  /\ ((forall task, In task tasks -> formOf task = IsoStrings) -> changes event = [])
  /\ (storage st' = saveReschedulingEvent event (storage st)
      /\ reschedulingInProgress st' = reschedulingInProgress st
      /\ eventListeners st' = eventListeners st
      /\ delivered st' = delivered st
      /\ exists lines,
           console st'
           = console st
             ++ (LogInfo, "Rescheduling " +:+ pretty (length tasks) +:+ " affected tasks")
                :: lines)
  /\ exists awaited,
       calls st' = calls st ++ awaited
       /\ (length (List.filter (fun task => reachesAllocator (formOf task) task) tasks)
           <= length awaited <= 4 * length tasks)%nat
       /\ (Forall (fun task => hasEvents task = true) tasks ->
           awaited
           = List.map
               (fun task =>
                  strictCall (formOf task) (default (hoursOf (storage st)) workingHours)
                    buf task)
               (List.filter (fun task => reachesAllocator (formOf task) task) tasks)).
Proof.
  cbv zeta. unfold rescheduleAffectedTasks.
  rewrite pass_hours. cbn [storage logLine]. fold (passStart tasks st).
  pose proof (rescheduleLoop_facts formOf (pretty now) now
                (default (hoursOf (storage st)) workingHours) buf tasks []
                (passStart tasks st)) as Hl.
  destruct (rescheduleLoop scheduleTask formOf _ _ _ buf tasks [] (passStart tasks st))
    as [[ts cs] st1].
  cbv zeta in Hl. cbn [fst snd] in *.
  destruct Hl as (Hids & (extra & -> & Hsub & Hiso) & Hext & awaited & Hw & Hlen & Hex).
  destruct Hext as (Hflag & Hls & Hsto & Hdel & _ & [lines Hlines]).
  cbn [app re_id triggeredBy affectedTasks re_timestamp changes].
  split; [repeat split |].
  split; [exact Hids | split; [exact Hsub | split; [exact Hiso | split]]].
  - cbn [withStorage storage reschedulingInProgress eventListeners delivered console].
    rewrite Hsto, Hflag, Hls, Hdel. repeat split.
    exists lines. rewrite Hlines. unfold passStart. cbn [console logLine].
    rewrite <- app_assoc. reflexivity.
  - exists awaited. cbn [calls withStorage]. rewrite Hw. auto.
Qed.

Lemma history_default (s : LocalStorage) :
  getReschedulingHistory s = default [] (familytasks_rescheduling_events s).
Proof. unfold getReschedulingHistory. destruct (familytasks_rescheduling_events s); reflexivity. Qed.

Lemma saveReschedulingEvent_history (event : ReschedulingEvent) (s : LocalStorage) :
  getReschedulingHistory (saveReschedulingEvent event s)
  = keepLast 100 (getReschedulingHistory s ++ [event]).
Proof. rewrite (history_default s). reflexivity. Qed.

(** X15: the event of a pass names every task handed to the pass, in
    order; the tasks come back in the same number and order, with their ids;
    the change entries name affected tasks, in the order of the tasks and at
    most one per position, so there are at most as many entries as tasks. *)
Theorem rescheduleAffectedTasks_event_and_tasks (formOf : Task -> DateForm) (tasks : list Task)
    (trigger : Trigger) (workingHours : option WorkingHours) (buf : Q) (now : Z)
    (st : State) :
  let r :=
    rescheduleAffectedTasks scheduleTask formOf tasks trigger workingHours buf now st in
  let event := fst (fst r) in
  affectedTasks event = List.map task_id tasks
  /\ List.map task_id (snd (fst r)) = List.map task_id tasks
  /\ sublist (List.map ch_taskId (changes event)) (affectedTasks event)
  /\ (length (changes event) <= length tasks)%nat.
Proof.
  cbv zeta.
  destruct (rescheduleAffectedTasks_spec formOf tasks trigger workingHours buf now st)
    as ((_ & _ & Haff & _) & Hids & Hsub & _).
  rewrite Haff. repeat split; try assumption.
  apply sublist_length in Hsub. rewrite !length_map in Hsub. exact Hsub.
Qed.

(** X16: a pass persists its event whether or not it has entries: the
    event is the last of the stored history, which is the old history with
    the event appended and cut down to its last 100 events.  The pass leaves
    the stored tasks, user settings, task history and learning data, the
    in-progress flag, the listeners and the deliveries as they were.  On the
    console it writes the line that counts the tasks first, and then the
    lines of the tasks. *)
Theorem rescheduleAffectedTasks_persists_event (formOf : Task -> DateForm) (tasks : list Task)
    (trigger : Trigger) (workingHours : option WorkingHours) (buf : Q) (now : Z)
    (st : State) :
  let r :=
    rescheduleAffectedTasks scheduleTask formOf tasks trigger workingHours buf now st in
  let event := fst (fst r) in
  let st' := snd r in
  let old := getReschedulingHistory (storage st) in
  last (getReschedulingHistory (storage st')) = Some event
  /\ (exists dropped,
        old ++ [event] = dropped ++ getReschedulingHistory (storage st'))
  /\ length (getReschedulingHistory (storage st')) = Nat.min 100 (length old + 1)
  /\ familytasks_tasks (storage st') = familytasks_tasks (storage st)
  /\ familytasks_user_settings (storage st') = familytasks_user_settings (storage st)
  /\ familytasks_task_history (storage st') = familytasks_task_history (storage st)
  /\ familytasks_learning_data (storage st') = familytasks_learning_data (storage st)
  /\ reschedulingInProgress st' = reschedulingInProgress st
  /\ eventListeners st' = eventListeners st
  /\ delivered st' = delivered st
  /\ exists lines,
       console st'
       = console st
         ++ (LogInfo, "Rescheduling " +:+ pretty (length tasks) +:+ " affected tasks")
            :: lines.
Proof.
  cbv zeta.
  destruct (rescheduleAffectedTasks_spec formOf tasks trigger workingHours buf now st)
    as (_ & _ & _ & _ & (Hst & Hflag & Hls & Hdel & Hcon) & _).
  rewrite Hst, saveReschedulingEvent_history.
  repeat split; try assumption.
  - apply keepLast_last. lia.
  - apply keepLast_suffix.
  - rewrite keepLast_length, length_app. cbn [length]. reflexivity.
Qed.


(** With an allocator that finds no room, the loop gives every task back
    as [getTaskSchedule] left it and records nothing. *)
Lemma rescheduleLoop_no_room (formOf : Task -> DateForm) (eventId : string) (now : Z)
    (wh : WorkingHours) (buf : Q) (tasks : list Task) :
  (forall w c, scheduleTask w c = None) ->
  forall (entries : list Change) (st : State),
    fst (rescheduleLoop scheduleTask formOf eventId now wh buf tasks entries st)
    = (List.map (fun task => snd (getTaskSchedule (formOf task) task)) tasks, entries).
Proof.
  intros Hnone. induction tasks as [| task tasks IH]; intros entries st; [reflexivity |].
  cbn [rescheduleLoop]. unfold bind, ret.
  assert (H1 : fst (rescheduleOne scheduleTask (formOf task) eventId now wh buf task entries st)
               = (snd (getTaskSchedule (formOf task) task), entries)).
  { destruct (getTaskSchedule (formOf task) task) as [[old |] t] eqn:Hget.
    - destruct (rescheduleOne_returned scheduleTask (formOf task) eventId now wh buf task
                  entries st old t Hget) as (He & Ht & _).
      assert (Ha : fst (allocate scheduleTask (formOf task) t (estimateTaskTime t) wh buf st)
                   = None).
      { unfold allocate, scheduleTaskWithRelaxedConstraints, bind, awaitScheduleTask,
          log, ret.
        rewrite Hnone. destruct (hasEvents t); [reflexivity |].
        destruct (dueDate t); cbv beta iota zeta; rewrite ?Hnone; cbv beta iota zeta;
          rewrite ?Hnone; cbv beta iota zeta; rewrite ?Hnone; reflexivity. }
      rewrite Ha in He, Ht. rewrite entryOf_no_answer, app_nil_r in He.
      cbn [mbind option_bind] in Ht.
      destruct (rescheduleOne scheduleTask (formOf task) eventId now wh buf task entries st)
        as [[t1 c1] st1].
      cbn [fst snd] in *. congruence.
    - rewrite (rescheduleOne_threw scheduleTask (formOf task) eventId now wh buf task entries st
                 t Hget).
      destruct (getTaskSchedule_threw _ _ _ Hget) as (-> & _). reflexivity. }
  destruct (rescheduleOne scheduleTask (formOf task) eventId now wh buf task entries st)
    as [[t1 c1] st1].
  cbn [fst snd] in *. injection H1 as -> ->.
  specialize (IH entries st1).
  destruct (rescheduleLoop scheduleTask formOf eventId now wh buf tasks entries st1)
    as [[ts c2] st2].
  cbn [fst snd] in *. injection IH as -> ->. reflexivity.
Qed.

End PassFacts.

Section ListenerFacts.

Import RealtimeScheduler.

Variable scheduleTask : Allocator.

Lemma getTaskSchedule_keeps (form : DateForm) (task : Task) :
  keptSchedule form task (snd (getTaskSchedule form task)).
Proof.
  unfold keptSchedule, getTaskSchedule.
  destruct (calendarEvents task) as [[| e [| e' evs]] |] eqn:He, form; cbn [snd];
    rewrite ?He; cbn [setCalendarEvents task_id status dueDate estimation
      scheduledStartDate scheduledEndDate lastRescheduled reschedulingHistory
      calendarEvents];
    repeat split; try constructor; try reflexivity;
    first [apply (sortBy_perm startTime) | apply (sortBy_ascending startTime)].
Qed.

(** X18: when the allocator finds no room for any call, the event of the
    pass has no entries and is persisted all the same, and every task comes
    back with its id, status, due date, estimation, scheduled dates and
    rescheduling history untouched and with the same blocks, put in the
    order of their start (blocks whose instants are strings stay as they
    were). *)
Theorem failed_pass_keeps_schedules (formOf : Task -> DateForm) (tasks : list Task)
    (trigger : Trigger) (workingHours : option WorkingHours) (buf : Q) (now : Z)
    (st : State) :
  (forall w c, scheduleTask w c = None) ->
  let r :=
    rescheduleAffectedTasks scheduleTask formOf tasks trigger workingHours buf now st in
  changes (fst (fst r)) = []
  /\ Forall2 (fun task task' => keptSchedule (formOf task) task task') tasks (snd (fst r))
  /\ last (getReschedulingHistory (storage (snd r))) = Some (fst (fst r)).
Proof.
  intros Hnone. cbv zeta. unfold rescheduleAffectedTasks.
  match goal with
  | |- context [rescheduleLoop scheduleTask formOf ?e ?n ?h buf tasks [] ?c] =>
      pose proof (rescheduleLoop_no_room scheduleTask formOf e n h buf tasks Hnone [] c)
        as Hl;
      destruct (rescheduleLoop scheduleTask formOf e n h buf tasks [] c) as [[ts cs] w']
  end.
  cbn [fst snd changes] in *. injection Hl as -> ->.
  split; [reflexivity | split].
  - clear. induction tasks as [| t tasks IH]; constructor; [| exact IH].
    apply getTaskSchedule_keeps.
  - unfold getReschedulingHistory, saveReschedulingEvent, withStorage.
    cbn [storage familytasks_rescheduling_events]. apply keepLast_last. lia.
Qed.

Lemma notifyListeners_fold (event : ReschedulingEvent)
    (listeners : list (string * Listener)) :
  forall st : State,
    let st' :=
      fold_left
        (fun (st : State) (l : string * Listener) =>
           let st :=
             {| reschedulingInProgress := reschedulingInProgress st;
                eventListeners := eventListeners st;
                storage := storage st;
                calls := calls st;
                delivered := delivered st ++ [(fst l, event)];
                console := console st |} in
           if snd l event then st
           else logLine st LogError "Error in rescheduling event listener:")
        listeners st in
    delivered st' = delivered st ++ deliveries event listeners
    /\ console st' = console st ++ listenerErrors event listeners
    /\ reschedulingInProgress st' = reschedulingInProgress st
    /\ eventListeners st' = eventListeners st
    /\ storage st' = storage st
    /\ calls st' = calls st.
Proof.
  unfold deliveries, listenerErrors. unfold Listener in *.
  induction listeners as [| l listeners IH]; intros st; cbv zeta.
  - cbn. rewrite !app_nil_r. repeat split.
  - cbn [fold_left]. cbn [List.map List.filter].
    destruct (snd l event) eqn:Hl; cbn [negb].
    + match goal with |- context [fold_left ?f listeners ?s] => specialize (IH s) end.
      cbv zeta in IH. destruct IH as (-> & -> & -> & -> & -> & ->).
      cbn. rewrite <- app_assoc. repeat split.
    + match goal with |- context [fold_left ?f listeners ?s] => specialize (IH s) end.
      cbv zeta in IH. destruct IH as (-> & -> & -> & -> & -> & ->).
      cbn. rewrite <- !app_assoc. repeat split.
Qed.

(** X19: [notifyListeners] calls every registered listener once, in the
    order of registration, with the event; each listener that throws adds
    one error line to the console and stops no other listener; nothing else
    of the scheduler changes. *)
Theorem notifyListeners_reaches_every_listener (event : ReschedulingEvent) (st : State) :
  let st' := notifyListeners event st in
  delivered st' = delivered st ++ deliveries event (eventListeners st)
  /\ console st' = console st ++ listenerErrors event (eventListeners st)
  /\ reschedulingInProgress st' = reschedulingInProgress st
  /\ eventListeners st' = eventListeners st
  /\ storage st' = storage st
  /\ calls st' = calls st.
Proof. apply notifyListeners_fold. Qed.

Lemma setListener_keys (id : string) (listener : Listener)
    (listeners : list (string * Listener)) :
  NoDup listeners.*1 ->
  exists before after,
    setListener id listener listeners = before ++ (id, listener) :: after
    /\ before ++ after = others id listeners
    /\ NoDup (setListener id listener listeners).*1.
Proof.
  induction listeners as [| [k l] listeners IH]; intros Hnd.
  - exists [], []. cbn. repeat split. apply NoDup_singleton.
  - apply NoDup_cons in Hnd. destruct Hnd as [Hk Hnd]. cbn [setListener].
    unfold others in *. cbn [List.filter fst].
    destruct (String.eqb_spec k id) as [-> | Hne]; cbn [negb].
    + exists [], listeners. cbn [app]. split; [reflexivity | split].
      * symmetry. apply forallb_filter_id. apply forallb_forall. intros [k' l'] Hin.
        cbn. apply negb_true_iff, String.eqb_neq. intros ->. apply Hk.
        apply list_elem_of_fmap. exists (id, l'). split; [reflexivity |].
        apply list_elem_of_In. exact Hin.
      * cbn. apply NoDup_cons. split; assumption.
    + destruct (IH Hnd) as (before & after & Heq & Hoth & Hnd').
      exists ((k, l) :: before), after. rewrite Heq. cbn [app].
      split; [reflexivity | split; [rewrite <- Hoth; reflexivity |]].
      rewrite <- Heq. cbn. apply NoDup_cons. split; [| exact Hnd'].
      rewrite Heq. rewrite fmap_app. cbn. intros Hin.
      apply elem_of_app in Hin. rewrite elem_of_cons in Hin.
      assert (Hin' : k ∈ (before ++ after).*1).
      { rewrite fmap_app. apply elem_of_app.
        destruct Hin as [Hin | [Hin | Hin]]; [left; exact Hin | congruence | right; exact Hin]. }
      rewrite Hoth in Hin'. apply list_elem_of_fmap in Hin'.
      destruct Hin' as ([k' l'] & Hk' & Hin'). cbn in Hk'. subst k'.
      apply list_elem_of_In, filter_In in Hin'. destruct Hin' as [Hin' _].
      apply Hk. apply list_elem_of_fmap. exists (k, l'). split; [reflexivity |].
      apply list_elem_of_In. exact Hin'.
Qed.

Lemma deleteListener_others (id : string) (listeners : list (string * Listener)) :
  NoDup listeners.*1 -> deleteListener id listeners = others id listeners.
Proof.
  induction listeners as [| [k l] listeners IH]; intros Hnd; [reflexivity |].
  apply NoDup_cons in Hnd. destruct Hnd as [Hk Hnd]. cbn [deleteListener].
  unfold others in *. cbn [List.filter fst].
  destruct (String.eqb_spec k id) as [-> | Hne]; cbn [negb].
  - symmetry. apply forallb_filter_id. apply forallb_forall. intros [k' l'] Hin.
    cbn. apply negb_true_iff, String.eqb_neq. intros ->. apply Hk.
    apply list_elem_of_fmap. exists (id, l'). split; [reflexivity |].
    apply list_elem_of_In. exact Hin.
  - rewrite IH by exact Hnd. reflexivity.
Qed.

Lemma others_keys (id : string) (listeners : list (string * Listener)) :
  NoDup listeners.*1 -> NoDup (others id listeners).*1 /\ (id ∉ (others id listeners).*1).
Proof.
  intros Hnd. split.
  - unfold others. induction listeners as [| [k l] listeners IH]; [constructor |].
    apply NoDup_cons in Hnd. destruct Hnd as [Hk Hnd]. cbn [List.filter fst].
    destruct (negb (String.eqb k id)); [| apply IH; exact Hnd].
    cbn. apply NoDup_cons. split; [| apply IH; exact Hnd].
    intros Hin. apply Hk. apply list_elem_of_fmap in Hin.
    destruct Hin as ([k' l'] & Hk' & Hin). cbn in Hk'. subst k'.
    apply list_elem_of_In, filter_In in Hin. destruct Hin as [Hin _].
    apply list_elem_of_fmap. exists (k, l'). split; [reflexivity |].
    apply list_elem_of_In. exact Hin.
  - intros Hin. apply list_elem_of_fmap in Hin.
    destruct Hin as ([k' l'] & Hk' & Hin). cbn in Hk'. subst k'.
    apply list_elem_of_In, filter_In in Hin. destruct Hin as [_ Hin].
    cbn in Hin. rewrite String.eqb_refl in Hin. discriminate.
Qed.

(** X20: with listeners registered under distinct ids, [addEventListener]
    leaves exactly one listener under the id, the one just given, and the
    other listeners as they were, in their order; [removeEventListener]
    leaves no listener under the id; ids stay distinct; and an event
    notified after the removal reaches exactly the other listeners. *)
Theorem listener_registry (id : string) (listener : Listener) (event : ReschedulingEvent)
    (st : State) :
  NoDup (eventListeners st).*1 ->
  (exists before after,
     eventListeners (addEventListener id listener st) = before ++ (id, listener) :: after
     /\ before ++ after = others id (eventListeners st)
     /\ NoDup (eventListeners (addEventListener id listener st)).*1)
  /\ NoDup (eventListeners (removeEventListener id st)).*1
  /\ (id ∉ (eventListeners (removeEventListener id st)).*1)
  /\ delivered (notifyListeners event (removeEventListener id st))
     = delivered st ++ deliveries event (others id (eventListeners st)).
Proof.
  intros Hnd. split; [| split; [| split]].
  - apply setListener_keys. exact Hnd.
  - cbn [removeEventListener eventListeners]. rewrite deleteListener_others by exact Hnd.
    apply others_keys. exact Hnd.
  - cbn [removeEventListener eventListeners]. rewrite deleteListener_others by exact Hnd.
    apply others_keys. exact Hnd.
  - pose proof (notifyListeners_fold event (eventListeners (removeEventListener id st))
                  (removeEventListener id st)) as Hfold.
    cbv zeta in Hfold. destruct Hfold as (Hd & _).
    unfold notifyListeners. etransitivity; [exact Hd |].
    cbn [removeEventListener eventListeners delivered].
    rewrite deleteListener_others by exact Hnd. reflexivity.
Qed.

Lemma getAffectedTasks_hasEvents (eventId : string) (s : LocalStorage) :
  fst (getAffectedTasks eventId s) = IsoStrings
  /\ Forall (fun task => hasEvents task = true /\ status task <> Done)
       (snd (getAffectedTasks eventId s)).
Proof.
  unfold getAffectedTasks.
  destruct (familytasks_tasks s) as [tasks |]; [| split; [reflexivity | constructor]].
  split; [reflexivity |]. cbn [snd].
  apply Forall_forall. intros task Hin. apply list_elem_of_In, filter_In in Hin.
  destruct Hin as [_ Hf]. unfold isAffected, hasEvents in *.
  destruct (calendarEvents task) as [[| e evs] |]; try discriminate.
  split; [reflexivity |]. apply andb_true_iff in Hf. destruct Hf as [_ Hs].
  destruct (status task); congruence.
Qed.

(** X21: [handleCalendarChange] called while no pass is in progress ends
    with the flag cleared, the listeners and the stored tasks as they were.
    When no stored task is affected, storage, allocator calls and deliveries
    are unchanged.  Otherwise one event, triggered by the calendar change
    and naming the affected tasks, is the last of the stored history and is
    delivered to every listener.  The affected tasks are read back from
    storage, so the instants of their blocks are strings: the event never
    has a change entry, and the allocator is awaited once, with the stored
    working hours and a buffer of 15, for each affected task that holds a
    single block, and not at all for one that holds more. *)
Theorem handleCalendarChange_outcome (eventType : ChangeKind)
    (eventId calendarId : string) (now : Z) (st : State) :
  reschedulingInProgress st = false ->
  let st' := handleCalendarChange scheduleTask eventType eventId calendarId now st in
  let affected := snd (getAffectedTasks eventId (storage st)) in
  reschedulingInProgress st' = false
  /\ eventListeners st' = eventListeners st
  /\ familytasks_tasks (storage st') = familytasks_tasks (storage st)
  /\ match affected with
     | [] =>
         storage st' = storage st /\ calls st' = calls st
         /\ delivered st' = delivered st
     | _ :: _ =>
         exists event,
           last (getReschedulingHistory (storage st')) = Some event
           /\ triggeredBy event = calendar_change
           /\ affectedTasks event = List.map task_id affected
           /\ changes event = []
           /\ delivered st' = delivered st ++ deliveries event (eventListeners st)
           /\ calls st'
              = calls st
                ++ List.map (strictCall IsoStrings (hoursOf (storage st)) 15)
                     (List.filter
                        (fun task =>
                           (length (default [] (calendarEvents task)) <=? 1)%nat)
                        affected)
     end.
Proof.
  intros Hidle. cbv zeta. unfold handleCalendarChange, enterCalendarChange.
  rewrite Hidle. unfold completeCalendarChange.
  set (st0 := withInProgress (logLine st LogInfo _) true).
  change (storage st0) with (storage st).
  destruct (getAffectedTasks_hasEvents eventId (storage st)) as [Hform Haff].
  destruct (getAffectedTasks eventId (storage st)) as [form [| t ts]] eqn:Hget;
    cbn [fst snd] in *; subst form.
  - cbn. repeat split.
  - pose proof (rescheduleAffectedTasks_spec scheduleTask (fun _ => IsoStrings) (t :: ts)
                  calendar_change None 15 now st0) as Hspec.
    cbv zeta in Hspec.
    destruct (rescheduleAffectedTasks scheduleTask (fun _ => IsoStrings) (t :: ts)
                calendar_change None 15 now st0) as [[event tasks'] st1].
    cbn [fst snd] in Hspec.
    destruct Hspec as ((_ & Htrig & Hids & _) & _ & _ & Hnone
                       & (Hst & _ & Hls & Hdel & _) & awaited & Hcalls & _ & Hexact).
    pose proof (notifyListeners_fold event (eventListeners st1) st1) as Hn.
    cbv zeta in Hn. fold (notifyListeners event st1) in Hn.
    destruct Hn as (Hnd & _ & _ & Hnl & Hns & Hnc).
    cbn [withInProgress reschedulingInProgress eventListeners storage calls delivered].
    rewrite Hnl, Hns, Hnd, Hnc, Hls, Hst, Hdel, Hcalls.
    change (storage st0) with (storage st). change (eventListeners st0) with (eventListeners st).
    change (delivered st0) with (delivered st). change (calls st0) with (calls st).
    split; [reflexivity | split; [reflexivity | split; [reflexivity |]]].
    exists event. rewrite saveReschedulingEvent_history.
    split; [apply keepLast_last; lia |].
    split; [exact Htrig | split; [exact Hids |]].
    split; [apply Hnone; reflexivity | split; [reflexivity |]].
    rewrite Hexact by (eapply Forall_impl; [exact Haff |]; cbn; tauto).
    cbn [default]. f_equal. f_equal. apply filter_ext. intros task.
    destruct (reachesAllocator_spec task) as [_ Hreach].
    destruct (reachesAllocator IsoStrings task) eqn:Hr.
    + symmetry. apply Nat.leb_le. apply Hreach. reflexivity.
    + symmetry. apply Nat.leb_gt.
      destruct (Nat.le_gt_cases (length (default [] (calendarEvents task))) 1) as [Hle |];
        [| lia].
      apply Hreach in Hle. congruence.
Qed.

End ListenerFacts.

(** X18 with an allocator that never finds room, on a task holding one
    block. *)
Lemma failed_pass_keeps_schedules_witness :
  let r :=
    RealtimeScheduler.rescheduleAffectedTasks noRoom
      (fun _ => RealtimeScheduler.DateObjects) [scheduledTask (at_ 13 0)]
      manual_adjustment None 15 0 freshScheduler in
  changes (fst (fst r)) = []
  /\ Forall2 (keptSchedule RealtimeScheduler.DateObjects) [scheduledTask (at_ 13 0)]
       (snd (fst r))
  /\ last (RealtimeScheduler.getReschedulingHistory (RealtimeScheduler.storage (snd r)))
     = Some (fst (fst r)).
Proof.
  apply (failed_pass_keeps_schedules noRoom (fun _ => RealtimeScheduler.DateObjects)
           [scheduledTask (at_ 13 0)] manual_adjustment None 15 0 freshScheduler).
  intros w c. reflexivity.
Defined.

Lemma watchedScheduler_ids :
  NoDup (RealtimeScheduler.eventListeners watchedScheduler).*1.
Proof.
  cbn. apply NoDup_cons. split; [| apply NoDup_singleton].
  rewrite list_elem_of_singleton. discriminate.
Qed.

(** X20 on a scheduler with the listeners "sync" and "audit": replacing
    "audit" and removing it. *)
Lemma listener_registry_witness :
  RealtimeScheduler.eventListeners
    (RealtimeScheduler.addEventListener "audit" quiet watchedScheduler)
  = [("sync", quiet); ("audit", quiet)]
  /\ RealtimeScheduler.delivered
       (RealtimeScheduler.notifyListeners quietEvent
          (RealtimeScheduler.removeEventListener "audit" watchedScheduler))
     = [("sync", quietEvent)]
  /\ ((exists before after,
         RealtimeScheduler.eventListeners
           (RealtimeScheduler.addEventListener "audit" quiet watchedScheduler)
         = before ++ ("audit", quiet) :: after
         /\ before ++ after
            = others "audit" (RealtimeScheduler.eventListeners watchedScheduler)
         /\ NoDup (RealtimeScheduler.eventListeners
                     (RealtimeScheduler.addEventListener "audit" quiet
                        watchedScheduler)).*1)
      /\ NoDup (RealtimeScheduler.eventListeners
                  (RealtimeScheduler.removeEventListener "audit" watchedScheduler)).*1
      /\ ("audit" ∉ (RealtimeScheduler.eventListeners
                       (RealtimeScheduler.removeEventListener "audit"
                          watchedScheduler)).*1)
      /\ RealtimeScheduler.delivered
           (RealtimeScheduler.notifyListeners quietEvent
              (RealtimeScheduler.removeEventListener "audit" watchedScheduler))
         = RealtimeScheduler.delivered watchedScheduler
           ++ deliveries quietEvent
                (others "audit" (RealtimeScheduler.eventListeners watchedScheduler))).
Proof.
  split; [reflexivity |]. split; [reflexivity |].
  apply (listener_registry "audit" quiet quietEvent watchedScheduler).
  exact watchedScheduler_ids.
Defined.

(** X21 for the change of the provider event mirrored by two stored
    tasks, one with a single block and one with two, with an allocator that
    places one block the next day: the event reaches both listeners without
    an entry, and the allocator is awaited once, for the first task. *)
Lemma handleCalendarChange_outcome_witness :
  RealtimeScheduler.reschedulingInProgress crowdedScheduler = false
  /\ (let st' :=
        RealtimeScheduler.handleCalendarChange roomLater RealtimeScheduler.updated
          "google-event-1" "primary" 0 crowdedScheduler in
      List.map (fun c => task_id (RealtimeScheduler.call_task c))
        (RealtimeScheduler.calls st')
      = ["task-1"]
      /\ List.map (fun d => (fst d, affectedTasks (snd d), changes (snd d)))
           (RealtimeScheduler.delivered st')
         = [ ("sync", ["task-1"; "task-2"], []);
             ("audit", ["task-1"; "task-2"], []) ])
  /\ let st' :=
       RealtimeScheduler.handleCalendarChange roomLater RealtimeScheduler.updated
         "google-event-1" "primary" 0 crowdedScheduler in
     let affected :=
       snd (RealtimeScheduler.getAffectedTasks "google-event-1"
              (RealtimeScheduler.storage crowdedScheduler)) in
     RealtimeScheduler.reschedulingInProgress st' = false
     /\ RealtimeScheduler.eventListeners st'
        = RealtimeScheduler.eventListeners crowdedScheduler
     /\ familytasks_tasks (RealtimeScheduler.storage st')
        = familytasks_tasks (RealtimeScheduler.storage crowdedScheduler)
     /\ match affected with
        | [] =>
            RealtimeScheduler.storage st' = RealtimeScheduler.storage crowdedScheduler
            /\ RealtimeScheduler.calls st' = RealtimeScheduler.calls crowdedScheduler
            /\ RealtimeScheduler.delivered st'
               = RealtimeScheduler.delivered crowdedScheduler
        | _ :: _ =>
            exists event,
              last (RealtimeScheduler.getReschedulingHistory
                      (RealtimeScheduler.storage st')) = Some event
              /\ triggeredBy event = calendar_change
              /\ affectedTasks event = List.map task_id affected
              /\ changes event = []
              /\ RealtimeScheduler.delivered st'
                 = RealtimeScheduler.delivered crowdedScheduler
                   ++ deliveries event
                        (RealtimeScheduler.eventListeners crowdedScheduler)
              /\ RealtimeScheduler.calls st'
                 = RealtimeScheduler.calls crowdedScheduler
                   ++ List.map
                        (strictCall RealtimeScheduler.IsoStrings
                           (hoursOf (RealtimeScheduler.storage crowdedScheduler)) 15)
                        (List.filter
                           (fun task =>
                              (length (default [] (calendarEvents task)) <=? 1)%nat)
                           affected)
        end.
Proof.
  split; [reflexivity |]. split; [split; vm_compute; reflexivity |].
  apply (handleCalendarChange_outcome roomLater RealtimeScheduler.updated
           "google-event-1" "primary" 0 crowdedScheduler).
  reflexivity.
Defined.

(** ** Synchronisation hook and webhook handler *)

Section SyncFacts.

Import RealtimeScheduler RealTimeSync.

Variable scheduleTask : Allocator.

(** X22: [applyRescheduling] keeps the number, order and ids of the
    tasks, and the blocks, due date and status of each; a task that no entry
    of the event names is handed on unchanged, and an event without entries
    hands on the list as it is. *)
Theorem applyRescheduling_frame (tasks : list Task) (event : ReschedulingEvent) :
  let tasks' := applyRescheduling tasks event in
  List.map task_id tasks' = List.map task_id tasks
  /\ List.map calendarEvents tasks' = List.map calendarEvents tasks
  /\ List.map dueDate tasks' = List.map dueDate tasks
  /\ List.map status tasks' = List.map status tasks
  /\ Forall2
       (fun task task' =>
          (forall c, In c (changes event) -> ch_taskId c <> task_id task) ->
          task' = task)
       tasks tasks'
  /\ (changes event = [] -> tasks' = tasks).
Proof.
  cbv zeta. unfold applyRescheduling.
  repeat split.
  - rewrite List.map_map. apply List.map_ext. intros task.
    destruct (List.find _ _); reflexivity.
  - rewrite List.map_map. apply List.map_ext. intros task.
    destruct (List.find _ _); reflexivity.
  - rewrite List.map_map. apply List.map_ext. intros task.
    destruct (List.find _ _); reflexivity.
  - rewrite List.map_map. apply List.map_ext. intros task.
    destruct (List.find _ _); reflexivity.
  - induction tasks as [| task tasks IH]; constructor; [| exact IH].
    intros Hnone.
    destruct (List.find _ _) as [c |] eqn:Hfind; [| reflexivity].
    apply find_some in Hfind. destruct Hfind as [Hin Heq].
    apply String.eqb_eq in Heq. destruct (Hnone c Hin Heq).
  - intros ->. cbn. apply List.map_id.
Qed.

Lemma tasksNeedingReschedule_hasEvents (tasks : list Task) :
  Forall (fun task => hasEvents task = true) (tasksNeedingReschedule tasks).
Proof.
  apply Forall_forall. intros task Hin. unfold tasksNeedingReschedule in Hin.
  apply list_elem_of_In, filter_In in Hin. destruct Hin as [_ Hf].
  apply andb_true_iff in Hf. tauto.
Qed.

(** X23: the manual check hands to the rescheduler the tasks that are not
    done and hold blocks, so it awaits exactly the strict call of each of
    them for which [getTaskSchedule] does not throw (those whose blocks hold
    [Date] objects, and those that hold a single block), with the hours of
    the hook and a buffer of 15.  Without such a task it changes nothing.
    With one, the event of the pass is persisted and names those tasks, but
    it is handed on only when it has entries; no listener is notified. *)
Theorem manual_check_never_relaxes (formOf : Task -> DateForm) (tasks : list Task)
    (wh : WorkingHours) (now : Z) (st : State) :
  let r := triggerReschedulingCheck scheduleTask formOf tasks wh now st in
  let st' := snd r in
  let reached :=
    List.filter (fun task => reachesAllocator (formOf task) task)
      (tasksNeedingReschedule tasks) in
  calls st' = calls st ++ List.map (fun task => strictCall (formOf task) wh 15 task) reached
  /\ (forall task,
        In task reached <->
        In task (tasksNeedingReschedule tasks)
        /\ (formOf task = DateObjects
            \/ (length (default [] (calendarEvents task)) <= 1)%nat))
  /\ (tasksNeedingReschedule tasks = [] -> fst r = None /\ st' = st)
  /\ (tasksNeedingReschedule tasks <> [] ->
      exists event,
        last (getReschedulingHistory (storage st')) = Some event
        /\ triggeredBy event = manual_adjustment
        /\ affectedTasks event = List.map task_id (tasksNeedingReschedule tasks)
        /\ fst r = match changes event with [] => None | _ :: _ => Some event end)
  /\ delivered st' = delivered st.
Proof.
  cbv zeta. unfold triggerReschedulingCheck.
  pose proof (tasksNeedingReschedule_hasEvents tasks) as Hall.
  assert (Hreached : forall task,
             In task (List.filter (fun task => reachesAllocator (formOf task) task)
                        (tasksNeedingReschedule tasks)) <->
             In task (tasksNeedingReschedule tasks)
             /\ (formOf task = DateObjects
                 \/ (length (default [] (calendarEvents task)) <= 1)%nat)).
  { intros task. rewrite filter_In, reachesAllocator_iff. reflexivity. }
  destruct (tasksNeedingReschedule tasks) as [| t ts] eqn:Hneed.
  - cbn. rewrite app_nil_r. repeat split; tauto.
  - pose proof (rescheduleAffectedTasks_spec scheduleTask formOf (t :: ts)
                  manual_adjustment (Some wh) 15 now st) as Hspec.
    cbv zeta in Hspec.
    destruct (rescheduleAffectedTasks scheduleTask formOf (t :: ts) manual_adjustment
                (Some wh) 15 now st) as [[event tasks'] st1].
    cbn [fst snd default] in Hspec.
    destruct Hspec as ((_ & Htrig & Hids & _) & _ & _ & _ & (Hst & _ & _ & Hdel & _)
                       & awaited & Hcalls & _ & Hexact).
    assert (Hsnd : snd (match changes event with
                        | [] => (None, st1)
                        | _ :: _ => (Some event, st1)
                        end) = st1) by (destruct (changes event); reflexivity).
    assert (Hfst : fst (match changes event with
                        | [] => (None, st1)
                        | _ :: _ => (Some event, st1)
                        end) = match changes event with
                               | [] => None
                               | _ :: _ => Some event
                               end) by (destruct (changes event); reflexivity).
    rewrite Hsnd, Hfst, Hcalls, (Hexact Hall).
    split; [reflexivity | split; [exact Hreached | split; [discriminate |
      split; [| exact Hdel]]]].
    intros _. exists event. rewrite Hst, saveReschedulingEvent_history.
    split; [apply keepLast_last; lia |]. auto.
Qed.

End SyncFacts.

Section WebhookFacts.

Import RealtimeScheduler WebhookHandler.

Variable scheduleTask : Allocator.

Lemma orElse_truthy (x : option string) (d : string) :
  truthy d = true -> truthy (orElse x d) = true.
Proof. intros Hd. destruct x as [[| c s] |]; cbn; auto. Qed.

(** X24: a payload whose fields are strings or absent always parses to
    an event that passes validation (the clock string being non-empty), so
    [processWebhookPayload] reaches [handleCalendarChange] exactly when the
    event type is one of the three known ones; a payload without type is
    handled as an update, one without event id as the event "unknown", one
    without calendar id as the calendar "primary". *)
Theorem processWebhookPayload_dispatch (payload : Payload) (nowISO : string) (now : Z)
    (st : State) :
  nowISO <> "" ->
  let event := parseWebhookPayload payload nowISO in
  validateWebhookEvent event = true
  /\ processWebhookPayload scheduleTask payload nowISO now st
     = match changeKind (eventType event) with
       | Some kind =>
           handleCalendarChange scheduleTask kind (eventId event) (calendarId event)
             now st
       | None => st
       end
  /\ (payload_eventType payload = None -> changeKind (eventType event) = Some updated)
  /\ (payload_eventId payload = None -> eventId event = "unknown")
  /\ (payload_calendarId payload = None -> calendarId event = "primary").
Proof.
  intros Hnow. cbv zeta.
  assert (Hvalid : validateWebhookEvent (parseWebhookPayload payload nowISO) = true).
  { unfold validateWebhookEvent, parseWebhookPayload.
    cbn [eventType eventId calendarId timestamp].
    rewrite !orElse_truthy; try reflexivity.
    destruct nowISO; [congruence | reflexivity]. }
  split; [exact Hvalid | split; [| split; [| split]]].
  - unfold processWebhookPayload, handleWebhookEvent. rewrite Hvalid. reflexivity.
  - intros H. unfold parseWebhookPayload. cbn [eventType]. rewrite H. reflexivity.
  - intros H. unfold parseWebhookPayload. cbn [eventId]. rewrite H. reflexivity.
  - intros H. unfold parseWebhookPayload. cbn [calendarId]. rewrite H. reflexivity.
Qed.

(** X25: a webhook event that arrives while a pass is in progress is
    dropped: whatever the event, the scheduler's flag, listeners, storage,
    allocator calls and deliveries are as before. *)
Theorem webhook_dropped_while_rescheduling (event : WebhookEvent) (now : Z) (st : State) :
  reschedulingInProgress st = true ->
  sameButConsole (handleWebhookEvent scheduleTask event now st) st.
Proof.
  intros Hbusy. unfold handleWebhookEvent.
  destruct (validateWebhookEvent event); [| repeat split].
  destruct (changeKind (eventType event)); [| repeat split].
  unfold handleCalendarChange, enterCalendarChange. rewrite Hbusy.
  repeat split.
Qed.

End WebhookFacts.


(** X24 for a payload that names only the changed event, received while
    the scheduler is idle. *)
Lemma processWebhookPayload_dispatch_witness :
  WebhookHandler.parseWebhookPayload barePayload "2024-01-01T09:30:00.000Z"
  = WebhookHandler.mkWebhookEvent "updated" "google-event-1" "primary"
      "2024-01-01T09:30:00.000Z"
  /\ (let event :=
        WebhookHandler.parseWebhookPayload barePayload "2024-01-01T09:30:00.000Z" in
      WebhookHandler.validateWebhookEvent event = true
      /\ WebhookHandler.processWebhookPayload roomLater barePayload
           "2024-01-01T09:30:00.000Z" 0 watchedScheduler
         = match WebhookHandler.changeKind (WebhookHandler.eventType event) with
           | Some kind =>
               RealtimeScheduler.handleCalendarChange roomLater kind
                 (WebhookHandler.eventId event) (WebhookHandler.calendarId event)
                 0 watchedScheduler
           | None => watchedScheduler
           end
      /\ (WebhookHandler.payload_eventType barePayload = None ->
          WebhookHandler.changeKind (WebhookHandler.eventType event)
          = Some RealtimeScheduler.updated)
      /\ (WebhookHandler.payload_eventId barePayload = None ->
          WebhookHandler.eventId event = "unknown")
      /\ (WebhookHandler.payload_calendarId barePayload = None ->
          WebhookHandler.calendarId event = "primary")).
Proof.
  split; [reflexivity |].
  apply (processWebhookPayload_dispatch roomLater barePayload
           "2024-01-01T09:30:00.000Z" 0 watchedScheduler).
  discriminate.
Defined.

(** X25 for an update of the mirrored provider event received during a
    pass. *)
Lemma webhook_dropped_while_rescheduling_witness :
  RealtimeScheduler.reschedulingInProgress busyScheduler = true
  /\ sameButConsole
       (WebhookHandler.handleWebhookEvent roomLater
          (WebhookHandler.mkWebhookEvent "updated" "google-event-1" "primary"
             "2024-01-01T09:30:00.000Z") 0 busyScheduler)
       busyScheduler.
Proof.
  split; [reflexivity |].
  apply (webhook_dropped_while_rescheduling roomLater). reflexivity.
Defined.
